(** * kabuki.hierarchical: dependency partitioning, bottom-node binding,
      bounded retries, MAP selection and the statistics cache

    A shallow embedding of [src/kabuki/hierarchical.py].  Python
    exceptions are values of [exn] carried by the [result] monad;
    dictionaries keyed by strings that are only looked up and assigned
    are [gmap string _]; dictionaries whose iteration order is used
    ([params_include], [depends_on]) are association lists; numpy
    record arrays are a schema plus positional rows. *)

From stdpp Require Import gmap strings list sorting pretty.
From Stdlib Require Import ZArith.

Local Open Scope Z_scope.
Local Open Scope string_scope.
Local Open Scope list_scope.

(** ** Exceptions and the result monad *)

(** The exception classes the module raises or catches.  A
    [ZeroProbability] built by [raise pm.ZeroProbability, e] from another
    exception carries that exception as its argument. *)
Inductive exn : Type :=
  | ZeroProbability (arg : exn_arg)
  | ValueError (msg : string)
  | KeyError (msg : string)
  | AssertionError (msg : string)
  | AttributeError (msg : string)
  | TypeError (msg : string)
  | IndexError (msg : string)
with exn_arg : Type :=
  | ArgMsg (msg : string)
  | ArgExn (e : exn).

Inductive result (A : Type) : Type :=
  | Ok (a : A)
  | Raise (e : exn).
Arguments Ok {A} a.
Arguments Raise {A} e.

#[global] Instance result_ret : MRet result := λ A a, Ok a.
#[global] Instance result_bind : MBind result := λ A B k c,
  match c with
  | Ok a => k a
  | Raise e => Raise e
  end.

(** Is the exception an instance of [pm.ZeroProbability]? *)
Definition is_ZeroProbability (e : exn) : bool :=
  match e with ZeroProbability _ => true | _ => false end.

Definition is_ValueError (e : exn) : bool :=
  match e with ValueError _ => true | _ => false end.

(** The human-readable reason an exception carries ([str(e)]); a
    wrapping [ZeroProbability] prints its argument. *)
Fixpoint reason (e : exn) : string :=
  match e with
  | ZeroProbability (ArgMsg s) => s
  | ZeroProbability (ArgExn e') => reason e'
  | ValueError s | KeyError s | AssertionError s
  | AttributeError s | TypeError s | IndexError s => s
  end.

(** ** Record arrays *)

(** A cell of the data table.  Numeric cells are integers here. *)
Inductive cell : Type :=
  | CInt (z : Z)
  | CStr (s : string).

#[global] Instance cell_eq_dec : EqDecision cell.
Proof. solve_decision. Defined.

(** Natural ascending order inside a column (cells of one column have
    one type; between types numbers come first). *)
Definition cell_leb (a b : cell) : bool :=
  match a, b with
  | CInt x, CInt y => (x <=? y)%Z
  | CInt _, CStr _ => true
  | CStr _, CInt _ => false
  | CStr s, CStr t => String.leb s t
  end.

Definition cell_le (a b : cell) : Prop := cell_leb a b = true.

#[global] Instance cell_le_dec : RelDecision cell_le.
Proof. intros a b. unfold cell_le. apply _. Defined.

(** What [data[cols]] holds for one row when [cols] is a list of column
    names: the tuple of the row's cells in those columns. *)
Abbreviation key := (list cell).

Fixpoint key_leb (a b : key) : bool :=
  match a, b with
  | [], _ => true
  | _ :: _, [] => false
  | x :: a', y :: b' =>
      if decide (x = y) then key_leb a' b' else cell_leb x y
  end.

Definition key_le (a b : key) : Prop := key_leb a b = true.

#[global] Instance key_le_dec : RelDecision key_le.
Proof. intros a b. unfold key_le. apply _. Defined.

(** [numpy.recarray]: the field names ([data.dtype.names]) and the rows,
    each row holding one cell per field, in field order. *)
Record recarray : Type := {
  dtype_names : list string;
  rows : list (list cell);
}.

(** [len(data)] *)
Definition len (data : recarray) : nat := length (rows data).

Fixpoint field_index (names : list string) (col : string) : option nat :=
  match names with
  | [] => None
  | n :: names' =>
      if decide (n = col) then Some 0%nat
      else S <$> field_index names' col
  end.

(** The cell of [row] in column [col]. *)
Definition row_field (names : list string) (row : list cell) (col : string)
  : option cell :=
  i ← field_index names col; row !! i.

(** The cells of [row] in the columns [cols]. *)
Definition row_key (names : list string) (cols : list string)
    (row : list cell) : option key :=
  mapM (row_field names row) cols.

(** [data[col]] for one column name: the column, or the error numpy
    raises for an unknown field. *)
Definition getitem_col (data : recarray) (col : string) : result (list cell) :=
  match mapM (λ row, row_field (dtype_names data) row col) (rows data) with
  | Some c => Ok c
  | None => Raise (ValueError ("field named " +:+ col +:+ " not found."))
  end.

(** [data[cols]] for a list of column names: one tuple per row.  An
    empty list is no list of field names but an empty index array: it
    selects no record, whatever the table holds. *)
Definition getitem_cols (data : recarray) (cols : list string)
  : result (list key) :=
  match cols with
  | [] => Ok []
  | _ :: _ =>
      match mapM (row_key (dtype_names data) cols) (rows data) with
      | Some c => Ok c
      | None => Raise (ValueError "field not found.")
      end
  end.

(** [data[mask]] with a boolean mask computed row by row. *)
Definition select_rows (data : recarray) (mask : list cell → bool) : recarray :=
  {| dtype_names := dtype_names data;
     rows := filter (λ row, mask row = true) (rows data) |}.

(** [np.unique]: the distinct elements in ascending order. *)
Definition np_unique_keys (l : list key) : list key :=
  merge_sort key_le (remove_dups l).

Definition np_unique (l : list cell) : list cell :=
  merge_sort cell_le (remove_dups l).

(** [np.arange(n)] *)
Definition np_arange (n : nat) : list cell :=
  (λ i : nat, CInt (Z.of_nat i)) <$> seq 0 n.

(** ** The constructor [Hierarchical.__init__] *)

(** A value of the caller's [depends_on] dictionary: a single column
    given as a plain string, or a list of column names. *)
Inductive dep_cols : Type :=
  | DepStr (s : string)
  | DepList (l : list string).

(** The caller's dictionary, in its iteration order. *)
Abbreviation depends_dict := (list (string * dep_cols)).

(** Lines 167-175: refuse a table that already has the reserved field,
    then append the field [data_idx] holding [np.arange(len(data))]. *)
Definition add_data_idx (data : recarray) : result recarray :=
  if decide ("data_idx" ∈ dtype_names data) then
    Raise (AssertionError
      "A field named data_idx was found in the data file, please change it.")
  else
    Ok {| dtype_names := dtype_names data ++ ["data_idx"];
          rows := zip_with (λ row i, row ++ [i]) (rows data)
                    (np_arange (len data)) |}.

(** Lines 182-184: [if type(depends_on[key]) is str:
    depends_on[key] = [depends_on[key]]], applied in place to every key. *)
Definition listify (v : dep_cols) : dep_cols :=
  match v with
  | DepStr s => DepList [s]
  | DepList l => DepList l
  end.

Definition listify_depends_on (d : depends_dict) : depends_dict :=
  prod_map id listify <$> d.

(** Iterating over a Python string yields its characters. *)
Fixpoint chars (s : string) : list string :=
  match s with
  | EmptyString => []
  | String c s' => String c EmptyString :: chars s'
  end.

(** What [for elem in depend_on] iterates over. *)
Definition cols_of (v : dep_cols) : list string :=
  match v with
  | DepStr s => chars s
  | DepList l => l
  end.

(** Lines 186-189: the first column name that is not a field of the
    data raises [KeyError]. *)
Fixpoint check_columns (names : list string) (cols : list string) : result unit :=
  match cols with
  | [] => Ok ()
  | elem :: cols' =>
      if decide (elem ∈ names) then check_columns names cols'
      else Raise (KeyError ("Column named " +:+ elem +:+ " not found in data."))
  end.

Fixpoint check_depends_on (names : list string) (d : depends_dict) : result unit :=
  match d with
  | [] => Ok ()
  | (_, depend_on) :: d' =>
      _ ← check_columns names (cols_of depend_on);
      check_depends_on names d'
  end.

(** The part of the object the constructor sets. *)
Record Hierarchical : Type := {
  include : list string;
  data : recarray;
  depends_on : list (string * list string);
  is_group_model : bool;
  _subjs : list cell;
}.

Definition _num_subjs (self : Hierarchical) : nat := length (_subjs self).

(** Lines 192-206. *)
Definition decide_group_model (data : recarray) (is_group_model : option bool)
  : result bool :=
  match is_group_model with
  | None =>
      if decide ("subj_idx" ∈ dtype_names data) then
        subj ← getitem_col data "subj_idx";
        Ok (negb (bool_decide (length (np_unique subj) = 1%nat)))
      else Ok false
  | Some g =>
      if g && negb (bool_decide ("subj_idx" ∈ dtype_names data)) then
        Raise (ValueError "Group models require 'subj_idx' column in input data.")
      else Ok g
  end.

(** Lines 177-211, run on the augmented data.  The first component is
    the caller's dictionary as the call leaves it, whether the
    constructor returns or raises. *)
Definition init_after_data_idx (data : recarray) (is_group_model : option bool)
    (depends_on : option depends_dict) (include : list string)
  : option depends_dict * result Hierarchical :=
  let finish (deps : list (string * list string)) : result Hierarchical :=
    g ← decide_group_model data is_group_model;
    subjs ← (if g then c ← getitem_col data "subj_idx"; Ok (np_unique c)
             else Ok []);
    Ok {| include := include; data := data; depends_on := deps;
          is_group_model := g; _subjs := subjs |} in
  match depends_on with
  | None => (None, finish [])
  | Some [] => (Some [], finish [])
  | Some d =>
      let d' := listify_depends_on d in
      (Some d',
       _ ← check_depends_on (dtype_names data) d';
       finish (prod_map id cols_of <$> d'))
  end.

(** The constructor.  A table that fails the [data_idx] assertion is
    refused before [depends_on] is looked at. *)
Definition __init__ (data : recarray) (is_group_model : option bool)
    (depends_on : option depends_dict) (include : list string)
  : option depends_dict * result Hierarchical :=
  match add_data_idx data with
  | Raise e => (depends_on, Raise e)
  | Ok new_data => init_after_data_idx new_data is_group_model depends_on include
  end.

(** ** Nodes and parameter descriptors *)

(** What the module reads of a backend node: its name, its current
    value and whether it is observed. *)
Record node : Type := {
  __name__ : string;
  value : Z;
  observed : bool;
}.

(** What a node mapping or a binding can hold: [None], one node, or a
    numpy object array (one slot per subject). *)
#[warnings="-register-all"] Inductive pyobj : Type :=
  | PyNone
  | PyNode (n : node)
  | PyArray (a : list pyobj).

(** [a[i]] on an object array; anything else is not subscriptable. *)
Definition py_getitem (a : pyobj) (i : nat) : result pyobj :=
  match a with
  | PyArray l =>
      match l !! i with
      | Some x => Ok x
      | None => Raise (IndexError "index out of bounds")
      end
  | _ => Raise (TypeError "object is not subscriptable")
  end.

(** [a[i] = x] on an object array. *)
Definition py_setitem (a : pyobj) (i : nat) (x : pyobj) : result pyobj :=
  match a with
  | PyArray l =>
      if decide (i < length l)%nat then Ok (PyArray (<[i:=x]> l))
      else Raise (IndexError "index out of bounds")
  | _ => Raise (TypeError "object does not support item assignment")
  end.

(** A table of the model's nodes by name: [self.nodes], and the
    container of the [pymc.MAP] object built on it.  Under a name it
    holds what lines 343-351 put there: a node, the object array of a
    subject tier, or [None]. *)
Abbreviation node_table := (gmap string pyobj).

(** [d[k]] on a dictionary. *)
Definition dict_getitem {V : Type} (d : gmap string V) (k : string) : result V :=
  match d !! k with
  | Some v => Ok v
  | None => Raise (KeyError k)
  end.

(** [d.has_key(k)] *)
Definition has_key {V : Type} (d : gmap string V) (k : string) : bool :=
  bool_decide (is_Some (d !! k)).

(** [class Parameter]: the fields the node builder reads, and the three
    mappings from tag to node. *)
Record Param : Type := {
  name : string;
  create_group_node : bool;
  create_subj_nodes : bool;
  is_bottom_node : bool;
  optional : bool;
  group_nodes : gmap string pyobj;
  var_nodes : gmap string pyobj;
  subj_nodes : gmap string pyobj;
}.

(** [self.params_include]: an ordered dictionary from parameter name to
    descriptor. *)
Abbreviation ordered_params := (list (string * Param)).

Fixpoint od_lookup {V : Type} (d : list (string * V)) (k : string) : option V :=
  match d with
  | [] => None
  | (k', v) :: d' => if decide (k' = k) then Some v else od_lookup d' k
  end.

Definition od_getitem {V : Type} (d : list (string * V)) (k : string) : result V :=
  match od_lookup d k with
  | Some v => Ok v
  | None => Raise (KeyError k)
  end.

(** Assigning to an attribute of the object stored under [k]. *)
Fixpoint od_update {V : Type} (d : list (string * V)) (k : string) (f : V → V)
  : list (string * V) :=
  match d with
  | [] => []
  | (k', v) :: d' =>
      if decide (k' = k) then (k', f v) :: d' else (k', v) :: od_update d' k f
  end.

(** ** The dependency partitioner *)

(** One emitted terminal: the data subset, the bindings and the tag path. *)
Abbreviation terminal := (recarray * gmap string pyobj * list key)%type.

Definition terminal_data (t : terminal) : recarray := t.1.1.
Definition terminal_params (t : terminal) : gmap string pyobj := t.1.2.
Definition terminal_dep_name (t : terminal) : list key := t.2.

Section Partitioner.
(** [str(depend_element)], the tag under which a dependent node is
    stored. *)
Variable str_element : key → string.
Variable self : Hierarchical.
Variable params_include : ordered_params.

(** The node bound for [param] under [tag]: its subject array in a
    group model when it creates subject nodes, its group node
    otherwise. *)
Definition tier_node (param : Param) (tag : string) : result pyobj :=
  if is_group_model self && create_subj_nodes param
  then dict_getitem (subj_nodes param) tag
  else dict_getitem (group_nodes param) tag.

(** The rows of [data] whose cells in [col_name] equal
    [depend_element]: [data[data[col_name] == depend_element]].  The
    code evaluates it for the elements of [np.unique(data[col_name])]
    only, so never with an empty [col_name]. *)
Definition rows_equal (data : recarray) (col_name : list string)
    (depend_element : key) : recarray :=
  select_rows data (λ row,
    bool_decide (row_key (dtype_names data) col_name row = Some depend_element)).

(** Lines 253-280, the loop over the unique elements.  [params] is the
    one dictionary the loop keeps assigning to; every recursive call
    receives a copy of it. *)
Definition depend_loop (data : recarray) (param_name : string)
    (col_name : list string) (dep_name : list key)
    (recurse : recarray → gmap string pyobj → list key → result (list terminal))
  : list key → gmap string pyobj → result (list terminal) :=
  fix loop depend_elements params :=
    match depend_elements with
    | [] => Ok []
    | depend_element :: rest =>
        let dep_name' := dep_name ++ [depend_element] in
        let data_dep := rows_equal data col_name depend_element in
        param ← od_getitem params_include param_name;
        nd ← tier_node param (str_element depend_element);
        let params' := <[param_name := nd]> params in
        data_param ← recurse data_dep params' dep_name';
        data_params ← loop rest params';
        Ok (data_param ++ data_params)
    end.

(** Lines 241-284.  [depends_on.keys()[0]] and [depends_on.pop] take
    the first entry of the dictionary off. *)
Fixpoint _get_data_depend_rec (data : recarray)
    (depends_on : list (string * list string))
    (params : gmap string pyobj) (dep_name : list key) {struct depends_on}
  : result (list terminal) :=
  match depends_on with
  | [] => Ok [(data, params, dep_name)]
  | (param_name, col_name) :: depends_on' =>
      col ← getitem_cols data col_name;
      depend_loop data param_name col_name dep_name
        (λ data_dep params' dep_name',
           _get_data_depend_rec data_dep depends_on' params' dep_name')
        (np_unique_keys col) params
  end.

(** Lines 223-232: the bindings of the parameters that depend on
    nothing. *)
Fixpoint independent_params (ps : ordered_params) (params : gmap string pyobj)
  : result (gmap string pyobj) :=
  match ps with
  | [] => Ok params
  | (nm, param) :: ps' =>
      if bool_decide (nm ∈ (depends_on self).*1) || is_bottom_node param
      then independent_params ps' params
      else nd ← tier_node param "";
           independent_params ps' (<[nm := nd]> params)
  end.

(** Lines 214-239. *)
Definition _get_data_depend : result (list terminal) :=
  params ← independent_params params_include ∅;
  _get_data_depend_rec (data self) (depends_on self) params [].
End Partitioner.

(** ** The bottom node binder *)

(** One call of the backend's [get_bottom_node]: the scratch fields the
    descriptor carried ([tag], [idx], [data]), the bindings handed over
    and the node that came back. *)
Record bottom_call : Type := {
  call_tag : string;
  call_idx : option nat;
  call_data : recarray;
  call_params : gmap string pyobj;
  call_node : node;
}.

Definition set_subj_nodes (f : gmap string pyobj → gmap string pyobj)
    (p : Param) : Param :=
  {| name := name p;
     create_group_node := create_group_node p;
     create_subj_nodes := create_subj_nodes p;
     is_bottom_node := is_bottom_node p;
     optional := optional p;
     group_nodes := group_nodes p;
     var_nodes := var_nodes p;
     subj_nodes := f (subj_nodes p) |}.

Section BottomNodes.
Variable str_element : key → string.
(** [str(dep_name)], the tag of a partition. *)
Variable str_path : list key → string.
(** The backend's [get_bottom_node(param, params)], reading [param]
    with [param.tag], [param.idx] and [param.data] set. *)
Variable get_bottom_node :
  Param → string → option nat → recarray → gmap string pyobj → result node.
Variable self : Hierarchical.

(** Lines 621-630: the binding chosen for one included parameter, for
    the subject at position [i]. *)
Definition select_subj_node (selected_param : Param)
    (params : gmap string pyobj) (dep_name : string) (i : nat) : result pyobj :=
  if negb (create_subj_nodes selected_param) then
    if has_key (subj_nodes selected_param) dep_name
    then dict_getitem (group_nodes selected_param) dep_name
    else dict_getitem params (name selected_param)
  else
    if has_key (subj_nodes selected_param) dep_name
    then a ← dict_getitem (subj_nodes selected_param) dep_name; py_getitem a i
    else a ← dict_getitem params (name selected_param); py_getitem a i.

(** Lines 615-630: the loop over [self.params_include.itervalues()]. *)
Fixpoint select_subj_nodes (ps : ordered_params) (params : gmap string pyobj)
    (dep_name : string) (i : nat) (selected_subj_nodes : gmap string pyobj)
  : result (gmap string pyobj) :=
  match ps with
  | [] => Ok selected_subj_nodes
  | (_, selected_param) :: ps' =>
      nd ← select_subj_node selected_param params dep_name i;
      select_subj_nodes ps' params dep_name i
        (<[name selected_param := nd]> selected_subj_nodes)
  end.

(** The rows of [data] that belong to [subj]. *)
Definition rows_of_subj (data : recarray) (subj : cell) : recarray :=
  select_rows data (λ row,
    bool_decide (row_field (dtype_names data) row "subj_idx" = Some subj)).

(** [param.subj_nodes[dep_name][i] = nd] on the descriptor stored
    under [pname]. *)
Definition store_subj_node (params_include : ordered_params) (pname : string)
    (dep_name : string) (i : nat) (nd : node) : result ordered_params :=
  param ← od_getitem params_include pname;
  a ← dict_getitem (subj_nodes param) dep_name;
  a' ← py_setitem a i (PyNode nd);
  Ok (od_update params_include pname (set_subj_nodes (<[dep_name := a']>))).

(** Lines 608-637, from subject position [i] on.  The descriptor being
    filled is the one stored under [pname] in [params_include]. *)
Fixpoint subj_loop (pname : string) (data : recarray)
    (params : gmap string pyobj) (dep_name : string)
    (subjs : list cell) (i : nat) (params_include : ordered_params)
  : result (ordered_params * list bottom_call) :=
  match subjs with
  | [] => Ok (params_include, [])
  | subj :: subjs' =>
      _ ← getitem_col data "subj_idx";
      let data_subj := rows_of_subj data subj in
      if decide (len data_subj = 0%nat) then
        subj_loop pname data params dep_name subjs' (S i) params_include
      else
        selected_subj_nodes ←
          select_subj_nodes params_include params dep_name i ∅;
        param ← od_getitem params_include pname;
        nd ← get_bottom_node param dep_name (Some i) data_subj
               selected_subj_nodes;
        params_include' ← store_subj_node params_include pname dep_name i nd;
        '(final, calls) ←
          subj_loop pname data params dep_name subjs' (S i) params_include';
        Ok (final,
            {| call_tag := dep_name; call_idx := Some i;
               call_data := data_subj; call_params := selected_subj_nodes;
               call_node := nd |} :: calls)
  end.

(** Lines 642-644. *)
Fixpoint bind_stored_nodes (ps : ordered_params) (dep_name : string)
    (params : gmap string pyobj) : gmap string pyobj :=
  match ps with
  | [] => params
  | (_, selected_param) :: ps' =>
      match subj_nodes selected_param !! dep_name with
      | Some x =>
          bind_stored_nodes ps' dep_name (<[name selected_param := x]> params)
      | None => bind_stored_nodes ps' dep_name params
      end
  end.

(** Lines 588-651. *)
Definition _create_bottom_node (params_include : ordered_params)
    (pname : string) (data : recarray) (params : gmap string pyobj)
    (dep_name : string) (idx : nat)
  : result (ordered_params * list bottom_call) :=
  if is_group_model self then
    subj_loop pname data params dep_name (_subjs self) 0 params_include
  else
    let params' := bind_stored_nodes params_include dep_name params in
    param ← od_getitem params_include pname;
    nd ← get_bottom_node param dep_name None data params';
    Ok (od_update params_include pname
          (set_subj_nodes (<[dep_name := PyNode nd]>)),
        [ {| call_tag := dep_name; call_idx := None; call_data := data;
             call_params := params'; call_node := nd |} ]).

(** Lines 576-584, from partition number [i] on. *)
Fixpoint bottom_loop (pname : string) (init : bool) (data_dep : list terminal)
    (i : nat) (params_include : ordered_params)
  : result (ordered_params * list bottom_call) :=
  match data_dep with
  | [] => Ok (params_include, [])
  | (data, params_dep, dep_name) :: data_dep' =>
      let dep_name := str_path dep_name in
      '(params_include', calls) ←
        (if init then
           param ← od_getitem params_include pname;
           let placeholder :=
             if is_group_model self && create_subj_nodes param
             then PyArray (replicate (_num_subjs self) PyNone)
             else PyNone in
           Ok (od_update params_include pname
                 (set_subj_nodes (<[dep_name := placeholder]>)), [])
         else
           _create_bottom_node params_include pname data params_dep
             dep_name i);
      '(final, calls') ←
        bottom_loop pname init data_dep' (S i) params_include';
      Ok (final, calls ++ calls')
  end.

(** Lines 560-586. *)
Definition _set_bottom_nodes (params_include : ordered_params)
    (pname : string) (init : bool)
  : result (ordered_params * list bottom_call) :=
  data_dep ← _get_data_depend str_element self params_include;
  bottom_loop pname init data_dep 0 params_include.
End BottomNodes.

(** ** [create_nodes]: the bounded retry around node construction *)

(** [raise pm.ZeroProbability, e]: an instance of the class is raised as
    it is, anything else becomes the argument of a new instance. *)
Definition raise_ZeroProbability (e : exn) : exn :=
  if is_ZeroProbability e then e else ZeroProbability (ArgExn e).

(** [def create_nodes(self, retry=20)] *)
Definition default_retry : Z := 20.

(** What [except (pm.ZeroProbability, ValueError)] catches. *)
Definition caught_by_create_nodes (e : exn) : bool :=
  is_ZeroProbability e || is_ValueError e.

(** Lines 312-317: the included descriptors, in declaration order;
    assigning to a name that is already there replaces the descriptor in
    place. *)
Fixpoint od_insert {V : Type} (d : list (string * V)) (k : string) (v : V)
  : list (string * V) :=
  match d with
  | [] => [(k, v)]
  | (k', v') :: d' =>
      if decide (k' = k) then (k, v) :: d' else (k', v') :: od_insert d' k v
  end.

Definition select_params_include (include : list string) (params : list Param)
  : ordered_params :=
  foldl (λ acc param,
           if bool_decide (name param ∈ include) || negb (optional param)
           then od_insert acc (name param) param else acc)
        [] params.

Section CreateNodes.
Variable str_element : key → string.
Variable str_path : list key → string.
Variable get_bottom_node :
  Param → string → option nat → recarray → gmap string pyobj → result node.
(** [_create k ps]: what the [k]-th execution of the inner [_create()]
    (counted from 0 over the life of the model) does to the
    descriptors: the descriptors with their group, variability and
    subject tiers filled, or the exception the backend raised. *)
Variable _create : nat → ordered_params → result ordered_params.
Variable self : Hierarchical.

(** Lines 319-329.  [remaining] is [retry - tries], [k] the number of
    executions of [_create()] so far; the second component is that
    number when the loop is left. *)
Fixpoint create_retry (remaining : nat) (k : nat) (ps : ordered_params)
  : result ordered_params * nat :=
  match _create k ps with
  | Ok ps' => (Ok ps', S k)
  | Raise e =>
      if caught_by_create_nodes e then
        match remaining with
        | S remaining' => create_retry remaining' (S k) ps
        | O => (Raise (raise_ZeroProbability e), S k)
        end
      else (Raise e, S k)
  end.

(** Lines 332-341: one pass of [_set_bottom_nodes] over the bottom
    parameters, in the order of [names]. *)
Fixpoint bottom_pass (init : bool) (names : list string) (ps : ordered_params)
  : result (ordered_params * list bottom_call) :=
  match names with
  | [] => Ok (ps, [])
  | nm :: names' =>
      param ← od_getitem ps nm;
      if negb (is_bottom_node param) then bottom_pass init names' ps
      else
        '(ps', calls) ←
          _set_bottom_nodes str_element str_path get_bottom_node self ps nm init;
        '(final, calls') ← bottom_pass init names' ps';
        Ok (final, calls ++ calls')
  end.

(** Lines 286-341 of [create_nodes(retry)]; [k] counts the executions
    of [_create()].  The flat name table of lines 343-353 is
    [nodes_of] of the returned descriptors. *)
Definition create_nodes (retry : Z) (params : list Param) (k : nat)
  : result (ordered_params * list bottom_call) * nat :=
  let params_include := select_params_include (include self) params in
  match create_retry (Z.to_nat retry) k params_include with
  | (Raise e, k') => (Raise e, k')
  | (Ok ps, k') =>
      (ps1 ← bottom_pass true ps.*1 ps;
       bottom_pass false ps1.1.*1 ps1.1, k')
  end.
End CreateNodes.

(** Lines 346-351 for one tier of one descriptor: every node of the
    tier enters the table under [name + tag + suffix].  For one name
    and suffix different tags give different keys, so the order of the
    tags does not show in the table. *)
Definition add_nodes (name suffix : string) (tier : gmap string pyobj)
    (table : node_table) : node_table :=
  foldl (λ t kv, <[name +:+ kv.1 +:+ suffix := kv.2]> t) table
    (map_to_list tier).

(** Lines 343-353: [self.nodes], the table [create_nodes] returns: the
    group nodes, the subject tiers (an object array each, or [None])
    and the variability nodes of every included descriptor, in the
    order of [params_include]. *)
Definition nodes_of (params_include : ordered_params) : node_table :=
  foldl (λ t kv,
           add_nodes kv.1 "_var" (var_nodes kv.2)
             (add_nodes kv.1 "_subj" (subj_nodes kv.2)
                (add_nodes kv.1 "_group" (group_nodes kv.2) t)))
    ∅ params_include.

(** ** [map]: repeated fits and the choice of the best one *)

(** What [map] reads of a [pymc.MAP] object. *)
Record MAP : Type := {
  logp : Z;
  _dict_container : node_table;
}.

Definition set_value (v : Z) (n : node) : node :=
  {| __name__ := __name__ n; value := v; observed := observed n |}.

(** Only a node has the attributes [observed] and [value]: on an
    object array and on [None] reading or assigning one raises
    [AttributeError]. *)
Definition no_attribute (attr : string) : exn :=
  AttributeError ("object has no attribute '" +:+ attr +:+ "'").

(** [o.observed] *)
Definition py_observed (o : pyobj) : result bool :=
  match o with
  | PyNode n => Ok (observed n)
  | _ => Raise (no_attribute "observed")
  end.

(** [o.value] *)
Definition py_value (o : pyobj) : result Z :=
  match o with
  | PyNode n => Ok (value n)
  | _ => Raise (no_attribute "value")
  end.

(** [o.value = v] *)
Definition py_set_value (o : pyobj) (v : Z) : result pyobj :=
  match o with
  | PyNode n => Ok (PyNode (set_value v n))
  | _ => Raise (no_attribute "value")
  end.

(** [sorted(maps, key=attrgetter('logp'))]: ascending and stable. *)
Fixpoint insert_by_logp (m : MAP) (l : list MAP) : list MAP :=
  match l with
  | [] => [m]
  | m' :: l' =>
      if (logp m <=? logp m')%Z then m :: m' :: l'
      else m' :: insert_by_logp m l'
  end.

Definition sorted_by_logp (maps : list MAP) : list MAP :=
  foldr insert_by_logp [] maps.

(** [l[-1]] and [l[-2]] *)
Definition last_item {A : Type} (l : list A) : result A :=
  match last l with
  | Some x => Ok x
  | None => Raise (IndexError "list index out of range")
  end.

Definition second_last_item {A : Type} (l : list A) : result A :=
  match reverse l !! 1%nat with
  | Some x => Ok x
  | None => Raise (IndexError "list index out of range")
  end.

(** Lines 409-411 over the items of the winner's container:
    [node.observed] is read first; for a non-observed node the right
    side [node.value] is evaluated, then [self.nodes[name]] is looked
    up and its [value] assigned. *)
Fixpoint set_values (items : list (string * pyobj)) (nodes : node_table)
  : result node_table :=
  match items with
  | [] => Ok nodes
  | (nm, nd) :: items' =>
      obs ← py_observed nd;
      if negb obs then
        v ← py_value nd;
        live ← dict_getitem nodes nm;
        live' ← py_set_value live v;
        set_values items' (<[nm := live']> nodes)
      else set_values items' nodes
  end.

(** What a call of [map] leaves behind. *)
Record map_outcome : Type := {
  max_map : MAP;
  nodes : node_table;
  warnings : list Z;
}.

(** Lines 397-406: the best fit, and the warning printed when the two
    best fits are further apart than [warn_crit] (the printed distance). *)
Definition map_choose (runs warn_crit : Z) (maps : list MAP)
  : result (MAP * list Z) :=
  let sorted_maps := sorted_by_logp maps in
  best ← last_item sorted_maps;
  printed ←
    (if (2 <=? runs)%Z then
       second ← second_last_item sorted_maps;
       let abs_err := Z.abs (logp best - logp second) in
       Ok (if (warn_crit <? abs_err)%Z then [abs_err] else [])
     else Ok []);
  Ok (best, printed).

Section Map.
(** [attempt k]: what the [k]-th execution of the body of the [try]
    (lines 385-388: [create_nodes()], [pm.MAP(self.nodes)], [fit()])
    yields: the rebuilt [self.nodes] and the fitted MAP object, or the
    exception it raised. *)
Variable attempt : nat → result (node_table * MAP).

(** Lines 380-395, one run.  [remaining] is [max_retry - retries], [k]
    the number of attempts made so far. *)
Fixpoint map_run (remaining : nat) (k : nat)
  : result (node_table * MAP) * nat :=
  match attempt k with
  | Ok r => (Ok r, S k)
  | Raise e =>
      if is_ZeroProbability e then
        match remaining with
        | S (S _ as remaining') => map_run remaining' (S k)
        | _ => (Raise e, S k)
        end
      else (Raise e, S k)
  end.

(** Lines 379-395: [for i in range(runs)]. *)
Fixpoint map_runs (runs : nat) (max_retry : Z) (k : nat)
    (live : node_table) (maps : list MAP)
  : result (node_table * list MAP) * nat :=
  match runs with
  | O => (Ok (live, maps), k)
  | S runs' =>
      match map_run (Z.to_nat max_retry) k with
      | (Ok (live', m), k') => map_runs runs' max_retry k' live' (maps ++ [m])
      | (Raise e, k') => (Raise e, k')
      end
  end.

(** Lines 408-413: copy the winner's values and return it. *)
Definition map_select (runs warn_crit : Z) (live : node_table)
    (maps : list MAP) : result map_outcome :=
  '(best, printed) ← map_choose runs warn_crit maps;
  live' ← set_values (map_to_list (_dict_container best)) live;
  Ok {| max_map := best; nodes := live'; warnings := printed |}.

(** Lines 355-413, started on a model whose node table is [live0]. *)
Definition map (runs max_retry warn_crit : Z) (live0 : node_table)
  : result map_outcome * nat :=
  match map_runs (Z.to_nat runs) max_retry 0 live0 [] with
  | (Ok (live, maps), k) => (map_select runs warn_crit live maps, k)
  | (Raise e, k) => (Raise e, k)
  end.
End Map.

(** ** [stats]: the statistics cache *)

Section Stats.
(** The statistics object the sampler computes. *)
Variable stats_obj : Type.
(** [mc_stats k chain]: what the [k]-th call of [self.mc.stats] returns
    when handed the keyword [chain]. *)
Variable mc_stats : nat → option Z → stats_obj.

(** The attributes [stats] reads and writes.  [mc_chains] is
    [self.mc.db.chains] when there is a sampler with a database;
    [_stats] and [_stats_chain] are [None] while the attribute does
    not exist; [computed] counts the calls of [self.mc.stats]. *)
Record stats_state : Type := {
  mc_chains : option Z;
  _stats : option stats_obj;
  _stats_chain : option Z;
  computed : nat;
}.

(** Lines 707-729.  The result is [None] when the function falls off
    its end. *)
Definition stats (st : stats_state) (chain : option Z)
  : result (option stats_obj) * stats_state :=
  match mc_chains st with
  | None => (Raise (ValueError "No model found."), st)
  | Some nchains =>
      let i_chain := default nchains chain in
      match _stats_chain st with
      | Some c =>
          if decide (c = i_chain) then
            match _stats st with
            | Some s => (Ok (Some s), st)
            | None =>
                let s := mc_stats (computed st) chain in
                (Ok (Some s),
                 {| mc_chains := mc_chains st; _stats := Some s;
                    _stats_chain := Some i_chain;
                    computed := S (computed st) |})
            end
          else (Ok None, st)
      | None =>
          let s := mc_stats (computed st) chain in
          (Ok (Some s),
           {| mc_chains := mc_chains st; _stats := Some s;
              _stats_chain := Some i_chain; computed := S (computed st) |})
      end
  end.
End Stats.

(** ** [Parameter.get_full_name] *)

(** Lines 71-81: the name, then the tag when there is one, then the
    index when there is one, printed with [%s%s%i]. *)
Definition get_full_name (name : string) (tag : option string)
    (idx : option Z) : string :=
  match idx with
  | Some i =>
      match tag with
      | Some t => name +:+ t +:+ pretty i
      | None => name +:+ pretty i
      end
  | None =>
      match tag with
      | Some t => name +:+ t
      | None => name
      end
  end.

(** ** The group, variability and subject tiers *)

Definition set_group_nodes (f : gmap string pyobj → gmap string pyobj)
    (p : Param) : Param :=
  {| name := name p;
     create_group_node := create_group_node p;
     create_subj_nodes := create_subj_nodes p;
     is_bottom_node := is_bottom_node p;
     optional := optional p;
     group_nodes := f (group_nodes p);
     var_nodes := var_nodes p;
     subj_nodes := subj_nodes p |}.

Definition set_var_nodes (f : gmap string pyobj → gmap string pyobj)
    (p : Param) : Param :=
  {| name := name p;
     create_group_node := create_group_node p;
     create_subj_nodes := create_subj_nodes p;
     is_bottom_node := is_bottom_node p;
     optional := optional p;
     group_nodes := group_nodes p;
     var_nodes := f (var_nodes p);
     subj_nodes := subj_nodes p |}.

Section Tiers.
Variable str_element : key → string.
(** The backend's [get_group_node(param)], reading [param] with
    [param.tag] and [param.data] set ([data] is [None] for a parameter
    that depends on nothing). *)
Variable get_group_node : Param → string → option recarray → result node.
(** [get_var_node(param)], with [param.tag] and [param.data]. *)
Variable get_var_node : Param → string → recarray → result node.
(** [get_subj_node(param)], with [param.group], [param.var], [param.tag],
    [param.idx] and [param.data]. *)
Variable get_subj_node :
  Param → pyobj → pyobj → string → nat → recarray → result node.
Variable self : Hierarchical.

(** Lines 548-556, from subject position [subj_idx] on. *)
Fixpoint subj_nodes_loop (tag : string) (data : recarray) (subjs : list cell)
    (subj_idx : nat) (param : Param) : result Param :=
  match subjs with
  | [] => Ok param
  | subj :: subjs' =>
      _ ← getitem_col data "subj_idx";
      let data_subj := rows_of_subj data subj in
      group ← dict_getitem (group_nodes param) tag;
      var ← dict_getitem (var_nodes param) tag;
      nd ← get_subj_node param group var tag subj_idx data_subj;
      a ← dict_getitem (subj_nodes param) tag;
      a' ← py_setitem a subj_idx (PyNode nd);
      subj_nodes_loop tag data subjs' (S subj_idx)
        (set_subj_nodes (<[tag := a']>) param)
  end.

(** Lines 526-558. *)
Definition _set_subj_nodes (param : Param) (tag : string) (data : recarray)
  : result Param :=
  var ← get_var_node param ("var" +:+ tag) data;
  let param1 := set_var_nodes (<[tag := PyNode var]>) param in
  let param2 :=
    set_subj_nodes (<[tag := PyArray (replicate (_num_subjs self) PyNone)]>)
      param1 in
  subj_nodes_loop tag data (_subjs self) 0 param2.

(** Lines 484-502, the loop over the unique elements. *)
Fixpoint dependent_loop (cols : list string) (uniq_data_dep : list key)
    (param : Param) : result Param :=
  match uniq_data_dep with
  | [] => Ok param
  | uniq_date :: rest =>
      let data_dep_select := rows_equal (data self) cols uniq_date in
      let tag := str_element uniq_date in
      param1 ←
        (if create_group_node param then
           nd ← get_group_node param tag (Some data_dep_select);
           Ok (set_group_nodes (<[tag := PyNode nd]>) param)
         else Ok (set_group_nodes (<[tag := PyNone]>) param));
      param2 ←
        (if is_group_model self && create_subj_nodes param1
         then _set_subj_nodes param1 tag data_dep_select
         else Ok param1);
      dependent_loop cols rest param2
  end.

(** Lines 466-504. *)
Definition _set_dependent_param (param : Param) : result Param :=
  cols ← od_getitem (depends_on self) (name param);
  data_dep ← getitem_cols (data self) cols;
  dependent_loop cols (np_unique_keys data_dep) param.

(** Lines 506-524.  The group node is built whatever
    [create_group_node] says. *)
Definition _set_independet_param (param : Param) : result Param :=
  nd ← get_group_node param "" None;
  let param1 := set_group_nodes (<[ "" := PyNode nd ]>) param in
  if is_group_model self && create_subj_nodes param1
  then _set_subj_nodes param1 "" (data self)
  else Ok param1.

(** Lines 296-305, the inner [_create()] of [create_nodes]: every
    descriptor of [params_include] is filled in place, in order. *)
Fixpoint create_tiers (ps : ordered_params) : result ordered_params :=
  match ps with
  | [] => Ok []
  | (nm, param) :: ps' =>
      param' ←
        (if is_bottom_node param then Ok param
         else if bool_decide (nm ∈ (depends_on self).*1)
              then _set_dependent_param param
              else _set_independet_param param);
      rest ← create_tiers ps';
      Ok ((nm, param') :: rest)
  end.
End Tiers.

(** * Vocabulary of the properties *)

(** Every row has one cell per field. *)
Definition aligned (data : recarray) : Prop :=
  Forall (λ row, length row = length (dtype_names data)) (rows data).

(** The executions [k], ..., [k+n-1] of [_create()] all fail with an
    exception the loop of [create_nodes] catches. *)
Definition fails_caught (_create : nat → ordered_params → result ordered_params)
    (k n : nat) (ps : ordered_params) : Prop :=
  ∀ j, (j < n)%nat →
    ∃ e, _create (k + j)%nat ps = Raise e ∧ caught_by_create_nodes e = true.

(** The attempts [k], ..., [k+n-1] all fail with [ZeroProbability]. *)
Definition fails_zero_probability
    (attempt : nat → result (node_table * MAP)) (k n : nat) : Prop :=
  ∀ j, (j < n)%nat →
    ∃ e, attempt (k + j)%nat = Raise e ∧ is_ZeroProbability e = true.

Definition logp_le (a b : MAP) : Prop := (logp a ≤ logp b)%Z.

(** All rows of the emitted terminals, terminal after terminal. *)
Definition terminal_rows (ts : list terminal) : list (list cell) :=
  mjoin ((λ t, rows (terminal_data t)) <$> ts).

(** [enumerate(l)], counting from [i]. *)
Definition enumerate {A : Type} (i : nat) (l : list A) : list (nat * A) :=
  zip (seq i (length l)) l.

(** What the bottom parameter [pname] holds under [tag], and in slot [j]
    of the array it holds there. *)
Definition bottom_entry (ps : ordered_params) (pname tag : string)
  : option pyobj :=
  p ← od_lookup ps pname; subj_nodes p !! tag.

Definition bottom_slot (ps : ordered_params) (pname tag : string) (j : nat)
  : option pyobj :=
  match bottom_entry ps pname tag with
  | Some (PyArray a) => a !! j
  | _ => None
  end.

(** The node a call returned sits in the bottom parameter's [subj_nodes]
    under the call's tag: in the slot of the subject position when the
    call has one, as the entry itself otherwise. *)
Definition stored (ps : ordered_params) (pname : string) (c : bottom_call)
  : Prop :=
  match call_idx c with
  | Some j => bottom_slot ps pname (call_tag c) j = Some (PyNode (call_node c))
  | None => bottom_entry ps pname (call_tag c) = Some (PyNode (call_node c))
  end.

(** What identifies a call: the tag, the subject position and the data. *)
Definition call_key (c : bottom_call) : string * option nat * recarray :=
  (call_tag c, call_idx c, call_data c).

(** The subjects, with their positions, that have rows in [data]. *)
Definition subjects_with_rows (data : recarray) (i : nat) (subjs : list cell)
  : list (nat * cell) :=
  filter (λ js, len (rows_of_subj data js.2) ≠ 0%nat) (enumerate i subjs).

(** The calls a partition is expected to make: in a group model one per
    subject that has rows in it, with the subject's position and rows;
    otherwise one, with no position and all its rows. *)
Definition expected_calls (self : Hierarchical) (tag : string)
    (data : recarray) : list (string * option nat * recarray) :=
  if is_group_model self then
    (λ js : nat * cell, (tag, Some js.1, rows_of_subj data js.2))
      <$> subjects_with_rows data 0 (_subjs self)
  else [(tag, None, data)].

(** The tag under which the nodes of a terminal are stored. *)
Definition terminal_tag (str_path : list key → string) (t : terminal) : string :=
  str_path (terminal_dep_name t).

(** All the columns every entry of the caller's dictionary asks for are
    fields. *)
Definition columns_known (names : list string) (d : depends_dict) : Prop :=
  Forall (λ kv, Forall (λ c, c ∈ names) (cols_of (listify kv.2))) d.

(** The cells of [row] in the columns of each dependency are the
    elements of [path], dependency by dependency. *)
Fixpoint row_on_path (names : list string) (deps : list (string * list string))
    (path : list key) (row : list cell) : bool :=
  match deps, path with
  | [], [] => true
  | (_, cols) :: deps', k :: path' =>
      bool_decide (row_key names cols row = Some k)
      && row_on_path names deps' path' row
  | _, _ => false
  end.

(** A series of calls of [stats], each with its [chain] keyword: what
    they return, and the state they leave. *)
Fixpoint stats_calls {stats_obj : Type} (mc_stats : nat → option Z → stats_obj)
    (st : stats_state stats_obj) (chains : list (option Z))
  : list (result (option stats_obj)) * stats_state stats_obj :=
  match chains with
  | [] => ([], st)
  | chain :: rest =>
      let '(r, st1) := stats stats_obj mc_stats st chain in
      let '(rs, st2) := stats_calls mc_stats st1 rest in
      (r :: rs, st2)
  end.


(** Two states of one descriptor: the name and the flags agree. *)
Definition same_descriptor (param param' : Param) : Prop :=
  name param' = name param ∧
  create_group_node param' = create_group_node param ∧
  create_subj_nodes param' = create_subj_nodes param ∧
  is_bottom_node param' = is_bottom_node param ∧
  optional param' = optional param.

(** Under [tag] the descriptor holds a variability node and a subject
    array with a node in every one of its [_num_subjs] slots. *)
Definition subj_tier (self : Hierarchical) (param : Param) (tag : string)
  : Prop :=
  ∃ var a,
    var_nodes param !! tag = Some (PyNode var) ∧
    subj_nodes param !! tag = Some (PyArray a) ∧
    length a = _num_subjs self ∧
    Forall (λ o, ∃ nd, o = PyNode nd) a.

(** What [_set_dependent_param] leaves under the tag of an element: a
    group node, or [None] when the descriptor asks for no group node;
    and the subject tier, in a group model, when the descriptor asks
    for subject nodes. *)
Definition dependent_tier (self : Hierarchical) (param : Param) (tag : string)
  : Prop :=
  (∃ g, group_nodes param !! tag = Some g ∧
        if create_group_node param then ∃ nd, g = PyNode nd else g = PyNone) ∧
  (is_group_model self && create_subj_nodes param = true →
   subj_tier self param tag).

(** Every dependency names an included descriptor that is no bottom
    node. *)
Definition dependencies_included (self : Hierarchical) (ps : ordered_params)
  : Prop :=
  ∀ nm, nm ∈ (depends_on self).*1 →
    ∃ param, od_lookup ps nm = Some param ∧ is_bottom_node param = false.

(** Every descriptor is stored under its own name. *)
Definition keyed_by_name (ps : ordered_params) : Prop :=
  Forall (λ kv : string * Param, name kv.2 = kv.1) ps.

(** The test of line 316: [param.name in self.include or not
    param.optional]. *)
Definition is_included (include : list string) (param : Param) : bool :=
  bool_decide (name param ∈ include) || negb (optional param).

(** What the initialising pass stores under the tag of a partition:
    an array of empty slots, one per subject, in a group model when the
    descriptor asks for subject nodes; [None] otherwise. *)
Definition placeholder (self : Hierarchical) (param : Param) : pyobj :=
  if is_group_model self && create_subj_nodes param
  then PyArray (replicate (_num_subjs self) PyNone)
  else PyNone.




(** [ps2] differs from [ps1] in bottom descriptors only: what the
    passes over the bottom parameters can change. *)
Definition same_tiers (ps1 ps2 : ordered_params) : Prop :=
  Forall2 (λ kv1 kv2 : string * Param,
             kv2.1 = kv1.1 ∧
             (is_bottom_node kv2.2 = is_bottom_node kv1.2 ∧
              (is_bottom_node kv1.2 = false → kv2.2 = kv1.2)))
    ps1 ps2.

(** * A small experiment, used as a concrete input

    Two subjects and a condition column: subject 0 was tested under [a]
    and [b], subject 1 under [a] only. *)

Definition demo_table : recarray :=
  {| dtype_names := ["rt"; "response"; "subj_idx"; "cond"];
     rows := [ [CInt 11; CInt 1; CInt 0; CStr "a"];
               [CInt 12; CInt 0; CInt 0; CStr "b"];
               [CInt 13; CInt 1; CInt 1; CStr "a"];
               [CInt 14; CInt 1; CInt 1; CStr "a"] ] |}.

(** The object [Hierarchical(demo_table, depends_on={'v': 'cond'})]. *)
Definition demo_self : Hierarchical :=
  {| include := [];
     data := {| dtype_names := ["rt"; "response"; "subj_idx"; "cond"; "data_idx"];
                rows := [ [CInt 11; CInt 1; CInt 0; CStr "a"; CInt 0];
                          [CInt 12; CInt 0; CInt 0; CStr "b"; CInt 1];
                          [CInt 13; CInt 1; CInt 1; CStr "a"; CInt 2];
                          [CInt 14; CInt 1; CInt 1; CStr "a"; CInt 3] ] |};
     depends_on := [("v", ["cond"])];
     is_group_model := true;
     _subjs := [CInt 0; CInt 1] |}.

(** The object [Hierarchical(demo_table, depends_on={'v': []})]: a
    dependency with an empty list of columns. *)
Definition demo_no_column : Hierarchical :=
  {| include := include demo_self; data := data demo_self;
     depends_on := [("v", [])]; is_group_model := true;
     _subjs := _subjs demo_self |}.

(** The same experiment fitted without subject nodes. *)
Definition demo_flat : Hierarchical :=
  {| include := include demo_self; data := data demo_self;
     depends_on := depends_on demo_self; is_group_model := false;
     _subjs := [] |}.

(** A rendering of [str] on the tuples and tag paths of the experiment. *)
Definition demo_str_element (k : key) : string :=
  match k with
  | [CStr s] => "('" +:+ s +:+ "',)"
  | _ => "()"
  end.

Definition demo_str_path (ks : list key) : string :=
  "[" +:+ String.concat ", " (demo_str_element <$> ks) +:+ "]".

Definition demo_node (nm : string) (v : Z) : pyobj :=
  PyNode {| __name__ := nm; value := v; observed := false |}.

(** The descriptors as [_create()] leaves them: [v] depends on the
    condition, [a] on nothing, [wfpt] is the bottom parameter. *)
Definition demo_params_include : ordered_params :=
  [ ("v", {| name := "v"; create_group_node := true;
             create_subj_nodes := true; is_bottom_node := false;
             optional := false;
             group_nodes := {[ "('a',)" := demo_node "v('a',)" 1;
                               "('b',)" := demo_node "v('b',)" 2 ]};
             var_nodes := ∅;
             subj_nodes :=
               {[ "('a',)" := PyArray [demo_node "v('a',)0" 3;
                                       demo_node "v('a',)1" 4];
                  "('b',)" := PyArray [demo_node "v('b',)0" 5;
                                       demo_node "v('b',)1" 6] ]} |});
    ("a", {| name := "a"; create_group_node := true;
             create_subj_nodes := true; is_bottom_node := false;
             optional := false;
             group_nodes := {[ "" := demo_node "a" 7 ]};
             var_nodes := ∅;
             subj_nodes := {[ "" := PyArray [demo_node "a0" 8;
                                             demo_node "a1" 9] ]} |});
    ("wfpt", {| name := "wfpt"; create_group_node := false;
                create_subj_nodes := true; is_bottom_node := true;
                optional := false;
                group_nodes := ∅; var_nodes := ∅; subj_nodes := ∅ |}) ].

(** A backend that builds an observed node valued with the number of
    rows it was handed. *)
Definition demo_get_bottom_node (param : Param) (tag : string)
    (idx : option nat) (data : recarray) (params : gmap string pyobj)
  : result node :=
  Ok {| __name__ := name param +:+ tag; value := Z.of_nat (len data);
        observed := true |}.

(** The declared descriptors of the experiment. *)
Definition demo_params : list Param := snd <$> demo_params_include.

(** A [_create()] that fails with a bad starting value the first [n]
    times it is run and builds the descriptors of the experiment after
    that. *)
Definition demo_create (n : nat) (k : nat) (ps : ordered_params)
  : result ordered_params :=
  if (k <? n)%nat then Raise (ValueError "bad starting value")
  else Ok demo_params_include.

(** The node table of a fitted model: the group node of [v] at the
    value the fit found, and the observed bottom node. *)
Definition demo_graph (v : Z) : node_table :=
  {[ "v_group" :=
       PyNode {| __name__ := "v"; value := v; observed := false |};
     "wfpt_subj" :=
       PyNode {| __name__ := "wfpt"; value := 100; observed := true |} ]}.

(** The descriptors of the experiment when [create_nodes] returns:
    the tiers of [v] and [a], and the bottom nodes of [wfpt]. *)
Definition demo_built : ordered_params :=
  match (create_nodes demo_str_element demo_str_path demo_get_bottom_node
           (demo_create 0) demo_self default_retry demo_params 0).1 with
  | Ok (ps, _) => ps
  | Raise _ => []
  end.

(** An attempt on the group model of the experiment: the node table
    is the one [create_nodes] returns, and the fitted object holds that
    table. *)
Definition demo_group_attempt (k : nat) : result (node_table * MAP) :=
  Ok (nodes_of demo_built,
      {| logp := 10; _dict_container := nodes_of demo_built |}).

(** Attempts that fail with [ZeroProbability] the first [n] times and
    then fit, attempt [k] reaching the log-posterior [logps[k-n]] with
    [v] at [50 + k]. *)
Definition demo_attempt (n : nat) (logps : list Z) (k : nat)
  : result (node_table * MAP) :=
  if (k <? n)%nat then Raise (ZeroProbability (ArgMsg "bad starting value"))
  else Ok (demo_graph (50 + Z.of_nat k),
           {| logp := nth (k - n) logps 0%Z;
              _dict_container := demo_graph (50 + Z.of_nat k) |}).

(** The descriptors of the experiment as they are declared, before any
    node is built. *)
Definition demo_fresh (nm : string) (bottom : bool) : Param :=
  {| name := nm; create_group_node := negb bottom;
     create_subj_nodes := true; is_bottom_node := bottom;
     optional := false;
     group_nodes := ∅; var_nodes := ∅; subj_nodes := ∅ |}.

Definition demo_declared : ordered_params :=
  [ ("v", demo_fresh "v" false); ("a", demo_fresh "a" false);
    ("wfpt", demo_fresh "wfpt" true) ].

(** Backends for the tiers: every node is named after the parameter and
    the tag; a subject node is valued with the number of rows of its
    subject. *)
Definition demo_get_group_node (param : Param) (tag : string)
    (data : option recarray) : result node :=
  Ok {| __name__ := name param +:+ tag; value := 0; observed := false |}.

Definition demo_get_var_node (param : Param) (tag : string) (data : recarray)
  : result node :=
  Ok {| __name__ := name param +:+ tag; value := 1; observed := false |}.

Definition demo_get_subj_node (param : Param) (group var : pyobj)
    (tag : string) (idx : nat) (data : recarray) : result node :=
  Ok {| __name__ := name param +:+ tag +:+ pretty idx;
        value := Z.of_nat (len data); observed := false |}.

(** Attempts that fail with [ZeroProbability] the first [n] times and
    with a [KeyError] after that. *)
Definition demo_attempt_broken (n : nat) (k : nat)
  : result (node_table * MAP) :=
  if (k <? n)%nat then Raise (ZeroProbability (ArgMsg "bad starting value"))
  else Raise (KeyError "v_group").

(** A [_create()] that fails with a bad starting value the first [n]
    times and with a [KeyError] after that. *)
Definition demo_create_broken (n : nat) (k : nat) (ps : ordered_params)
  : result ordered_params :=
  if (k <? n)%nat then Raise (ValueError "bad starting value")
  else Raise (KeyError "v").

(** A sampler with two chains whose statistics of chain 0 are cached. *)
Definition demo_stats_state : stats_state Z :=
  {| mc_chains := Some 2%Z; _stats := Some 7%Z; _stats_chain := Some 0%Z;
     computed := 1 |}.


(** * Properties *)

Lemma bind_Ok {A B} (c : result A) (k : A → result B) (b : B) :
  c ≫= k = Ok b → ∃ a, c = Ok a ∧ k a = Ok b.
Proof. destruct c as [a|e]; simpl; [eauto | discriminate]. Qed.

Lemma bind_Ok_l {A B} (c : result A) (k : A → result B) (a : A) :
  c = Ok a → c ≫= k = k a.
Proof. by intros ->. Qed.

(** Invert every monadic bind that is known to have returned. *)
Ltac inv_bind :=
  repeat match goal with
  | H : Ok _ = Ok _ |- _ => injection H as H; try subst
  | H : Raise _ = Ok _ |- _ => discriminate H
  | H : mret _ = Ok _ |- _ => injection H as H; try subst
  | H : _ ≫= _ = Ok _ |- _ =>
      let a := fresh "a" in
      let Ha := fresh "Ha" in
      apply bind_Ok in H as (a & Ha & H)
  end.


(** ** The synthetic row index *)

Lemma field_index_app_fresh (names : list string) (col : string) :
  col ∉ names → field_index (names ++ [col]) col = Some (length names).
Proof.
  induction names as [|n names IH]; simpl; intros Hn.
  - by rewrite decide_True.
  - apply not_elem_of_cons in Hn as [Hne Hn].
    rewrite decide_False by done. by rewrite IH.
Qed.

Lemma field_index_lt (names : list string) (col : string) (i : nat) :
  field_index names col = Some i → (i < length names)%nat.
Proof.
  revert i. induction names as [|n names IH]; simpl; intros i; [done|].
  case_decide.
  - intros [= <-]. lia.
  - destruct (field_index names col) as [j|]; simpl; [|done].
    intros [= <-]. specialize (IH j eq_refl). lia.
Qed.

Lemma field_index_app_old (names : list string) (extra col : string) (i : nat) :
  field_index names col = Some i → field_index (names ++ [extra]) col = Some i.
Proof.
  revert i. induction names as [|n names IH]; simpl; intros i; [done|].
  case_decide; [done|].
  destruct (field_index names col) as [j|]; simpl; [|done].
  intros [= <-]. by rewrite (IH j).
Qed.

Lemma np_arange_lookup (n i : nat) :
  (i < n)%nat → np_arange n !! i = Some (CInt (Z.of_nat i)).
Proof.
  intros Hi. unfold np_arange. rewrite list_lookup_fmap.
  by rewrite lookup_seq_lt.
Qed.

Lemma np_arange_length (n : nat) : length (np_arange n) = n.
Proof. unfold np_arange. by rewrite length_fmap, length_seq. Qed.

Lemma add_data_idx_rows (data new_data : recarray) :
  add_data_idx data = Ok new_data →
  dtype_names new_data = dtype_names data ++ ["data_idx"] ∧
  length (rows new_data) = length (rows data) ∧
  ∀ i row, rows data !! i = Some row →
           rows new_data !! i = Some (row ++ [CInt (Z.of_nat i)]).
Proof.
  unfold add_data_idx. case_decide; [done|]. intros [= <-]. simpl.
  split; [done|]. split.
  - rewrite length_zip_with, np_arange_length. unfold len. lia.
  - intros i row Hrow. rewrite lookup_zip_with, Hrow. simpl.
    rewrite np_arange_lookup; [done|].
    unfold len. by eapply lookup_lt_Some.
Qed.

Lemma mapM_lookup_all {A B : Type} (f : A → option B) (l : list A) (k : list B) :
  length k = length l →
  (∀ i x, l !! i = Some x → ∃ y, f x = Some y ∧ k !! i = Some y) →
  mapM f l = Some k.
Proof.
  intros Hlen Hall. apply mapM_Some. apply Forall2_same_length_lookup.
  split; [done|]. intros i x y Hx Hy.
  destruct (Hall i x Hx) as (y' & Hf & Hy'). congruence.
Qed.

(** The column [data_idx] of the augmented table is [0, 1, ..., n-1]. *)
Lemma add_data_idx_column (data new_data : recarray) :
  aligned data →
  add_data_idx data = Ok new_data →
  getitem_col new_data "data_idx" = Ok (np_arange (len data)).
Proof.
  intros Hal Hadd.
  assert (Hfresh : "data_idx" ∉ dtype_names data).
  { unfold add_data_idx in Hadd. by case_decide. }
  destruct (add_data_idx_rows _ _ Hadd) as (Hnames & Hlen & Hrows).
  unfold getitem_col.
  erewrite mapM_lookup_all; [done| |].
  - rewrite np_arange_length. unfold len. lia.
  - intros i row' Hrow'.
    assert (Hi : (i < length (rows data))%nat).
    { rewrite <- Hlen. by eapply lookup_lt_Some. }
    destruct (lookup_lt_is_Some_2 _ _ Hi) as [row Hrow].
    rewrite (Hrows _ _ Hrow) in Hrow'. injection Hrow' as <-.
    exists (CInt (Z.of_nat i)). split.
    + unfold row_field. rewrite Hnames, field_index_app_fresh by done. simpl.
      unfold aligned in Hal. rewrite Forall_lookup in Hal.
      rewrite <- (Hal _ _ Hrow).
      by rewrite lookup_app_r, Nat.sub_diag by lia.
    + by apply np_arange_lookup.
Qed.

(** The constructor hands the augmented table to whatever it returns. *)
Lemma init_data (data0 : recarray) igm deps inc (self : Hierarchical) :
  (__init__ data0 igm deps inc).2 = Ok self →
  add_data_idx data0 = Ok (data self).
Proof.
  unfold __init__. destruct (add_data_idx data0) as [new_data|e]; [|done].
  unfold init_after_data_idx.
  assert (Hfin : ∀ d, (g ← decide_group_model new_data igm;
            subjs ← (if g then c ← getitem_col new_data "subj_idx";
                                Ok (np_unique c) else Ok []);
            Ok {| include := inc; data := new_data; depends_on := d;
                  is_group_model := g; _subjs := subjs |}) = Ok self →
          Ok new_data = Ok (data self)).
  { intros d H. inv_bind. done. }
  destruct deps as [[|entry d]|]; simpl; intros H.
  - by eapply Hfin.
  - apply bind_Ok in H as (? & _ & H). by eapply Hfin.
  - by eapply Hfin.
Qed.

(** C9.  A table without a field [data_idx] gets one appended whose
    cells are 0, 1, ..., n-1 in the order of the rows (row [i] gets the
    cell [i], so the column is zero-based and strictly increasing and is
    the same every time the same table is handed in); the other cells
    are kept, and this augmented table is the one the constructed object
    holds.  A table that already has a field [data_idx] is refused with
    an assertion failure, whatever the other arguments are. *)
Theorem data_idx_injected (data0 : recarray) (igm : option bool)
    (deps : option depends_dict) (inc : list string) :
  aligned data0 →
  ("data_idx" ∉ dtype_names data0 →
     ∃ new_data,
       add_data_idx data0 = Ok new_data ∧
       dtype_names new_data = dtype_names data0 ++ ["data_idx"] ∧
       length (rows new_data) = length (rows data0) ∧
       (∀ i row, rows data0 !! i = Some row →
           rows new_data !! i = Some (row ++ [CInt (Z.of_nat i)])) ∧
       getitem_col new_data "data_idx" = Ok (np_arange (len data0)) ∧
       (∀ i, (i < len data0)%nat →
           np_arange (len data0) !! i = Some (CInt (Z.of_nat i))) ∧
       (∀ self, (__init__ data0 igm deps inc).2 = Ok self →
           data self = new_data)) ∧
  ("data_idx" ∈ dtype_names data0 →
     ∃ msg, (__init__ data0 igm deps inc).2 = Raise (AssertionError msg) ∧
            (__init__ data0 igm deps inc).1 = deps).
Proof.
  intros Hal. split.
  - intros Hfresh.
    assert (Hadd : ∃ new_data, add_data_idx data0 = Ok new_data).
    { unfold add_data_idx. rewrite decide_False by done. eauto. }
    destruct Hadd as [new_data Hadd]. exists new_data.
    destruct (add_data_idx_rows _ _ Hadd) as (Hnames & Hlen & Hrows).
    repeat split; try done.
    + by apply add_data_idx_column.
    + intros i Hi. by apply np_arange_lookup.
    + intros self Hself. apply init_data in Hself. congruence.
  - intros Hin. unfold __init__, add_data_idx.
    rewrite decide_True by done. eauto.
Qed.

(** ** The caller's [depends_on] dictionary *)

Lemma listify_lookup (d : depends_dict) (i : nat) (k : string) (v : dep_cols) :
  d !! i = Some (k, v) → listify_depends_on d !! i = Some (k, listify v).
Proof.
  intros H. unfold listify_depends_on. by rewrite list_lookup_fmap, H.
Qed.

Lemma init_caller_dict (data0 : recarray) igm (d : depends_dict) inc :
  "data_idx" ∉ dtype_names data0 →
  (__init__ data0 igm (Some d) inc).1 = Some (listify_depends_on d).
Proof.
  intros Hfresh. unfold __init__, add_data_idx.
  rewrite decide_False by done. unfold init_after_data_idx.
  by destruct d.
Qed.

(** C10, as the code has it.  When the table passes the [data_idx]
    assertion, the dictionary the caller handed in is changed in place:
    an entry that held the plain string [s] holds the one-element list
    [[s]] once the constructor is left, whether it returned or raised,
    every entry that held a list holds the same list, and the dictionary
    the object keeps is that same dictionary. *)
Theorem depends_on_mutated_in_place (data0 : recarray) (igm : option bool)
    (d : depends_dict) (inc : list string) (i : nat) (k s : string) :
  "data_idx" ∉ dtype_names data0 →
  d !! i = Some (k, DepStr s) →
  ∃ d', (__init__ data0 igm (Some d) inc).1 = Some d' ∧
        d' !! i = Some (k, DepList [s]) ∧
        d' ≠ d ∧
        length d' = length d ∧
        (∀ j k' l, d !! j = Some (k', DepList l) →
                   d' !! j = Some (k', DepList l)) ∧
        (∀ self, (__init__ data0 igm (Some d) inc).2 = Ok self →
                 depends_on self = prod_map id cols_of <$> d').
Proof.
  intros Hfresh Hi. exists (listify_depends_on d).
  split; [by apply init_caller_dict|].
  split; [by apply (listify_lookup d i k (DepStr s))|].
  split.
  { intros Heq. apply (listify_lookup d i k (DepStr s)) in Hi as Hi'.
    rewrite Heq, Hi in Hi'. done. }
  split; [unfold listify_depends_on; by rewrite length_fmap|].
  split; [intros j k' l Hj; by apply (listify_lookup d j k' (DepList l))|].
  intros self. unfold __init__, add_data_idx.
  rewrite decide_False by done. unfold init_after_data_idx.
  destruct d as [|entry d]; [done|]. simpl.
  intros H. inv_bind. done.
Qed.

(** C10 as stated fails: a table that already has a field [data_idx] is
    refused before [depends_on] is touched, and the caller's dictionary
    still holds the plain string. *)
Lemma depends_on_mutated_in_place_counterexample :
  ¬ (∀ (data0 : recarray) (igm : option bool) (d : depends_dict)
       (inc : list string) (i : nat) (k s : string),
       d !! i = Some (k, DepStr s) →
       ∃ d', (__init__ data0 igm (Some d) inc).1 = Some d' ∧
             d' !! i = Some (k, DepList [s])).
Proof.
  intros H.
  destruct (H {| dtype_names := ["rt"; "data_idx"]; rows := [] |} None
              [("v", DepStr "cond")] [] 0%nat "v" "cond" eq_refl)
    as (d' & Hd' & Hi).
  vm_compute in Hd'. injection Hd' as <-. discriminate Hi.
Qed.

(** ** The retry loop of [create_nodes] *)

Lemma raise_ZeroProbability_reason (e : exn) :
  reason (raise_ZeroProbability e) = reason e.
Proof. unfold raise_ZeroProbability. by destruct e. Qed.

Lemma raise_ZeroProbability_class (e : exn) :
  is_ZeroProbability (raise_ZeroProbability e) = true.
Proof. unfold raise_ZeroProbability. by destruct e. Qed.

Section CreateNodesFacts.
Variable str_element : key → string.
Variable str_path : list key → string.
Variable get_bottom_node :
  Param → string → option nat → recarray → gmap string pyobj → result node.
Variable _create : nat → ordered_params → result ordered_params.
Variable self : Hierarchical.

Lemma fails_caught_S (k n : nat) (ps : ordered_params) :
  fails_caught _create k (S n) ps →
  (∃ e, _create k ps = Raise e ∧ caught_by_create_nodes e = true) ∧
  fails_caught _create (S k) n ps.
Proof.
  intros H. split.
  - destruct (H 0%nat) as (e & He & Hc); [lia|].
    rewrite Nat.add_0_r in He. eauto.
  - intros j Hj. destruct (H (S j)) as (e & He & Hc); [lia|].
    replace (S k + j)%nat with (k + S j)%nat by lia. eauto.
Qed.

(** After [n] caught failures, with [n] within the bound, the loop
    is exactly as far as the execution number [k+n]. *)
Lemma create_retry_skip (remaining k n : nat) (ps : ordered_params) :
  (n ≤ remaining)%nat →
  fails_caught _create k n ps →
  create_retry _create remaining k ps =
  create_retry _create (remaining - n) (k + n) ps.
Proof.
  revert remaining k. induction n as [|n IH]; intros remaining k Hle Hf.
  - by rewrite Nat.sub_0_r, Nat.add_0_r.
  - apply fails_caught_S in Hf as [(e & He & Hc) Hf].
    destruct remaining as [|remaining]; [lia|]. simpl.
    rewrite He, Hc. rewrite IH by (done || lia).
    by replace (S k + n)%nat with (k + S n)%nat by lia.
Qed.

(** C4.  [create_nodes(retry)] runs [_create()] again after every
    failure that is a [ZeroProbability] or a [ValueError], as long as
    fewer than [retry] retries have been made.  After [n] such failures
    in a row, with [n] at most [retry]: if the next execution succeeds,
    construction goes on with its descriptors and [_create()] has run
    [n+1] times; if it fails with a caught exception and [n] is the
    bound, nothing more is tried and the caller gets a
    [ZeroProbability] that is that exception or carries it as its
    argument, with the same reason; if it fails with any other
    exception, this one reaches the caller unchanged and nothing more
    is tried. *)
Theorem create_nodes_bounded_retry (retry : Z) (params : list Param)
    (k n : nat) :
  let ps0 := select_params_include (include self) params in
  let run := create_nodes str_element str_path get_bottom_node _create self
               retry params k in
  (n ≤ Z.to_nat retry)%nat →
  fails_caught _create k n ps0 →
  match _create (k + n)%nat ps0 with
  | Ok ps =>
      run = (ps1 ← bottom_pass str_element str_path get_bottom_node self
                      true ps.*1 ps;
             bottom_pass str_element str_path get_bottom_node self
                      false ps1.1.*1 ps1.1,
             S (k + n))
  | Raise e =>
      if caught_by_create_nodes e then
        n = Z.to_nat retry →
        run = (Raise (raise_ZeroProbability e), S (k + n)) ∧
        reason (raise_ZeroProbability e) = reason e ∧
        is_ZeroProbability (raise_ZeroProbability e) = true
      else run = (Raise e, S (k + n))
  end.
Proof.
  intros ps0 run Hle Hf. subst run. unfold create_nodes. fold ps0.
  rewrite (create_retry_skip _ k n ps0 Hle Hf).
  destruct (_create (k + n)%nat ps0) as [ps|e] eqn:Hc.
  - destruct (Z.to_nat retry - n)%nat; simpl; by rewrite Hc.
  - destruct (caught_by_create_nodes e) eqn:He.
    + intros ->. rewrite Nat.sub_diag. simpl. rewrite Hc, He.
      auto using raise_ZeroProbability_reason, raise_ZeroProbability_class.
    + destruct (Z.to_nat retry - n)%nat; simpl; by rewrite Hc, He.
Qed.
End CreateNodesFacts.

(** ** The retry loop of one MAP run *)

Section MapRunFacts.
Variable attempt : nat → result (node_table * MAP).

Lemma fails_zero_probability_S (k n : nat) :
  fails_zero_probability attempt k (S n) →
  (∃ e, attempt k = Raise e ∧ is_ZeroProbability e = true) ∧
  fails_zero_probability attempt (S k) n.
Proof.
  intros H. split.
  - destruct (H 0%nat) as (e & He & Hc); [lia|].
    rewrite Nat.add_0_r in He. eauto.
  - intros j Hj. destruct (H (S j)) as (e & He & Hc); [lia|].
    replace (S k + j)%nat with (k + S j)%nat by lia. eauto.
Qed.

Lemma map_run_eq (remaining k : nat) :
  map_run attempt remaining k =
  match attempt k with
  | Ok r => (Ok r, S k)
  | Raise e =>
      if is_ZeroProbability e then
        match remaining with
        | S (S _ as remaining') => map_run attempt remaining' (S k)
        | _ => (Raise e, S k)
        end
      else (Raise e, S k)
  end.
Proof. by destruct remaining. Qed.

(** A bound of zero behaves as a bound of one: the first attempt is
    always made and its failure is final. *)
Lemma map_run_0 (k : nat) : map_run attempt 0 k = map_run attempt 1 k.
Proof. done. Qed.

Lemma map_run_max (M k : nat) :
  map_run attempt M k = map_run attempt (Nat.max 1 M) k.
Proof. destruct M as [|M]; [apply map_run_0|]. by rewrite Nat.max_r by lia. Qed.

Lemma map_run_skip (remaining k n : nat) :
  (n < remaining)%nat →
  fails_zero_probability attempt k n →
  map_run attempt remaining k = map_run attempt (remaining - n) (k + n).
Proof.
  revert remaining k. induction n as [|n IH]; intros remaining k Hlt Hf.
  - by rewrite Nat.sub_0_r, Nat.add_0_r.
  - apply fails_zero_probability_S in Hf as [(e & He & Hc) Hf].
    destruct remaining as [|[|remaining]]; [lia|lia|].
    rewrite map_run_eq, He, Hc.
    rewrite (IH (S remaining) (S k)) by (done || lia).
    by replace (S k + n)%nat with (k + S n)%nat by lia.
Qed.

(** A run that raises ends the whole loop over the runs with the same
    exception. *)
Lemma map_runs_raise (runs' : nat) (max_retry : Z) (k k' : nat) (e : exn)
    (live : node_table) (maps : list MAP) :
  map_run attempt (Z.to_nat max_retry) k = (Raise e, k') →
  map_runs attempt (S runs') max_retry k live maps = (Raise e, k').
Proof. intros H. simpl. by rewrite H. Qed.

(** C7, as the code has it.  Let the attempts of a run fail with
    [ZeroProbability] exactly [N] times and then succeed.  The run
    succeeds (with the result of attempt [N]) if and only if [N = 0] or
    [N < max_retry]; otherwise it stops after [max(1, max_retry)]
    attempts and the exception of the last of these, unchanged, ends
    the run, the loop over the runs, and [map] itself when the run is
    its first one. *)
Theorem map_run_retry_bound (max_retry : Z) (N k : nat)
    (r : node_table * MAP) :
  fails_zero_probability attempt k N →
  attempt (k + N) = Ok r →
  let m := Nat.max 1 (Z.to_nat max_retry) in
  ((N < m)%nat ↔ N = 0%nat ∨ (Z.of_nat N < max_retry)%Z) ∧
  ((N < m)%nat →
     map_run attempt (Z.to_nat max_retry) k = (Ok r, S (k + N))) ∧
  (¬ (N < m)%nat →
     ∃ e, attempt (k + (m - 1)) = Raise e ∧
          is_ZeroProbability e = true ∧
          map_run attempt (Z.to_nat max_retry) k = (Raise e, (k + m)%nat) ∧
          (∀ runs' live maps,
             map_runs attempt (S runs') max_retry k live maps
             = (Raise e, (k + m)%nat)) ∧
          (k = 0%nat → ∀ runs warn_crit live0,
             (1 ≤ runs)%Z →
             map attempt runs max_retry warn_crit live0 = (Raise e, m))).
Proof.
  intros Hf Hok m. split; [subst m; lia|]. split.
  - intros Hlt. rewrite map_run_max. fold m.
    rewrite (map_run_skip m k N Hlt Hf).
    by rewrite map_run_eq, Hok.
  - intros Hge.
    assert (Hm : (m - 1 < N)%nat) by (subst m; lia).
    destruct (Hf (m - 1)%nat Hm) as (e & He & Hc).
    assert (Hrun : map_run attempt (Z.to_nat max_retry) k
                   = (Raise e, (k + m)%nat)).
    { rewrite map_run_max. fold m.
      rewrite (map_run_skip m k (m - 1)) by
        (try (subst m; lia); intros j Hj; apply Hf; lia).
      replace (m - (m - 1))%nat with 1%nat by (subst m; lia).
      rewrite map_run_eq, He, Hc. f_equal. subst m. lia. }
    exists e. repeat split; try done.
    + intros runs' live maps. by apply map_runs_raise.
    + intros -> runs warn_crit live0 Hruns. unfold map.
      destruct (Z.to_nat runs) as [|runs'] eqn:E; [lia|].
      by rewrite (map_runs_raise runs' max_retry 0 (0 + m) e live0 []).
Qed.
End MapRunFacts.

(** C7 as stated fails for a bound of zero: with [max_retry = 0] and a
    backend that never fails ([N = 0]) the run succeeds, although [0 < 0]
    does not hold. *)
Lemma map_run_retry_bound_counterexample :
  ¬ (∀ (attempt : nat → result (node_table * MAP)) (max_retry : Z)
       (N k : nat) (r : node_table * MAP),
       fails_zero_probability attempt k N →
       attempt (k + N)%nat = Ok r →
       ((∃ k', map_run attempt (Z.to_nat max_retry) k = (Ok r, k'))
        ↔ (Z.of_nat N < max_retry)%Z)).
Proof.
  intros H.
  set (r := (∅, {| logp := 0; _dict_container := ∅ |})
            : node_table * MAP).
  destruct (H (λ _, Ok r) 0%Z 0%nat 0%nat r) as [Hsucc _].
  - intros j Hj. lia.
  - done.
  - assert (Hlt : (Z.of_nat 0 < 0)%Z) by (apply Hsucc; by exists 1%nat).
    lia.
Qed.

(** ** The choice of the best fit *)

Lemma insert_by_logp_perm (m : MAP) (l : list MAP) :
  insert_by_logp m l ≡ₚ m :: l.
Proof.
  induction l as [|m' l IH]; simpl; [done|].
  case_match; [done|]. rewrite IH. apply Permutation_swap.
Qed.

Lemma sorted_by_logp_perm (maps : list MAP) : sorted_by_logp maps ≡ₚ maps.
Proof.
  induction maps as [|m maps IH]; simpl; [done|].
  by rewrite insert_by_logp_perm, IH.
Qed.

Lemma insert_by_logp_sorted (m : MAP) (l : list MAP) :
  StronglySorted logp_le l → StronglySorted logp_le (insert_by_logp m l).
Proof.
  induction 1 as [|m' l Hs IH Hall]; simpl.
  - repeat constructor.
  - destruct (logp m <=? logp m')%Z eqn:E.
    + apply Z.leb_le in E. constructor; [by constructor|].
      constructor; [done|].
      eapply Forall_impl; [exact Hall|]. unfold logp_le. simpl. lia.
    + apply Z.leb_gt in E. constructor; [done|].
      rewrite insert_by_logp_perm. constructor; [|done].
      unfold logp_le. lia.
Qed.

Lemma sorted_by_logp_sorted (maps : list MAP) :
  StronglySorted logp_le (sorted_by_logp maps).
Proof.
  induction maps as [|m maps IH]; simpl; [constructor|].
  by apply insert_by_logp_sorted.
Qed.

Lemma sorted_by_logp_length (maps : list MAP) :
  length (sorted_by_logp maps) = length maps.
Proof. by rewrite sorted_by_logp_perm. Qed.

(** A list with at least one element ends in its last element, one with
    at least two in its last two. *)
Lemma list_snoc_1 {A : Type} (l : list A) :
  (1 ≤ length l)%nat → ∃ pre x, l = pre ++ [x].
Proof.
  destruct l as [|a l] using rev_ind; simpl; [lia|]. eauto.
Qed.

Lemma list_snoc_2 {A : Type} (l : list A) :
  (2 ≤ length l)%nat → ∃ pre y x, l = pre ++ [y; x].
Proof.
  destruct l as [|x l _] using rev_ind; simpl; [lia|].
  rewrite length_app. simpl. intros Hl.
  destruct (list_snoc_1 l) as (pre & y & ->); [lia|].
  exists pre, y, x. by rewrite <- app_assoc.
Qed.

Lemma second_last_item_snoc {A : Type} (pre : list A) (y x : A) :
  second_last_item (pre ++ [y; x]) = Ok y.
Proof.
  unfold second_last_item.
  by rewrite reverse_app.
Qed.

Lemma last_item_snoc {A : Type} (pre : list A) (x : A) :
  last_item (pre ++ [x]) = Ok x.
Proof. unfold last_item. by rewrite last_snoc. Qed.

Section MapSelectFacts.
Variable attempt : nat → result (node_table * MAP).

Lemma map_runs_length (runs : nat) (max_retry : Z) (k k' : nat)
    (live live' : node_table) (maps maps' : list MAP) :
  map_runs attempt runs max_retry k live maps = (Ok (live', maps'), k') →
  length maps' = (length maps + runs)%nat.
Proof.
  revert k live maps. induction runs as [|runs IH]; intros k live maps; simpl.
  - intros [= -> ->]. lia.
  - destruct (map_run attempt (Z.to_nat max_retry) k) as [[[l m]|e] k1];
      [|done].
    intros H. apply IH in H. rewrite length_app in H. simpl in H. lia.
Qed.

(** C5.  When all [runs] runs have succeeded (at least one run), the
    fit [map] selects is one of them and no fit has a higher
    log-posterior; with fewer than two runs nothing is printed; with
    two or more, the fits are the selected one, a second-best one and
    others that are no better than the second-best, and a warning is
    printed if and only if the log-posteriors of the best and the
    second-best differ by more than [warn_crit].  Printing does not
    abort: what remains of [map] is the copying of the values. *)
Theorem map_selects_best (runs max_retry warn_crit : Z)
    (live0 live : node_table) (maps : list MAP) (k : nat) :
  map_runs attempt (Z.to_nat runs) max_retry 0 live0 [] = (Ok (live, maps), k) →
  (1 ≤ runs)%Z →
  ∃ best printed,
    map_choose runs warn_crit maps = Ok (best, printed) ∧
    length maps = Z.to_nat runs ∧
    best ∈ maps ∧
    (∀ m, m ∈ maps → (logp m ≤ logp best)%Z) ∧
    ((runs < 2)%Z → printed = []) ∧
    ((2 ≤ runs)%Z →
       ∃ second rest,
         maps ≡ₚ rest ++ [second; best] ∧
         (∀ m, m ∈ rest → (logp m ≤ logp second)%Z) ∧
         (logp second ≤ logp best)%Z ∧
         (printed ≠ [] ↔ (warn_crit < Z.abs (logp best - logp second))%Z)) ∧
    map attempt runs max_retry warn_crit live0 =
      (live' ← set_values (map_to_list (_dict_container best)) live;
       Ok {| max_map := best; nodes := live'; warnings := printed |}, k).
Proof.
  intros Hruns Hpos.
  pose proof (map_runs_length _ _ _ _ _ _ _ _ Hruns) as Hlen. simpl in Hlen.
  pose proof (sorted_by_logp_perm maps) as Hperm.
  pose proof (sorted_by_logp_sorted maps) as Hsorted.
  pose proof (sorted_by_logp_length maps) as Hslen.
  destruct (decide (runs < 2)%Z) as [Hone|Htwo].
  - destruct (list_snoc_1 (sorted_by_logp maps)) as (pre & best & Hs);
      [lia|].
    exists best, [].
    assert (Hchoose : map_choose runs warn_crit maps = Ok (best, [])).
    { unfold map_choose. rewrite Hs, last_item_snoc. simpl.
      by rewrite (proj2 (Z.leb_gt 2 runs)) by lia. }
    split; [done|]. split; [done|].
    rewrite Hs in Hperm, Hsorted.
    split; [rewrite <- Hperm; set_solver|].
    split.
    { intros m Hm. rewrite <- Hperm in Hm.
      apply elem_of_app in Hm as [Hm|Hm].
      - apply (StronglySorted_app_1_elem_of _ _ _ _ _ Hsorted Hm). set_solver.
      - apply list_elem_of_singleton in Hm as ->. lia. }
    split; [done|]. split; [lia|].
    unfold map, map_select. by rewrite Hruns, Hchoose.
  - destruct (list_snoc_2 (sorted_by_logp maps)) as (pre & second & best & Hs);
      [lia|].
    set (abs_err := Z.abs (logp best - logp second)).
    exists best, (if (warn_crit <? abs_err)%Z then [abs_err] else []).
    assert (Hchoose : map_choose runs warn_crit maps
              = Ok (best, if (warn_crit <? abs_err)%Z then [abs_err] else [])).
    { unfold map_choose. rewrite Hs.
      replace (pre ++ [second; best]) with ((pre ++ [second]) ++ [best])
        by (by rewrite <- app_assoc).
      rewrite last_item_snoc. simpl.
      rewrite (proj2 (Z.leb_le 2 runs)) by lia.
      rewrite <- app_assoc. simpl. by rewrite second_last_item_snoc. }
    split; [done|]. split; [done|].
    rewrite Hs in Hperm, Hsorted.
    assert (Hsb : (logp second ≤ logp best)%Z).
    { apply (StronglySorted_app_1_r) in Hsorted.
      inversion Hsorted as [|? ? ? Hall]; subst.
      by inversion Hall; subst. }
    assert (Hrest : ∀ m, m ∈ pre → (logp m ≤ logp second)%Z).
    { intros m Hm.
      apply (StronglySorted_app_1_elem_of _ _ _ _ _ Hsorted Hm). set_solver. }
    split; [rewrite <- Hperm; set_solver|].
    split.
    { intros m Hm. rewrite <- Hperm in Hm.
      apply elem_of_app in Hm as [Hm|Hm].
      - specialize (Hrest m Hm). lia.
      - apply elem_of_cons in Hm as [->|Hm]; [done|].
        apply list_elem_of_singleton in Hm as ->. lia. }
    split; [lia|]. split.
    { intros _. exists second, pre. split; [done|]. split; [done|].
      split; [done|]. fold abs_err.
      destruct (warn_crit <? abs_err)%Z eqn:E.
      - apply Z.ltb_lt in E. split; [done|]. by intros _.
      - apply Z.ltb_ge in E. split; [done|]. lia. }
    unfold map, map_select. by rewrite Hruns, Hchoose.
Qed.
End MapSelectFacts.

(** The fits with log-posteriors 10, 7 and 12: the one with 12 is
    chosen, and the distance 2 to the second-best one is printed when it
    exceeds [warn_crit]. *)
Example map_choose_10_7_12 (c : node_table) (warn_crit : Z) :
  map_choose 3 warn_crit
    [ {| logp := 10; _dict_container := c |};
      {| logp := 7; _dict_container := c |};
      {| logp := 12; _dict_container := c |} ]
  = Ok ({| logp := 12; _dict_container := c |},
        if (warn_crit <? 2)%Z then [2%Z] else []).
Proof. reflexivity. Qed.

(** ** Copying the winner's values *)

Lemma set_values_spec (items : list (string * pyobj))
    (live live' : node_table) :
  NoDup items.*1 →
  set_values items live = Ok live' →
  (∀ nm o, (nm, o) ∈ items →
     ∃ nd, o = PyNode nd ∧
       (observed nd = false →
        ∃ l, live !! nm = Some (PyNode l) ∧
             live' !! nm = Some (PyNode (set_value (value nd) l)))) ∧
  (∀ nm, (∀ nd, (nm, PyNode nd) ∈ items → observed nd = true) →
     live' !! nm = live !! nm).
Proof.
  revert live. induction items as [|[nm0 o0] items IH]; intros live Hnd Hset.
  - simpl in Hset. injection Hset as <-. split; [|done].
    intros nm o Hin. by apply elem_of_nil in Hin.
  - simpl in Hnd. apply NoDup_cons in Hnd as [Hfresh Hnd].
    destruct o0 as [|nd0|a0]; [done| |done]. simpl in Hset.
    destruct (observed nd0) eqn:Hobs; simpl in Hset.
    + destruct (IH live Hnd Hset) as [IH1 IH2]. split.
      * intros nm o Hin. apply elem_of_cons in Hin as [[= -> ->]|Hin];
          [|by apply IH1].
        exists nd0. split; [done|]. congruence.
      * intros nm Hall. apply IH2. intros nd Hin. apply Hall. by right.
    + apply bind_Ok in Hset as (l0 & Hl0 & Hset).
      apply bind_Ok in Hset as (l1 & Hl1 & Hset).
      unfold dict_getitem in Hl0.
      destruct (live !! nm0) as [x0|] eqn:Hlive; [|done].
      injection Hl0 as ->.
      destruct l0 as [|l|a]; [done| |done]. injection Hl1 as <-.
      destruct (IH _ Hnd Hset) as [IH1 IH2]. split.
      * intros nm o Hin. apply elem_of_cons in Hin as [[= -> ->]|Hin].
        -- exists nd0. split; [done|]. intros _.
           exists l. split; [done|]. rewrite IH2.
           ++ by rewrite lookup_insert_eq.
           ++ intros nd Hin. exfalso. apply Hfresh.
              apply list_elem_of_fmap. by exists (nm0, PyNode nd).
        -- assert (nm ≠ nm0).
           { intros ->. apply Hfresh. apply list_elem_of_fmap.
             by exists (nm0, o). }
           destruct (IH1 nm o Hin) as (nd & -> & Hcopy).
           exists nd. split; [done|]. intros Hno.
           destruct (Hcopy Hno) as (l' & Hl & Hl').
           rewrite lookup_insert_ne in Hl by done. eauto.
      * intros nm Hall.
        assert (nm ≠ nm0).
        { intros ->. specialize (Hall nd0 ltac:(by left)). congruence. }
        rewrite IH2.
        -- by rewrite lookup_insert_ne.
        -- intros nd Hin. apply Hall. by right.
Qed.

Lemma set_values_total (items : list (string * pyobj)) (live : node_table) :
  (∀ nm o, (nm, o) ∈ items →
     ∃ nd, o = PyNode nd ∧
       (observed nd = false → ∃ l, live !! nm = Some (PyNode l))) →
  ∃ live', set_values items live = Ok live'.
Proof.
  revert live. induction items as [|[nm0 o0] items IH]; intros live Hall.
  - simpl. eauto.
  - destruct (Hall nm0 o0 ltac:(by left)) as (nd0 & -> & Hl0). simpl.
    destruct (observed nd0) eqn:Hobs; simpl.
    + apply IH. intros nm o Hin. apply Hall. by right.
    + destruct (Hl0 eq_refl) as [l0 Hlive].
      unfold dict_getitem. rewrite Hlive. simpl. apply IH.
      intros nm o Hin. destruct (Hall nm o ltac:(by right)) as (nd & -> & Hl).
      exists nd. split; [done|]. intros Hno. destruct (Hl Hno) as [l Hnm].
      destruct (decide (nm0 = nm)) as [->|Hne].
      * rewrite lookup_insert_eq. eauto.
      * rewrite lookup_insert_ne by done. eauto.
Qed.

(** An entry of the winner's container that is no node makes the
    copying raise, whatever the other entries are. *)
Lemma set_values_non_node (items : list (string * pyobj)) (live : node_table)
    (nm : string) (o : pyobj) :
  (nm, o) ∈ items → (∀ nd, o ≠ PyNode nd) →
  ∃ e, set_values items live = Raise e.
Proof.
  intros Hin Ho.
  destruct (set_values items live) as [live'|e] eqn:E; [|eauto].
  exfalso. revert live E.
  induction items as [|[nm0 o0] items IH]; intros live E;
    [by apply elem_of_nil in Hin|].
  apply elem_of_cons in Hin as [[= <- <-]|Hin].
  - destruct o as [|nd|a]; [done| |done]. by apply (Ho nd).
  - simpl in E. apply bind_Ok in E as (obs & _ & E).
    destruct (negb obs).
    + apply bind_Ok in E as (v & _ & E).
      apply bind_Ok in E as (l & _ & E).
      apply bind_Ok in E as (l' & _ & E). by apply (IH Hin _ E).
    + by apply (IH Hin _ E).
Qed.

Section MapCopyFacts.
Variable attempt : nat → result (node_table * MAP).

(** X25.  Let the runs have left the node table [live] and let [best]
    be the fit chosen among them; let every entry of its container be a
    node, every non-observed one with a node of its name in [live].  Then
    [map] returns [best], and in the table it leaves: the node under
    the name of a non-observed node of [best] is the node [live] had
    there with the value of the node of [best]; a name under which
    [best] has no node or an observed one holds what [live] held; so,
    when a name is observed in [live] exactly when it is in [best],
    every observed node of [live] is left as it was. *)
Theorem map_copies_unobserved (runs max_retry warn_crit : Z)
    (live0 live : node_table) (maps : list MAP) (k : nat)
    (best : MAP) (printed : list Z) :
  map_runs attempt (Z.to_nat runs) max_retry 0 live0 [] = (Ok (live, maps), k) →
  map_choose runs warn_crit maps = Ok (best, printed) →
  map_Forall (λ nm o, ∃ nd, o = PyNode nd ∧
                (observed nd = false → ∃ l, live !! nm = Some (PyNode l)))
    (_dict_container best) →
  ∃ out,
    map attempt runs max_retry warn_crit live0 = (Ok out, k) ∧
    max_map out = best ∧
    (∀ nm nd, _dict_container best !! nm = Some (PyNode nd) →
       observed nd = false →
       ∃ l, live !! nm = Some (PyNode l) ∧
            nodes out !! nm = Some (PyNode (set_value (value nd) l))) ∧
    (∀ nm, (∀ nd, _dict_container best !! nm = Some (PyNode nd) →
                  observed nd = true) →
       nodes out !! nm = live !! nm) ∧
    (map_Forall (λ nm o, ∀ nd l, o = PyNode nd → live !! nm = Some (PyNode l) →
                   observed l = observed nd)
       (_dict_container best) →
     ∀ nm l, live !! nm = Some (PyNode l) → observed l = true →
       nodes out !! nm = Some (PyNode l)).
Proof.
  intros Hruns Hchoose Hnames.
  destruct (set_values_total (map_to_list (_dict_container best)) live)
    as [live' Hset].
  { intros nm o Hin. apply elem_of_map_to_list in Hin.
    by apply (Hnames nm o). }
  destruct (set_values_spec _ _ _ (NoDup_fst_map_to_list _) Hset)
    as [Hcopy Hkeep].
  exists {| max_map := best; nodes := live'; warnings := printed |}.
  split.
  { unfold map, map_select. by rewrite Hruns, Hchoose; simpl; rewrite Hset. }
  split; [done|]. simpl.
  assert (Hkeep' : ∀ nm,
    (∀ nd, _dict_container best !! nm = Some (PyNode nd) → observed nd = true) →
    live' !! nm = live !! nm).
  { intros nm Hall. apply Hkeep. intros nd Hin.
    apply Hall. by apply elem_of_map_to_list. }
  split.
  { intros nm nd Hin Hno.
    destruct (Hcopy nm (PyNode nd)) as (nd' & [= <-] & Hl);
      [by apply elem_of_map_to_list|]. by apply Hl. }
  split; [done|].
  intros Hsame nm l Hl Hobs. rewrite Hkeep'; [done|].
  intros nd Hnd. by rewrite <- (Hsame nm _ Hnd nd l eq_refl Hl).
Qed.

End MapCopyFacts.

(** C6 on the code.  In the group model of the experiment the table
    [create_nodes] returns holds the subject tier of [a] as an object
    array under ["a_subj"], and the bottom nodes of the partition
    [b], where the second subject has no row, as an array with an
    empty slot.  The fitted object holds that table, and the copying
    reads [observed] on an array: [map] raises [AttributeError] after
    the one attempt, and returns no fit. *)
Theorem map_raises_on_subject_array :
  nodes_of demo_built !! "a_subj"
  = Some (PyArray [demo_node "a0" 8; demo_node "a1" 9]) ∧
  nodes_of demo_built !! "wfpt[('b',)]_subj"
  = Some (PyArray [PyNode {| __name__ := "wfpt[('b',)]"; value := 1;
                             observed := true |};
                   PyNone]) ∧
  map demo_group_attempt 1 4 5 ∅ = (Raise (no_attribute "observed"), 1%nat).
Proof. by vm_compute. Qed.

(** ** The statistics cache *)

Section StatsFacts.
Variable stats_obj : Type.
Variable mc_stats : nat → option Z → stats_obj.

(** A request for the cached chain returns the cached object and
    computes nothing. *)
Lemma stats_same_chain (st : stats_state stats_obj) (chain : option Z)
    (nchains c : Z) (s : stats_obj) :
  mc_chains _ st = Some nchains →
  _stats_chain _ st = Some c →
  _stats _ st = Some s →
  default nchains chain = c →
  stats _ mc_stats st chain = (Ok (Some s), st).
Proof.
  intros Hmc Hc Hs Hi. unfold stats. rewrite Hmc, Hc, Hs.
  by rewrite decide_True.
Qed.

(** A request for another chain falls off the end of the function:
    nothing is computed, nothing is returned, the cache is kept. *)
Lemma stats_other_chain (st : stats_state stats_obj) (chain : option Z)
    (nchains c : Z) :
  mc_chains _ st = Some nchains →
  _stats_chain _ st = Some c →
  default nchains chain ≠ c →
  stats _ mc_stats st chain = (Ok None, st).
Proof.
  intros Hmc Hc Hi. unfold stats. rewrite Hmc, Hc.
  by rewrite decide_False.
Qed.

(** The first request computes and fills the cache. *)
Lemma stats_first (st : stats_state stats_obj) (chain : option Z) (nchains : Z) :
  mc_chains _ st = Some nchains →
  _stats_chain _ st = None →
  stats _ mc_stats st chain =
    (Ok (Some (mc_stats (computed _ st) chain)),
     {| mc_chains := Some nchains;
        _stats := Some (mc_stats (computed _ st) chain);
        _stats_chain := Some (default nchains chain);
        computed := S (computed _ st) |}).
Proof. intros Hmc Hc. unfold stats. by rewrite Hmc, Hc. Qed.

(** C8 on the code.  On a fresh model with two chains: the request for
    chain 0 computes (the first computation), the second request for
    chain 0 returns that same object without computing, and the request
    for chain 1 computes nothing and returns [None]; the cache still
    holds the statistics of chain 0. *)
Theorem stats_other_chain_returns_None :
  let st0 := {| mc_chains := Some 2%Z; _stats := None;
                _stats_chain := None; computed := 0 |} in
  let '(r1, st1) := stats _ mc_stats st0 (Some 0%Z) in
  let '(r2, st2) := stats _ mc_stats st1 (Some 0%Z) in
  let '(r3, st3) := stats _ mc_stats st2 (Some 1%Z) in
  r1 = Ok (Some (mc_stats 0%nat (Some 0%Z))) ∧
  r2 = r1 ∧ computed _ st2 = 1%nat ∧
  r3 = Ok None ∧ computed _ st3 = 1%nat ∧
  _stats_chain _ st3 = Some 0%Z ∧
  _stats _ st3 = Some (mc_stats 0%nat (Some 0%Z)).
Proof. simpl. by repeat split. Qed.
End StatsFacts.

(** ** The binding chosen for an included parameter *)

(** For a parameter that creates subject nodes the binding is the slot
    [i] of its subject array under the tag when there is one, of the
    binding carried in otherwise. *)
Lemma select_subj_node_subj (p : Param) (params : gmap string pyobj)
    (dep_name : string) (i : nat) :
  create_subj_nodes p = true →
  select_subj_node p params dep_name i =
    match subj_nodes p !! dep_name with
    | Some a => py_getitem a i
    | None => a ← dict_getitem params (name p); py_getitem a i
    end.
Proof.
  intros Hc. unfold select_subj_node, has_key, dict_getitem. rewrite Hc. simpl.
  destruct (subj_nodes p !! dep_name) as [a|] eqn:E.
  - by rewrite bool_decide_eq_true_2 by eauto.
  - rewrite bool_decide_eq_false_2; [done|]. by intros [? ?].
Qed.

(** For a parameter that does not create subject nodes the test is made
    on its subject-node mapping and the group-node mapping is read. *)
Lemma select_subj_node_group (p : Param) (params : gmap string pyobj)
    (dep_name : string) (i : nat) :
  create_subj_nodes p = false →
  select_subj_node p params dep_name i =
    match subj_nodes p !! dep_name with
    | Some _ => dict_getitem (group_nodes p) dep_name
    | None => dict_getitem params (name p)
    end.
Proof.
  intros Hc. unfold select_subj_node, has_key. rewrite Hc. simpl.
  destruct (subj_nodes p !! dep_name) as [a|] eqn:E.
  - by rewrite bool_decide_eq_true_2 by eauto.
  - rewrite bool_decide_eq_false_2; [done|]. by intros [? ?].
Qed.

(** ** The partitioner: disjoint subsets that cover the data *)

Section FilterPartition.
Context {A K : Type} (P : K → A → Prop) `{!∀ k x, Decision (P k x)}.

(** Filtering a list by each of a duplicate-free list of classes, when
    every element is in exactly one class, rearranges the list. *)
Lemma join_filter_partition (keys : list K) (l : list A) :
  NoDup keys →
  (∀ x, x ∈ l → ∃ k, k ∈ keys ∧ P k x) →
  (∀ x k1 k2, P k1 x → P k2 x → k1 = k2) →
  mjoin ((λ k, filter (P k) l) <$> keys) ≡ₚ l.
Proof.
  intros Hnd Hcover Huniq. revert l Hcover.
  induction Hnd as [|k ks Hk Hnd IH]; intros l Hcover.
  - destruct l as [|x l]; [done|].
    destruct (Hcover x) as (k & Hk & _); [by left|].
    by apply elem_of_nil in Hk.
  - simpl.
    trans (filter (P k) l ++ filter (λ x, ¬ P k x) l);
      [|apply filter_app_complement].
    f_equiv.
    assert (Heq : (λ k', filter (P k') l) <$> ks
                = (λ k', filter (P k') (filter (λ x, ¬ P k x) l)) <$> ks).
    { apply Forall_fmap_ext, Forall_forall. intros k' Hk'.
      symmetry. apply list_filter_filter_l. intros x Hx Hkx.
      assert (k' = k) as -> by eauto. done. }
    unfold fmap in Heq |- *. rewrite Heq. apply IH.
    intros x Hx. apply list_elem_of_filter in Hx as [Hnk Hx].
    destruct (Hcover x Hx) as (k' & Hk' & HP).
      apply elem_of_cons in Hk' as [->|Hk']; [done|]. eauto.
Qed.
End FilterPartition.

Lemma np_unique_keys_elem (col : list key) (k : key) :
  k ∈ np_unique_keys col ↔ k ∈ col.
Proof.
  unfold np_unique_keys. rewrite merge_sort_Permutation.
  apply elem_of_remove_dups.
Qed.

Lemma np_unique_keys_NoDup (col : list key) : NoDup (np_unique_keys col).
Proof.
  unfold np_unique_keys. rewrite merge_sort_Permutation.
  apply NoDup_remove_dups.
Qed.

(** Where [data[cols]] is defined every row has a tuple, and the tuple
    is among the unique elements. *)
Lemma getitem_cols_row (data : recarray) (cols : list string) (col : list key)
    (row : list cell) :
  cols ≠ [] →
  getitem_cols data cols = Ok col →
  row ∈ rows data →
  ∃ k, k ∈ np_unique_keys col ∧ row_key (dtype_names data) cols row = Some k.
Proof.
  unfold getitem_cols. destruct cols as [|c0 cols]; [done|]. intros _.
  destruct (mapM _ (rows data)) as [c|] eqn:E; [|done].
  intros [= ->] Hrow. apply mapM_Some in E.
  apply list_elem_of_lookup in Hrow as [i Hi].
  destruct (Forall2_lookup_l _ _ _ _ _ E Hi) as (k & Hk & Hkey).
  exists k. split; [|done].
  apply np_unique_keys_elem. by eapply list_elem_of_lookup_2.
Qed.

(** The rows selected for the unique elements of [data[cols]] rearrange
    the rows of [data]. *)
Lemma rows_equal_partition (data : recarray) (cols : list string)
    (col : list key) :
  cols ≠ [] →
  getitem_cols data cols = Ok col →
  mjoin ((λ e, rows (rows_equal data cols e)) <$> np_unique_keys col)
  ≡ₚ rows data.
Proof.
  intros Hcols Hcol. unfold rows_equal, select_rows. simpl.
  apply (join_filter_partition
           (λ e row, bool_decide
              (row_key (dtype_names data) cols row = Some e) = true)).
  - apply np_unique_keys_NoDup.
  - intros row Hrow.
    destruct (getitem_cols_row _ _ _ _ Hcols Hcol Hrow) as (k & Hk & Hkey).
    exists k. split; [done|]. by apply bool_decide_eq_true_2.
  - intros row k1 k2 H1 H2.
    apply bool_decide_eq_true_1 in H1, H2. congruence.
Qed.

(** With an empty column list there is no unique element and nothing
    is selected; in every case the selected rows are rows of [data],
    each at most as often as [data] has it. *)
Lemma rows_equal_sub (data : recarray) (cols : list string) (col : list key) :
  getitem_cols data cols = Ok col →
  mjoin ((λ e, rows (rows_equal data cols e)) <$> np_unique_keys col)
  ⊆+ rows data.
Proof.
  intros Hcol. destruct cols as [|c0 cols].
  - injection Hcol as <-. apply submseteq_nil_l.
  - apply Permutation_submseteq. by apply rows_equal_partition.
Qed.

Section PartitionerFacts.
Variable str_element : key → string.
Variable self : Hierarchical.
Variable params_include : ordered_params.

Lemma depend_loop_rows (R : relation (list (list cell))) (data : recarray)
    (param_name : string) (col_name : list string) (dep_name : list key)
    (recurse : recarray → gmap string pyobj → list key → result (list terminal)) :
  R [] [] →
  (∀ a b c d, R a b → R c d → R (a ++ c) (b ++ d)) →
  (∀ d p n ts, recurse d p n = Ok ts → R (terminal_rows ts) (rows d)) →
  ∀ depend_elements params ts,
    depend_loop str_element self params_include data param_name col_name
      dep_name recurse depend_elements params = Ok ts →
    R (terminal_rows ts)
      (mjoin ((λ e, rows (rows_equal data col_name e)) <$> depend_elements)).
Proof.
  intros Hnil Happ Hrec depend_elements.
  induction depend_elements as [|e es IH]; intros params ts Hloop.
  - simpl in Hloop. by injection Hloop as <-.
  - simpl in Hloop.
    apply bind_Ok in Hloop as (param & _ & Hloop).
    apply bind_Ok in Hloop as (nd & _ & Hloop).
    apply bind_Ok in Hloop as (data_param & Hdp & Hloop).
    apply bind_Ok in Hloop as (data_params & Hdps & Hloop).
    injection Hloop as <-. unfold terminal_rows.
    rewrite fmap_app, join_app.
    change (mjoin ((λ e0, rows (rows_equal data col_name e0)) <$> e :: es))
      with (rows (rows_equal data col_name e)
            ++ mjoin ((λ e0, rows (rows_equal data col_name e0)) <$> es)).
    apply Happ; [by apply Hrec in Hdp | by apply IH in Hdps].
Qed.

(** When every dependency lists at least one column the terminals
    rearrange the rows of the input. *)
Lemma _get_data_depend_rec_rows (depends_on : list (string * list string)) :
  Forall (λ dep, dep.2 ≠ []) depends_on →
  ∀ data params dep_name ts,
    _get_data_depend_rec str_element self params_include data depends_on
      params dep_name = Ok ts →
    terminal_rows ts ≡ₚ rows data.
Proof.
  induction depends_on as [|[param_name col_name] depends_on' IH];
    intros Hcols data params dep_name ts Hrec.
  - simpl in Hrec. injection Hrec as <-. unfold terminal_rows. simpl.
    by rewrite app_nil_r.
  - apply Forall_cons in Hcols as [Hcol_name Hcols]. simpl in Hcol_name.
    simpl in Hrec. apply bind_Ok in Hrec as (col & Hcol & Hloop).
    rewrite (depend_loop_rows Permutation _ _ _ _ _ (reflexivity _)
               (λ a b c d Hab Hcd, Permutation_app Hab Hcd)
               (λ d p n ts, IH Hcols d p n ts) _ _ _ Hloop).
    by apply rows_equal_partition.
Qed.

(** In every case the terminals hold rows of the input, each at most
    as often as the input has it. *)
Lemma _get_data_depend_rec_rows_sub (depends_on : list (string * list string)) :
  ∀ data params dep_name ts,
    _get_data_depend_rec str_element self params_include data depends_on
      params dep_name = Ok ts →
    terminal_rows ts ⊆+ rows data.
Proof.
  induction depends_on as [|[param_name col_name] depends_on' IH];
    intros data params dep_name ts Hrec.
  - simpl in Hrec. injection Hrec as <-. unfold terminal_rows. simpl.
    by rewrite app_nil_r.
  - simpl in Hrec. apply bind_Ok in Hrec as (col & Hcol & Hloop).
    trans (mjoin ((λ e, rows (rows_equal data col_name e))
                    <$> np_unique_keys col)).
    + apply (depend_loop_rows submseteq _ _ _ _ _ (submseteq_nil_l _)
               (λ a b c d Hab Hcd, submseteq_app _ _ _ _ Hab Hcd)
               (λ d p n ts, IH d p n ts) _ _ _ Hloop).
    + by apply rows_equal_sub.
Qed.
End PartitionerFacts.

(** Lists whose concatenation has no duplicates are pairwise disjoint. *)
Lemma NoDup_join_disjoint {A : Type} (ls : list (list A)) (i j : nat)
    (a b : list A) (x : A) :
  NoDup (mjoin ls) → i ≠ j → ls !! i = Some a → ls !! j = Some b →
  x ∈ a → x ∉ b.
Proof.
  revert i j. induction ls as [|l ls IH]; intros i j Hnd Hne Hi Hj Ha Hb;
    [done|].
  change (mjoin (l :: ls)) with (l ++ mjoin ls) in Hnd.
  apply NoDup_app in Hnd as (Hl & Hdisj & Hls).
  destruct i as [|i], j as [|j]; simpl in Hi, Hj; [done| | |].
  - injection Hi as <-. apply (Hdisj x Ha).
    apply list_elem_of_join. exists b. split; [done|].
    by eapply list_elem_of_lookup_2.
  - injection Hj as <-. apply (Hdisj x Hb).
    apply list_elem_of_join. exists a. split; [done|].
    by eapply list_elem_of_lookup_2.
  - eapply (IH i j); eauto.
Qed.

(** C1.  Whatever the data, the dependency map (of any nesting depth),
    the bindings and the tag path, when the partitioner returns its
    terminals: every row of a data subset is a row of the input, and
    when the rows of the input are distinct (as they are once the
    constructor has added [data_idx]) no row is in two subsets; and
    when every entry of the dependency map lists at least one column,
    the data subsets, put one after the other, are a rearrangement of
    the rows of the input, so every row of the input is in one
    subset. *)
Theorem partition_disjoint_cover (str_element : key → string)
    (self : Hierarchical) (params_include : ordered_params)
    (data : recarray) (depends_on : list (string * list string))
    (params : gmap string pyobj) (dep_name : list key) (ts : list terminal) :
  _get_data_depend_rec str_element self params_include data depends_on
    params dep_name = Ok ts →
  (∀ t row, t ∈ ts → row ∈ rows (terminal_data t) → row ∈ rows data) ∧
  (NoDup (rows data) →
   ∀ i j ti tj row, i ≠ j → ts !! i = Some ti → ts !! j = Some tj →
     row ∈ rows (terminal_data ti) → row ∉ rows (terminal_data tj)) ∧
  (Forall (λ dep, dep.2 ≠ []) depends_on →
   terminal_rows ts ≡ₚ rows data ∧
   ∀ row, row ∈ rows data ↔ ∃ t, t ∈ ts ∧ row ∈ rows (terminal_data t)).
Proof.
  intros Hrec.
  pose proof (_get_data_depend_rec_rows_sub _ _ _ _ _ _ _ _ Hrec) as Hsub.
  assert (Hin : ∀ row, row ∈ terminal_rows ts ↔
                       ∃ t, t ∈ ts ∧ row ∈ rows (terminal_data t)).
  { intros row. unfold terminal_rows. rewrite list_elem_of_join. split.
    - intros (l & Hrow & Hl). apply list_elem_of_fmap in Hl as (t & -> & Ht).
      eauto.
    - intros (t & Ht & Hrow). exists (rows (terminal_data t)).
      split; [done|]. apply list_elem_of_fmap. eauto. }
  split; [|split].
  - intros t row Ht Hrow. apply (elem_of_submseteq (terminal_rows ts)); [|done].
    apply Hin. eauto.
  - intros Hnd i j ti tj row Hne Hi Hj.
    apply submseteq_Permutation in Hsub as [rest Hperm].
    rewrite Hperm in Hnd. apply NoDup_app in Hnd as [Hnd _].
    unfold terminal_rows in Hnd.
    apply (NoDup_join_disjoint _ i j _ _ row Hnd Hne).
    + by rewrite list_lookup_fmap, Hi.
    + by rewrite list_lookup_fmap, Hj.
  - intros Hcols.
    pose proof (_get_data_depend_rec_rows _ _ _ _ Hcols _ _ _ _ Hrec) as Hperm.
    split; [done|]. intros row. by rewrite <- Hperm.
Qed.

(** C1 as stated fails on a dependency with an empty column
    list, which the constructor accepts: with [depends_on = {'v': []}]
    the partitioner returns no terminal, so no row of the table is in
    any subset. *)
Lemma partition_disjoint_cover_counterexample :
  (__init__ demo_table None (Some [("v", DepList [])]) []).2
    = Ok demo_no_column ∧
  _get_data_depend_rec demo_str_element demo_no_column demo_params_include
    (data demo_no_column) (depends_on demo_no_column) ∅ [] = Ok [] ∧
  ¬ (∀ ts,
       _get_data_depend_rec demo_str_element demo_no_column
         demo_params_include (data demo_no_column)
         (depends_on demo_no_column) ∅ [] = Ok ts →
       ∀ row, row ∈ rows (data demo_no_column) →
         ∃ t, t ∈ ts ∧ row ∈ rows (terminal_data t)).
Proof.
  split; [by vm_compute|]. split; [reflexivity|].
  intros H.
  destruct (H [] eq_refl [CInt 11; CInt 1; CInt 0; CStr "a"; CInt 0])
    as (t & Ht & _); [by left|].
  by apply elem_of_nil in Ht.
Qed.

(** The rows of the table the constructor builds are distinct: they
    differ in their [data_idx] cell. *)
Lemma add_data_idx_NoDup (data0 new_data : recarray) :
  add_data_idx data0 = Ok new_data → NoDup (rows new_data).
Proof.
  intros Hadd. destruct (add_data_idx_rows _ _ Hadd) as (_ & Hlen & Hrows).
  apply NoDup_alt. intros i j x Hi Hj.
  assert (Hi' : (i < length (rows data0))%nat)
    by (rewrite <- Hlen; by eapply lookup_lt_Some).
  assert (Hj' : (j < length (rows data0))%nat)
    by (rewrite <- Hlen; by eapply lookup_lt_Some).
  destruct (lookup_lt_is_Some_2 _ _ Hi') as [ri Hri].
  destruct (lookup_lt_is_Some_2 _ _ Hj') as [rj Hrj].
  rewrite (Hrows _ _ Hri) in Hi. rewrite (Hrows _ _ Hrj) in Hj.
  injection Hi as <-. injection Hj as Heq.
  apply app_inj_tail in Heq as [_ Heq]. injection Heq as Heq. lia.
Qed.

Lemma init_rows_NoDup (data0 : recarray) igm deps inc (self : Hierarchical) :
  (__init__ data0 igm deps inc).2 = Ok self → NoDup (rows (data self)).
Proof. intros H. apply init_data in H. by eapply add_data_idx_NoDup. Qed.

(** ** Bottom nodes: one per partition and subject with data *)

Lemma od_lookup_update {V : Type} (d : list (string * V)) (k k' : string)
    (f : V → V) :
  od_lookup (od_update d k f) k' =
  if decide (k = k') then f <$> od_lookup d k' else od_lookup d k'.
Proof.
  induction d as [|[k0 v0] d IH]; simpl.
  - by case_decide.
  - repeat (case_decide; simpl); simplify_eq; done.
Qed.

Lemma bottom_entry_update (ps : ordered_params) (pname tag tag' : string)
    (x : pyobj) :
  is_Some (od_lookup ps pname) →
  bottom_entry (od_update ps pname (set_subj_nodes (<[tag := x]>))) pname tag'
  = if decide (tag = tag') then Some x else bottom_entry ps pname tag'.
Proof.
  intros [p Hp]. unfold bottom_entry.
  rewrite od_lookup_update, decide_True by done. rewrite Hp. simpl.
  destruct (decide (tag = tag')) as [->|Hne].
  - by rewrite lookup_insert_eq.
  - by rewrite lookup_insert_ne.
Qed.

Lemma store_subj_node_entry (ps ps' : ordered_params) (pname tag : string)
    (j : nat) (nd : node) :
  store_subj_node ps pname tag j nd = Ok ps' →
  ∃ a, bottom_entry ps pname tag = Some (PyArray a) ∧
       (j < length a)%nat ∧
       bottom_entry ps' pname tag = Some (PyArray (<[j := PyNode nd]> a)) ∧
       ∀ tag', tag' ≠ tag →
         bottom_entry ps' pname tag' = bottom_entry ps pname tag'.
Proof.
  unfold store_subj_node, od_getitem, dict_getitem. intros H.
  destruct (od_lookup ps pname) as [p|] eqn:Hp; [|done]. simpl in H.
  destruct (subj_nodes p !! tag) as [a|] eqn:Ha; [|done]. simpl in H.
  destruct a as [| |a]; try done. simpl in H.
  case_decide; [|done]. simpl in H. injection H as <-.
  exists a. split; [unfold bottom_entry; by rewrite Hp|].
  split; [done|]. split.
  - rewrite bottom_entry_update by eauto. by rewrite decide_True.
  - intros tag' Hne. rewrite bottom_entry_update by eauto.
    by rewrite decide_False.
Qed.

Lemma subjects_with_rows_cons (data : recarray) (i : nat) (subj : cell)
    (subjs : list cell) :
  subjects_with_rows data i (subj :: subjs) =
  if decide (len (rows_of_subj data subj) = 0%nat)
  then subjects_with_rows data (S i) subjs
  else (i, subj) :: subjects_with_rows data (S i) subjs.
Proof.
  unfold subjects_with_rows, enumerate. simpl. rewrite filter_cons. simpl.
  by repeat case_decide.
Qed.

Lemma stored_frame (ps ps' : ordered_params) (pname : string) (c : bottom_call) :
  bottom_entry ps' pname (call_tag c) = bottom_entry ps pname (call_tag c) →
  stored ps pname c → stored ps' pname c.
Proof.
  unfold stored, bottom_slot. intros ->. done.
Qed.

Section BottomNodesFacts.
Variable str_element : key → string.
Variable str_path : list key → string.
Variable get_bottom_node :
  Param → string → option nat → recarray → gmap string pyobj → result node.
Variable self : Hierarchical.

Lemma subj_loop_spec (pname : string) (data : recarray)
    (params : gmap string pyobj) (dep_name : string) (subjs : list cell) :
  ∀ i ps ps' calls,
    subj_loop get_bottom_node pname data params dep_name subjs i ps
      = Ok (ps', calls) →
    call_key <$> calls =
      (λ js : nat * cell, (dep_name, Some js.1, rows_of_subj data js.2))
        <$> subjects_with_rows data i subjs ∧
    (∀ c, c ∈ calls →
       ∃ j, call_idx c = Some j ∧ call_tag c = dep_name ∧ (i ≤ j)%nat ∧
            bottom_slot ps' pname dep_name j = Some (PyNode (call_node c))) ∧
    (∀ j, (∀ c, c ∈ calls → call_idx c ≠ Some j) →
       bottom_slot ps' pname dep_name j = bottom_slot ps pname dep_name j) ∧
    (∀ tag', tag' ≠ dep_name →
       bottom_entry ps' pname tag' = bottom_entry ps pname tag').
Proof.
  induction subjs as [|subj subjs IH]; intros i ps ps' calls Hloop.
  - simpl in Hloop. injection Hloop as <- <-.
    repeat split; try done. intros c Hc. by apply elem_of_nil in Hc.
  - simpl in Hloop. rewrite subjects_with_rows_cons.
    apply bind_Ok in Hloop as (col & _ & Hloop).
    destruct (decide (len (rows_of_subj data subj) = 0%nat)) as [Hz|Hnz].
    + destruct (IH _ _ _ _ Hloop) as (Hkeys & Hst & Hskip & Hframe).
      repeat split; try done.
      intros c Hc. destruct (Hst c Hc) as (j & ? & ? & ? & ?).
      exists j. repeat split; try done. lia.
    + apply bind_Ok in Hloop as (selected & _ & Hloop).
      apply bind_Ok in Hloop as (param & _ & Hloop).
      apply bind_Ok in Hloop as (nd & _ & Hloop).
      apply bind_Ok in Hloop as (ps1 & Hstore & Hloop).
      apply bind_Ok in Hloop as ([final calls'] & Hrec & Hloop).
      injection Hloop as <- <-.
      destruct (IH _ _ _ _ Hrec) as (Hkeys & Hst & Hskip & Hframe).
      destruct (store_subj_node_entry _ _ _ _ _ _ Hstore)
        as (a & Ha & Hlt & Ha1 & Hother).
      assert (Hlater : ∀ c, c ∈ calls' → call_idx c ≠ Some i).
      { intros c Hc. destruct (Hst c Hc) as (j & -> & _ & Hle & _).
        intros [= ->]. lia. }
      split; [|split; [|split]].
      * rewrite fmap_cons. by rewrite Hkeys.
      * intros c Hc. apply elem_of_cons in Hc as [->|Hc].
        -- exists i. simpl. repeat split; try done.
           rewrite (Hskip i Hlater). unfold bottom_slot. rewrite Ha1.
           by apply list_lookup_insert_eq.
        -- destruct (Hst c Hc) as (j & ? & ? & ? & ?).
           exists j. repeat split; try done. lia.
      * intros j Hj.
        assert (Hji : j ≠ i).
        { intros ->. by apply (Hj _ ltac:(by left)). }
        rewrite Hskip by (intros c Hc; apply Hj; by right).
        unfold bottom_slot. rewrite Ha1, Ha.
        by apply list_lookup_insert_ne.
      * intros tag' Hne. rewrite Hframe by done. by apply Hother.
Qed.

Lemma _create_bottom_node_spec (ps ps' : ordered_params) (pname : string)
    (data : recarray) (params : gmap string pyobj) (dep_name : string)
    (idx : nat) (calls : list bottom_call) :
  _create_bottom_node get_bottom_node self ps pname data params dep_name idx
    = Ok (ps', calls) →
  call_key <$> calls = expected_calls self dep_name data ∧
  (∀ c, c ∈ calls → call_tag c = dep_name ∧ stored ps' pname c) ∧
  (∀ tag', tag' ≠ dep_name →
     bottom_entry ps' pname tag' = bottom_entry ps pname tag').
Proof.
  unfold _create_bottom_node, expected_calls.
  destruct (is_group_model self).
  - intros Hloop.
    destruct (subj_loop_spec _ _ _ _ _ _ _ _ _ Hloop)
      as (Hkeys & Hst & _ & Hframe).
    repeat split; try done.
    + by destruct (Hst c H) as (j & _ & ? & _).
    + destruct (Hst c H) as (j & Hj & Htag & _ & Hslot).
      unfold stored. by rewrite Hj, Htag.
  - intros H.
    apply bind_Ok in H as (param & Hparam & H).
    apply bind_Ok in H as (nd & _ & H). injection H as <- <-.
    assert (Hsome : is_Some (od_lookup ps pname)).
    { unfold od_getitem in Hparam.
      destruct (od_lookup ps pname); [eauto|done]. }
    repeat split; try done.
    + by apply list_elem_of_singleton in H as ->.
    + apply list_elem_of_singleton in H as ->. unfold stored. simpl.
      rewrite bottom_entry_update by done. by rewrite decide_True.
    + intros tag' Hne. rewrite bottom_entry_update by done.
      by rewrite decide_False.
Qed.

Lemma bottom_loop_spec (pname : string) (data_dep : list terminal) :
  ∀ i ps ps' calls,
    bottom_loop str_path get_bottom_node self pname false data_dep i ps
      = Ok (ps', calls) →
    call_key <$> calls =
      data_dep ≫= (λ t, expected_calls self (terminal_tag str_path t) (terminal_data t)) ∧
    (NoDup (terminal_tag str_path <$> data_dep) →
       ∀ c, c ∈ calls → stored ps' pname c) ∧
    (∀ tag', tag' ∉ terminal_tag str_path <$> data_dep →
       bottom_entry ps' pname tag' = bottom_entry ps pname tag') ∧
    (∀ c, c ∈ calls → call_tag c ∈ terminal_tag str_path <$> data_dep).
Proof.
  induction data_dep as [|[[data params_dep] dep_name] data_dep IH];
    intros i ps ps' calls Hloop.
  - simpl in Hloop. injection Hloop as <- <-.
    split; [done|]. split; [|split; [done|]].
    + intros _ c Hc. by apply elem_of_nil in Hc.
    + intros c Hc. by apply elem_of_nil in Hc.
  - simpl in Hloop.
    apply bind_Ok in Hloop as ([ps1 calls0] & Hcreate & Hloop).
    apply bind_Ok in Hloop as ([final calls1] & Hrec & Hloop).
    injection Hloop as <- <-.
    destruct (_create_bottom_node_spec _ _ _ _ _ _ _ _ Hcreate)
      as (Hkeys0 & Hst0 & Hframe0).
    destruct (IH _ _ _ _ Hrec) as (Hkeys1 & Hst1 & Hframe1 & Htags1).
    split; [|split; [|split]].
    + rewrite fmap_app, Hkeys0, Hkeys1. done.
    + rewrite fmap_cons. intros Hnd. apply NoDup_cons in Hnd as [Hfresh Hnd].
      intros c Hc. apply elem_of_app in Hc as [Hc|Hc].
      * destruct (Hst0 c Hc) as [Htag Hst].
        apply (stored_frame ps1); [|done].
        apply Hframe1. by rewrite Htag.
      * by apply Hst1.
    + rewrite fmap_cons. intros tag' Hnot.
      apply not_elem_of_cons in Hnot as [Hne Hnot].
      rewrite Hframe1 by done. by apply Hframe0.
    + rewrite fmap_cons. intros c Hc. apply elem_of_app in Hc as [Hc|Hc].
      * destruct (Hst0 c Hc) as [-> _]. by left.
      * right. by apply Htags1.
Qed.

(** C3.  When [_set_bottom_nodes(param, init=False)] returns, the calls
    of [get_bottom_node] it made are, partition after partition of the
    partitioner's output: in a group model, one call for each subject
    that has at least one row in the partition, in the order of the
    subjects, carrying the tag of the partition, the position of the
    subject and the subject's rows, and none for a subject without
    rows; in a model that is not a group model, one call per partition,
    with no subject position and the rows of the partition.  When the
    tags of the partitions are distinct, the node every call returned
    is in the bottom parameter's [subj_nodes] under the tag: in the
    slot of the subject's position in a group model, as the entry
    itself otherwise. *)
Theorem bottom_nodes_one_per_pair (params_include final : ordered_params)
    (pname : string) (calls : list bottom_call) :
  _set_bottom_nodes str_element str_path get_bottom_node self
    params_include pname false = Ok (final, calls) →
  ∃ data_dep,
    _get_data_depend str_element self params_include = Ok data_dep ∧
    call_key <$> calls =
      data_dep ≫= (λ t, expected_calls self (terminal_tag str_path t) (terminal_data t)) ∧
    (is_group_model self = true →
       ∀ t j subj, t ∈ data_dep → _subjs self !! j = Some subj →
         ((terminal_tag str_path t, Some j, rows_of_subj (terminal_data t) subj)
            ∈ expected_calls self (terminal_tag str_path t) (terminal_data t)
          ↔ len (rows_of_subj (terminal_data t) subj) ≠ 0%nat)) ∧
    (NoDup (terminal_tag str_path <$> data_dep) →
       ∀ c, c ∈ calls → stored final pname c).
Proof.
  unfold _set_bottom_nodes. intros H.
  apply bind_Ok in H as (data_dep & Hdep & Hloop). exists data_dep.
  destruct (bottom_loop_spec _ _ _ _ _ _ Hloop) as (Hkeys & Hst & _ & _).
  split; [done|]. split; [done|]. split; [|done].
  intros Hgroup t j subj Ht Hsubj. unfold expected_calls. rewrite Hgroup.
  split.
  - intros Hin.
    apply list_elem_of_fmap in Hin as ([j' subj'] & Heq & Hin).
    simpl in Heq.
    assert (Hrows : rows_of_subj (terminal_data t) subj
                  = rows_of_subj (terminal_data t) subj') by congruence.
    unfold subjects_with_rows in Hin.
    apply list_elem_of_filter in Hin as [Hlen _]. simpl in Hlen.
    by rewrite Hrows.
  - intros Hlen.
    apply list_elem_of_fmap. exists (j, subj). split; [done|].
    unfold subjects_with_rows. apply list_elem_of_filter. split; [done|].
    unfold enumerate. apply list_elem_of_lookup. exists j.
    apply lookup_zip_Some. split; [|done].
    apply lookup_seq. split; [done|]. by eapply lookup_lt_Some.
Qed.
End BottomNodesFacts.

(** * The properties on the experiment *)

Lemma demo_table_fresh : "data_idx" ∉ dtype_names demo_table.
Proof. refine (bool_decide_unpack _ _). vm_compute. exact I. Qed.

(** The constructor builds [demo_self] and leaves the caller's
    dictionary with a list where the string was. *)
Example demo_init :
  __init__ demo_table None (Some [("v", DepStr "cond")]) []
  = (Some [("v", DepList ["cond"])], Ok demo_self).
Proof. by vm_compute. Qed.

Lemma data_idx_injected_witness :
  aligned demo_table ∧
  ∃ new_data,
    add_data_idx demo_table = Ok new_data ∧
    getitem_col new_data "data_idx" = Ok [CInt 0; CInt 1; CInt 2; CInt 3] ∧
    data demo_self = new_data.
Proof.
  assert (Hal : aligned demo_table) by (repeat constructor).
  split; [exact Hal|].
  destruct (data_idx_injected demo_table None (Some [("v", DepStr "cond")])
              [] Hal) as [Hfresh _].
  destruct (Hfresh demo_table_fresh)
    as (new_data & Hadd & _ & _ & _ & Hcol & _ & Hself).
  exists new_data. split; [exact Hadd|]. split; [exact Hcol|].
  apply Hself. by vm_compute.
Defined.

Lemma depends_on_mutated_in_place_witness :
  ("data_idx" ∉ dtype_names demo_table) ∧
  ∃ d', (__init__ demo_table None (Some [("v", DepStr "cond")]) []).1 = Some d' ∧
        d' !! 0%nat = Some ("v", DepList ["cond"]).
Proof.
  split; [exact demo_table_fresh|].
  destruct (depends_on_mutated_in_place demo_table None [("v", DepStr "cond")]
              [] 0 "v" "cond" demo_table_fresh eq_refl)
    as (d' & Hd' & Hi & _).
  exists d'. by split.
Defined.

Lemma demo_create_fails (n : nat) (ps : ordered_params) :
  fails_caught (demo_create n) 0 n ps.
Proof.
  intros j Hj. exists (ValueError "bad starting value"). split; [|done].
  unfold demo_create. simpl. by rewrite (proj2 (Nat.ltb_lt j n)).
Qed.

Lemma create_nodes_bounded_retry_witness :
  (2 ≤ Z.to_nat default_retry)%nat ∧
  (create_nodes demo_str_element demo_str_path demo_get_bottom_node
     (demo_create 2) demo_self default_retry demo_params 0).2 = 3%nat.
Proof.
  assert (Hle : (2 ≤ Z.to_nat default_retry)%nat) by (vm_compute; lia).
  split; [exact Hle|].
  pose proof (create_nodes_bounded_retry demo_str_element demo_str_path
                demo_get_bottom_node (demo_create 2) demo_self default_retry
                demo_params 0 2) as H.
  cbv zeta in H. specialize (H Hle (demo_create_fails 2 _)).
  simpl in H. by rewrite H.
Defined.

(** With the default bound of 20, a [_create()] that fails 20 times is
    run a 21st time, and one that keeps failing is given up after 21
    runs with a [ZeroProbability] carrying the [ValueError]. *)
Example create_nodes_default_bound :
  (create_nodes demo_str_element demo_str_path demo_get_bottom_node
     (demo_create 20) demo_self default_retry demo_params 0).2 = 21%nat ∧
  create_nodes demo_str_element demo_str_path demo_get_bottom_node
     (demo_create 21) demo_self default_retry demo_params 0
  = (Raise (ZeroProbability (ArgExn (ValueError "bad starting value"))), 21%nat).
Proof. by vm_compute. Qed.

Lemma demo_attempt_fails (n : nat) (logps : list Z) :
  fails_zero_probability (demo_attempt n logps) 0 n.
Proof.
  intros j Hj. exists (ZeroProbability (ArgMsg "bad starting value")).
  split; [|done]. unfold demo_attempt. simpl.
  by rewrite (proj2 (Nat.ltb_lt j n)).
Qed.

Lemma map_run_retry_bound_witness :
  fails_zero_probability (demo_attempt 2 [10]) 0 2 ∧
  map_run (demo_attempt 2 [10]) (Z.to_nat 4) 0
  = (Ok (demo_graph 52, {| logp := 10; _dict_container := demo_graph 52 |}),
     3%nat).
Proof.
  split; [exact (demo_attempt_fails 2 [10])|].
  pose proof (map_run_retry_bound (demo_attempt 2 [10]) 4 2 0
                (demo_graph 52,
                 {| logp := 10; _dict_container := demo_graph 52 |})
                (demo_attempt_fails 2 [10]) eq_refl) as H.
  cbv zeta in H. destruct H as (_ & Hsucc & _).
  apply Hsucc. vm_compute. lia.
Defined.

(** With [max_retry = 2] the same backend makes the estimation fail with
    the exception of the second attempt. *)
Example map_retry_exhausted :
  map (demo_attempt 2 [10]) 1 2 5 ∅
  = (Raise (ZeroProbability (ArgMsg "bad starting value")), 2%nat).
Proof. by vm_compute. Qed.

Lemma map_selects_best_witness :
  ∃ best printed,
    map_choose 3 5
      [ {| logp := 10; _dict_container := demo_graph 50 |};
        {| logp := 7; _dict_container := demo_graph 51 |};
        {| logp := 12; _dict_container := demo_graph 52 |} ]
    = Ok (best, printed) ∧
    logp best = 12%Z ∧ printed = [].
Proof.
  destruct (map_selects_best (demo_attempt 0 [10; 7; 12]%Z) 3 4 5 ∅
              (demo_graph 52)
              [ {| logp := 10; _dict_container := demo_graph 50 |};
                {| logp := 7; _dict_container := demo_graph 51 |};
                {| logp := 12; _dict_container := demo_graph 52 |} ]
              3 eq_refl ltac:(lia))
    as (best & printed & Hchoose & _).
  exists best, printed. split; [exact Hchoose|].
  vm_compute in Hchoose. injection Hchoose as <- <-. by split.
Defined.

Lemma map_copies_unobserved_witness :
  ∃ out,
    map (demo_attempt 0 [12; 7]%Z) 2 4 5 ∅ = (Ok out, 2%nat) ∧
    logp (max_map out) = 12%Z ∧
    nodes out !! "v_group"
    = Some (PyNode {| __name__ := "v"; value := 50; observed := false |}) ∧
    nodes out !! "wfpt_subj" = demo_graph 51 !! "wfpt_subj".
Proof.
  set (best := {| logp := 12; _dict_container := demo_graph 50 |}).
  destruct (map_copies_unobserved (demo_attempt 0 [12; 7]%Z) 2 4 5 ∅
              (demo_graph 51)
              [ best; {| logp := 7; _dict_container := demo_graph 51 |} ]
              2 best [] eq_refl eq_refl)
    as (out & Hmap & Hbest & Hcopy & Hkeep & _).
  { intros nm o Ho. unfold best, demo_graph in Ho. simpl in Ho.
    unfold demo_graph.
    destruct (decide (nm = "v_group")) as [->|Hne].
    - rewrite lookup_insert_eq in Ho. injection Ho as <-.
      eexists. split; [reflexivity|]. intros _.
      rewrite lookup_insert_eq. eauto.
    - rewrite lookup_insert_ne in Ho by done.
      apply lookup_singleton_Some in Ho as [<- <-].
      eexists. split; [reflexivity|]. done. }
  exists out. split; [exact Hmap|]. split; [by rewrite Hbest|]. split.
  - destruct (Hcopy "v_group"
                {| __name__ := "v"; value := 50; observed := false |}
                eq_refl eq_refl) as (l & Hl & Hout).
    rewrite Hout. vm_compute in Hl. by injection Hl as <-.
  - apply Hkeep. intros nd Hnd. unfold best, demo_graph in Hnd. simpl in Hnd.
    rewrite lookup_insert_ne in Hnd by done.
    by apply lookup_singleton_Some in Hnd as [_ [= <-]].
Defined.

Lemma partition_disjoint_cover_witness :
  ∃ ts,
    _get_data_depend_rec demo_str_element demo_self demo_params_include
      (data demo_self) (depends_on demo_self) ∅ [] = Ok ts ∧
    terminal_rows ts ≡ₚ rows (data demo_self) ∧
    terminal_dep_name <$> ts = [[[CStr "a"]]; [[CStr "b"]]].
Proof.
  destruct (_get_data_depend_rec demo_str_element demo_self demo_params_include
              (data demo_self) (depends_on demo_self) ∅ [])
    as [ts|e] eqn:E; [|vm_compute in E; discriminate E].
  exists ts. split; [reflexivity|].
  destruct (partition_disjoint_cover _ _ _ _ _ _ _ _ E) as (_ & _ & Hcover).
  assert (Hcols : Forall (λ dep : string * list string, dep.2 ≠ [])
                    (depends_on demo_self)) by (by repeat constructor).
  destruct (Hcover Hcols) as [Hperm _].
  split; [exact Hperm|].
  vm_compute in E. injection E as <-. reflexivity.
Defined.

Lemma bottom_nodes_one_per_pair_witness :
  ∃ ps1 final calls,
    _set_bottom_nodes demo_str_element demo_str_path demo_get_bottom_node
      demo_self demo_params_include "wfpt" true = Ok (ps1, []) ∧
    _set_bottom_nodes demo_str_element demo_str_path demo_get_bottom_node
      demo_self ps1 "wfpt" false = Ok (final, calls) ∧
    (λ c, (call_tag c, call_idx c)) <$> calls
    = [("[('a',)]", Some 0%nat); ("[('a',)]", Some 1%nat);
       ("[('b',)]", Some 0%nat)] ∧
    ∀ c, c ∈ calls → stored final "wfpt" c.
Proof.
  destruct (_set_bottom_nodes demo_str_element demo_str_path
              demo_get_bottom_node demo_self demo_params_include "wfpt" true)
    as [[ps1 calls0]|e] eqn:E0; [|vm_compute in E0; discriminate E0].
  destruct (_set_bottom_nodes demo_str_element demo_str_path
              demo_get_bottom_node demo_self ps1 "wfpt" false)
    as [[final calls]|e] eqn:E1;
    [|vm_compute in E0; injection E0 as <- <-;
      vm_compute in E1; discriminate E1].
  exists ps1, final, calls.
  destruct (bottom_nodes_one_per_pair _ _ _ _ _ _ _ _ E1)
    as (data_dep & Hdep & Hkeys & _ & Hstored).
  assert (calls0 = []) as ->
    by (vm_compute in E0; by injection E0 as _ <-).
  split; [reflexivity|]. split; [exact E1|]. split.
  - vm_compute in E0. injection E0 as <-.
    vm_compute in E1. injection E1 as <- <-. reflexivity.
  - apply Hstored. vm_compute in E0. injection E0 as <-.
    vm_compute in Hdep. injection Hdep as <-.
    refine (bool_decide_unpack _ _). vm_compute. exact I.
Defined.

(** Without subject nodes the experiment gets one bottom node per
    partition, stored under the tag itself. *)
Example bottom_nodes_flat :
  ∃ ps1 final calls,
    _set_bottom_nodes demo_str_element demo_str_path demo_get_bottom_node
      demo_flat demo_params_include "wfpt" true = Ok (ps1, []) ∧
    _set_bottom_nodes demo_str_element demo_str_path demo_get_bottom_node
      demo_flat ps1 "wfpt" false = Ok (final, calls) ∧
    (λ c, (call_tag c, call_idx c)) <$> calls
    = [("[('a',)]", None); ("[('b',)]", None)].
Proof.
  destruct (_set_bottom_nodes demo_str_element demo_str_path
              demo_get_bottom_node demo_flat demo_params_include "wfpt" true)
    as [[ps1 calls0]|e] eqn:E0; [|vm_compute in E0; discriminate E0].
  vm_compute in E0. injection E0 as <- <-.
  eexists _, _, _. split; [reflexivity|]. split; [by vm_compute|].
  reflexivity.
Qed.

(** * Further properties of the code *)

(** ** What the constructor checks and decides *)

Lemma cell_le_total : Total cell_le.
Proof.
  intros [x|s] [y|t]; unfold cell_le; simpl; auto.
  - destruct (Z.leb_spec x y); [by left|right]. apply Z.leb_le. lia.
  - destruct (String.leb_total s t); auto.
Qed.

Lemma np_unique_elem (c : list cell) (s : cell) : s ∈ np_unique c ↔ s ∈ c.
Proof.
  unfold np_unique. rewrite merge_sort_Permutation. apply elem_of_remove_dups.
Qed.

Lemma np_unique_NoDup (c : list cell) : NoDup (np_unique c).
Proof.
  unfold np_unique. rewrite merge_sort_Permutation. apply NoDup_remove_dups.
Qed.

Lemma np_unique_Sorted (c : list cell) : Sorted cell_le (np_unique c).
Proof.
  unfold np_unique. apply (@Sorted_merge_sort _ cell_le _ cell_le_total).
Qed.

Lemma np_unique_length (c : list cell) :
  length (np_unique c) = length (remove_dups c).
Proof. unfold np_unique. by rewrite merge_sort_Permutation. Qed.

(** What a constructor call that returned has gone through. *)
Lemma init_Ok_inv (data0 : recarray) igm deps inc (self : Hierarchical) :
  (__init__ data0 igm deps inc).2 = Ok self →
  ∃ new_data g,
    add_data_idx data0 = Ok new_data ∧
    decide_group_model new_data igm = Ok g ∧
    data self = new_data ∧ is_group_model self = g ∧ include self = inc ∧
    (if g then ∃ c, getitem_col new_data "subj_idx" = Ok c ∧
                    _subjs self = np_unique c
     else _subjs self = []) ∧
    match deps with
    | Some (e :: d) =>
        check_depends_on (dtype_names new_data) (listify_depends_on (e :: d))
          = Ok () ∧
        depends_on self = prod_map id cols_of <$> listify_depends_on (e :: d)
    | _ => depends_on self = []
    end.
Proof.
  unfold __init__. destruct (add_data_idx data0) as [new_data|e]; [|done].
  unfold init_after_data_idx.
  assert (Hfin : ∀ ds, (g ← decide_group_model new_data igm;
            subjs ← (if g then c ← getitem_col new_data "subj_idx";
                                Ok (np_unique c) else Ok []);
            Ok {| include := inc; data := new_data; depends_on := ds;
                  is_group_model := g; _subjs := subjs |}) = Ok self →
          ∃ g, decide_group_model new_data igm = Ok g ∧
               data self = new_data ∧ is_group_model self = g ∧
               include self = inc ∧ depends_on self = ds ∧
               (if g then ∃ c, getitem_col new_data "subj_idx" = Ok c ∧
                               _subjs self = np_unique c
                else _subjs self = [])).
  { intros ds H. apply bind_Ok in H as (g & Hg & H).
    apply bind_Ok in H as (subjs & Hs & H). injection H as <-.
    exists g. simpl. repeat split; try done.
    destruct g.
    - apply bind_Ok in Hs as (c & Hc & Hs). injection Hs as <-. eauto.
    - by injection Hs as <-. }
  destruct deps as [[|entry d]|]; simpl; intros H.
  - destruct (Hfin _ H) as (g & ? & ? & ? & ? & ? & ?). exists new_data, g.
    by repeat split.
  - apply bind_Ok in H as ([] & Hchk & H).
    destruct (Hfin _ H) as (g & ? & ? & ? & ? & ? & ?). exists new_data, g.
    by repeat split.
  - destruct (Hfin _ H) as (g & ? & ? & ? & ? & ? & ?). exists new_data, g.
    by repeat split.
Qed.

Lemma check_columns_Ok (names cols : list string) :
  check_columns names cols = Ok () ↔ Forall (λ c, c ∈ names) cols.
Proof.
  induction cols as [|c cols IH]; simpl; [done|].
  rewrite Forall_cons. case_decide; [tauto|].
  split; [done|]. by intros [? _].
Qed.

Lemma check_columns_Raise (names cols : list string) (e : exn) :
  check_columns names cols = Raise e →
  ∃ c, c ∈ cols ∧ (c ∉ names) ∧
       e = KeyError ("Column named " +:+ c +:+ " not found in data.").
Proof.
  induction cols as [|c cols IH]; simpl; [done|].
  case_decide.
  - intros Hr. destruct (IH Hr) as (c' & ? & ? & ?). exists c'.
    split; [by right|done].
  - intros [= <-]. exists c. split; [by left|done].
Qed.

Lemma check_depends_on_Ok (names : list string) (d : depends_dict) :
  check_depends_on names (listify_depends_on d) = Ok () ↔ columns_known names d.
Proof.
  unfold columns_known.
  induction d as [|[k v] d IH]; simpl; [done|].
  rewrite Forall_cons. simpl.
  destruct (check_columns names (cols_of (listify v))) as [[]|e] eqn:E; simpl.
  - apply check_columns_Ok in E. destruct v; simpl in *; tauto.
  - split; [done|]. intros [Hall _].
    assert (check_columns names (cols_of (listify v)) = Ok ()) as Hok.
    { apply check_columns_Ok. by destruct v. }
    congruence.
Qed.

Lemma check_depends_on_Raise (names : list string) (d : depends_dict) (e : exn) :
  check_depends_on names (listify_depends_on d) = Raise e →
  ∃ k v c, (k, v) ∈ d ∧ c ∈ cols_of (listify v) ∧ (c ∉ names) ∧
           e = KeyError ("Column named " +:+ c +:+ " not found in data.").
Proof.
  induction d as [|[k v] d IH]; simpl; [done|].
  destruct (check_columns names (cols_of (listify v))) as [[]|e'] eqn:E;
    simpl.
  - intros Hr. destruct (IH Hr) as (k' & v' & c & ? & ? & ? & ?).
    exists k', v', c. split; [by right|done].
  - intros [= <-]. apply check_columns_Raise in E as (c & Hc & Hn & ->).
    exists k, v, c. split; [by left|]. split; [|done]. by destruct v.
Qed.

(** X1.  On a table that passes the [data_idx] assertion the columns of
    a non-empty [depends_on] are checked against the fields of the
    augmented table (so [data_idx] itself may be depended on): when some
    column is not a field the constructor raises [KeyError] naming a
    missing column; when it returns, every column the object's
    [depends_on] lists is a field of the object's data. *)
Theorem init_checks_columns (data0 : recarray) (igm : option bool)
    (d : depends_dict) (inc : list string) :
  "data_idx" ∉ dtype_names data0 →
  d ≠ [] →
  let names := dtype_names data0 ++ ["data_idx"] in
  (¬ columns_known names d →
     ∃ k v c, (k, v) ∈ d ∧ c ∈ cols_of (listify v) ∧ (c ∉ names) ∧
       (__init__ data0 igm (Some d) inc).2
       = Raise (KeyError ("Column named " +:+ c +:+ " not found in data."))) ∧
  (∀ self, (__init__ data0 igm (Some d) inc).2 = Ok self →
     columns_known names d ∧
     dtype_names (data self) = names ∧
     Forall (λ kv, Forall (λ c, c ∈ dtype_names (data self)) kv.2)
       (depends_on self)).
Proof.
  intros Hfresh Hd names. split.
  - intros Hunknown.
    destruct (check_depends_on names (listify_depends_on d)) as [[]|e] eqn:E.
    { by apply check_depends_on_Ok in E. }
    destruct (check_depends_on_Raise _ _ _ E) as (k & v & c & Hin & Hc & Hn & ->).
    exists k, v, c. repeat split; try done.
    unfold __init__, add_data_idx. rewrite decide_False by done.
    unfold init_after_data_idx. destruct d as [|entry d]; [done|].
    simpl dtype_names. fold names. by rewrite E.
  - intros self Hself.
    destruct (init_Ok_inv _ _ _ _ _ Hself)
      as (new_data & g & Hadd & _ & Hdata & _ & _ & _ & Hdeps).
    destruct (add_data_idx_rows _ _ Hadd) as (Hnames & _).
    destruct d as [|entry d]; [done|]. destruct Hdeps as [Hchk Hdeps].
    rewrite Hnames in Hchk. fold names in Hchk.
    apply check_depends_on_Ok in Hchk as Hknown.
    split; [done|]. split; [by rewrite Hdata|].
    rewrite Hdeps, Hdata, Hnames. fold names.
    unfold columns_known in Hknown. unfold listify_depends_on.
    rewrite Forall_fmap, Forall_fmap.
    eapply Forall_impl; [exact Hknown|].
    intros [k v] Hv. simpl in *. by destruct v.
Qed.

(** X2.  When the constructor returns: an explicit [is_group_model] is
    taken as given (and [True] is only accepted with a [subj_idx]
    field); left to the constructor, the model is a group model exactly
    when the table has a [subj_idx] field whose number of distinct
    values is not 1 (so also for a table without rows).  In a group
    model [_subjs] lists the values of the [subj_idx] column, each once,
    in ascending order. *)
Theorem init_group_model (data0 : recarray) (igm : option bool)
    (deps : option depends_dict) (inc : list string) (self : Hierarchical) :
  (__init__ data0 igm deps inc).2 = Ok self →
  (match igm with
   | Some g => is_group_model self = g
   | None =>
       is_group_model self = true ↔
       "subj_idx" ∈ dtype_names data0 ∧
       ∃ c, getitem_col (data self) "subj_idx" = Ok c ∧
            length (remove_dups c) ≠ 1%nat
   end) ∧
  (is_group_model self = true →
     "subj_idx" ∈ dtype_names data0 ∧
     ∃ c, getitem_col (data self) "subj_idx" = Ok c ∧
          NoDup (_subjs self) ∧ Sorted cell_le (_subjs self) ∧
          ∀ s, s ∈ _subjs self ↔ s ∈ c).
Proof.
  intros Hself.
  destruct (init_Ok_inv _ _ _ _ _ Hself)
    as (new_data & g & Hadd & Hg & Hdata & Hgm & _ & Hsubjs & _).
  destruct (add_data_idx_rows _ _ Hadd) as (Hnames & _).
  assert (Hcol : "subj_idx" ∈ dtype_names new_data ↔
                 "subj_idx" ∈ dtype_names data0).
  { rewrite Hnames, elem_of_app, list_elem_of_singleton.
    split; [intros [?|?]; [done|discriminate]|by left]. }
  rewrite Hdata, Hgm. clear Hdata Hgm.
  unfold decide_group_model in Hg. split.
  - destruct igm as [g'|].
    + destruct (g' && _); [done|]. by injection Hg as <-.
    + case_decide as Hin.
      * apply bind_Ok in Hg as (c & Hc & Hg). injection Hg as <-.
        rewrite negb_true_iff, bool_decide_eq_false, np_unique_length.
        split.
        -- intros Hne. split; [by apply Hcol|]. eauto.
        -- intros (_ & c' & Hc' & Hne). congruence.
      * injection Hg as <-. split; [done|]. intros [Hin' _].
        by apply Hcol in Hin'.
  - intros ->. destruct Hsubjs as (c & Hc & ->). split.
    + destruct igm as [g'|].
      * destruct g'; simpl in Hg.
        -- destruct (bool_decide ("subj_idx" ∈ dtype_names new_data)) eqn:E;
             [|done].
           apply bool_decide_eq_true in E. by apply Hcol.
        -- done.
      * case_decide as Hin; [by apply Hcol|done].
    + exists c. split; [done|].
      split; [apply np_unique_NoDup|].
      split; [apply np_unique_Sorted|]. intros s. apply np_unique_elem.
Qed.

(** ** What the partitioner emits *)

Lemma filter_all {A : Type} (P : A → Prop) `{!∀ x, Decision (P x)} (l : list A) :
  Forall P l → filter P l = l.
Proof.
  induction 1 as [|x l Hx Hl IH]; [done|].
  by rewrite filter_cons_True, IH.
Qed.

Section PartitionerMoreFacts.
Variable str_element : key → string.
Variable self : Hierarchical.
Variable params_include : ordered_params.

(** The loop over the unique elements, branch by branch: each element
    yields the terminals of one recursive call, made on the rows that
    carry the element, with the tag path extended by the element and the
    popped parameter bound to its node under the element's tag. *)
Lemma depend_loop_inv (data : recarray) (param_name : string)
    (col_name : list string) (dep_name : list key)
    (recurse : recarray → gmap string pyobj → list key → result (list terminal)) :
  ∀ depend_elements params ts,
    depend_loop str_element self params_include data param_name col_name
      dep_name recurse depend_elements params = Ok ts →
    ∃ tss, ts = mjoin tss ∧
      Forall2 (λ e ts_e, ∃ param nd params_e,
                 od_lookup params_include param_name = Some param ∧
                 tier_node self param (str_element e) = Ok nd ∧
                 params_e !! param_name = Some nd ∧
                 (∀ nm, nm ≠ param_name → params_e !! nm = params !! nm) ∧
                 recurse (rows_equal data col_name e) params_e (dep_name ++ [e])
                   = Ok ts_e)
        depend_elements tss.
Proof.
  induction depend_elements as [|e es IH]; intros params ts Hloop.
  - simpl in Hloop. injection Hloop as <-. exists []. by split.
  - simpl in Hloop.
    apply bind_Ok in Hloop as (param & Hparam & Hloop).
    apply bind_Ok in Hloop as (nd & Hnd & Hloop).
    apply bind_Ok in Hloop as (data_param & Hdp & Hloop).
    apply bind_Ok in Hloop as (data_params & Hdps & Hloop).
    injection Hloop as <-.
    destruct (IH _ _ Hdps) as (tss & -> & Hall).
    exists (data_param :: tss). split; [done|]. constructor.
    + exists param, nd, (<[param_name := nd]> params).
      unfold od_getitem in Hparam.
      destruct (od_lookup params_include param_name); [|done].
      injection Hparam as ->. repeat split; try done.
      * by rewrite lookup_insert_eq.
      * intros nm Hne. by rewrite lookup_insert_ne.
    + eapply Forall2_impl; [exact Hall|]. simpl.
      intros e' ts_e (param' & nd' & params_e & ? & ? & ? & Hframe & ?).
      exists param', nd', params_e. repeat split; try done.
      intros nm Hne. rewrite Hframe by done. by rewrite lookup_insert_ne.
Qed.

Lemma getitem_cols_unique_inv (data : recarray) (cols : list string)
    (col : list key) (e : key) :
  getitem_cols data cols = Ok col →
  e ∈ np_unique_keys col →
  ∃ row, row ∈ rows data ∧ row_key (dtype_names data) cols row = Some e.
Proof.
  unfold getitem_cols. destruct cols as [|c0 cols].
  { intros [= <-] He. apply (proj1 (np_unique_keys_elem _ _)) in He.
    by apply elem_of_nil in He. }
  destruct (mapM _ (rows data)) as [c|] eqn:E; [|done].
  intros [= ->] He. apply (proj1 (np_unique_keys_elem _ _)) in He.
  apply mapM_Some in E. apply list_elem_of_lookup in He as [i Hi].
  destruct (Forall2_lookup_r _ _ _ _ _ E Hi) as (row & Hrow & Hkey).
  exists row. split; [by eapply list_elem_of_lookup_2|done].
Qed.

(** Every terminal and the rows it holds. *)
Lemma _get_data_depend_rec_path (depends_on : list (string * list string)) :
  ∀ data params dep_name ts,
    _get_data_depend_rec str_element self params_include data depends_on
      params dep_name = Ok ts →
    Forall (λ t, ∃ path,
              terminal_dep_name t = dep_name ++ path ∧
              length path = length depends_on ∧
              dtype_names (terminal_data t) = dtype_names data ∧
              rows (terminal_data t) =
                filter (λ row, row_on_path (dtype_names data) depends_on path row
                               = true) (rows data)) ts.
Proof.
  induction depends_on as [|[param_name col_name] depends_on' IH];
    intros data params dep_name ts Hrec.
  - simpl in Hrec. injection Hrec as <-. constructor; [|constructor].
    exists []. simpl. rewrite app_nil_r. repeat split; try done.
    symmetry. apply filter_all. by apply Forall_forall.
  - simpl in Hrec. apply bind_Ok in Hrec as (col & Hcol & Hloop).
    destruct (depend_loop_inv _ _ _ _ _ _ _ _ Hloop) as (tss & -> & Hall).
    apply Forall_forall. intros t Ht.
    apply list_elem_of_join in Ht as (ts_e & Ht & Hts_e).
    apply list_elem_of_lookup in Hts_e as [i Hi].
    destruct (Forall2_lookup_r _ _ _ _ _ Hall Hi)
      as (e & He & param & nd & params_e & _ & _ & _ & _ & Hrec).
    apply IH in Hrec. rewrite Forall_forall in Hrec.
    destruct (Hrec t Ht) as (path & Hname & Hlen & Hnames & Hrows).
    exists (e :: path). simpl. split; [by rewrite Hname, <- app_assoc|].
    split; [by rewrite Hlen|]. split; [done|].
    rewrite Hrows. unfold rows_equal, select_rows. simpl.
    rewrite list_filter_filter. apply list_filter_iff. intros row.
    rewrite andb_true_iff. tauto.
Qed.
End PartitionerMoreFacts.

Section PartitionerTheorems.
Variable str_element : key → string.
Variable self : Hierarchical.
Variable params_include : ordered_params.

(** X3.  Every terminal carries the tag path it was given extended by
    one element per dependency, keeps the fields of the input, and holds
    exactly the rows of the input, in their order, whose cells in the
    columns of each dependency are the corresponding element of the
    path. *)
Theorem terminals_hold_rows_on_path (data : recarray)
    (depends_on : list (string * list string)) (params : gmap string pyobj)
    (dep_name : list key) (ts : list terminal) (t : terminal) :
  _get_data_depend_rec str_element self params_include data depends_on
    params dep_name = Ok ts →
  t ∈ ts →
  ∃ path,
    terminal_dep_name t = dep_name ++ path ∧
    length path = length depends_on ∧
    dtype_names (terminal_data t) = dtype_names data ∧
    rows (terminal_data t) =
      filter (λ row, row_on_path (dtype_names data) depends_on path row = true)
        (rows data).
Proof.
  intros Hrec Ht.
  pose proof (_get_data_depend_rec_path _ _ _ _ _ _ _ _ Hrec) as Hall.
  rewrite Forall_forall in Hall. by apply Hall.
Qed.

Lemma rows_equal_nonempty (data : recarray) (cols : list string)
    (col : list key) (e : key) :
  getitem_cols data cols = Ok col →
  e ∈ np_unique_keys col →
  rows (rows_equal data cols e) ≠ [].
Proof.
  intros Hcol He.
  destruct (getitem_cols_unique_inv _ _ _ _ Hcol He) as (row & Hrow & Hkey).
  intros Hnil.
  assert (Hin : row ∈ rows (rows_equal data cols e)).
  { unfold rows_equal, select_rows. simpl. apply list_elem_of_filter.
    split; [by apply bool_decide_eq_true_2|done]. }
  rewrite Hnil in Hin. by apply elem_of_nil in Hin.
Qed.

Lemma _get_data_depend_rec_nonempty (depends_on : list (string * list string)) :
  ∀ data params dep_name ts,
    _get_data_depend_rec str_element self params_include data depends_on
      params dep_name = Ok ts →
    (rows data ≠ [] ∨ depends_on ≠ []) →
    Forall (λ t, rows (terminal_data t) ≠ []) ts.
Proof.
  induction depends_on as [|[param_name col_name] depends_on' IH];
    intros data params dep_name ts Hrec Hne.
  - simpl in Hrec. injection Hrec as <-. constructor; [|constructor].
    by destruct Hne.
  - simpl in Hrec. apply bind_Ok in Hrec as (col & Hcol & Hloop).
    destruct (depend_loop_inv _ _ _ _ _ _ _ _ _ _ _ Hloop) as (tss & -> & Hall).
    apply Forall_forall. intros t Ht.
    apply list_elem_of_join in Ht as (ts_e & Ht & Hts_e).
    apply list_elem_of_lookup in Hts_e as [i Hi].
    destruct (Forall2_lookup_r _ _ _ _ _ Hall Hi)
      as (e & He & param & nd & params_e & _ & _ & _ & _ & Hrec).
    apply IH in Hrec.
    + rewrite Forall_forall in Hrec. by apply Hrec.
    + left. eapply rows_equal_nonempty; [done|].
      by eapply list_elem_of_lookup_2.
Qed.

(** X4.  With at least one dependency no terminal is empty: a partition
    exists only for combinations of values that occur in the data.  In
    particular an input without rows yields no terminal at all, where
    without dependencies it yields the one terminal holding the input. *)
Theorem no_empty_partition (data : recarray)
    (depends_on : list (string * list string)) (params : gmap string pyobj)
    (dep_name : list key) (ts : list terminal) :
  _get_data_depend_rec str_element self params_include data depends_on
    params dep_name = Ok ts →
  depends_on ≠ [] →
  (∀ t, t ∈ ts → rows (terminal_data t) ≠ []) ∧
  (rows data = [] → ts = []).
Proof.
  intros Hrec Hne. split.
  - apply Forall_forall. eapply _get_data_depend_rec_nonempty; eauto.
  - intros Hnil. destruct depends_on as [|[param_name col_name] rest]; [done|].
    simpl in Hrec. apply bind_Ok in Hrec as (col & Hcol & Hloop).
    unfold getitem_cols in Hcol.
    destruct col_name; [|rewrite Hnil in Hcol; simpl in Hcol];
      injection Hcol as <-; simpl in Hloop; by injection Hloop as <-.
Qed.

Lemma NoDup_join_prefixed (dep_name : list key) (elems : list key)
    (tss : list (list terminal)) :
  NoDup elems →
  Forall2 (λ e ts_e,
             NoDup (terminal_dep_name <$> ts_e) ∧
             Forall (λ t, ∃ path, terminal_dep_name t = dep_name ++ e :: path)
               ts_e) elems tss →
  NoDup (terminal_dep_name <$> mjoin tss).
Proof.
  intros Hnd Hall. induction Hall as [|e ts_e es tss [Hts Hpre] Hall IH].
  - constructor.
  - apply NoDup_cons in Hnd as [Hfresh Hnd].
    change (mjoin (ts_e :: tss)) with (ts_e ++ mjoin tss).
    rewrite fmap_app. apply NoDup_app. split; [done|]. split; [|by apply IH].
    intros nm Hin1 Hin2.
    apply list_elem_of_fmap in Hin1 as (t1 & -> & Ht1).
    apply list_elem_of_fmap in Hin2 as (t2 & Heq & Ht2).
    rewrite Forall_forall in Hpre. destruct (Hpre t1 Ht1) as (p1 & Hp1).
    apply list_elem_of_join in Ht2 as (ts2 & Ht2 & Hts2).
    apply list_elem_of_lookup in Hts2 as [i Hi].
    destruct (Forall2_lookup_r _ _ _ _ _ Hall Hi) as (e' & He' & _ & Hpre').
    rewrite Forall_forall in Hpre'. destruct (Hpre' t2 Ht2) as (p2 & Hp2).
    rewrite Hp1, Hp2 in Heq. apply app_inv_head in Heq.
    injection Heq as -> _. apply Hfresh. by eapply list_elem_of_lookup_2.
Qed.

(** X5.  No two terminals carry the same tag path. *)
Theorem terminal_paths_distinct (depends_on : list (string * list string)) :
  ∀ data params dep_name ts,
    _get_data_depend_rec str_element self params_include data depends_on
      params dep_name = Ok ts →
    NoDup (terminal_dep_name <$> ts).
Proof.
  induction depends_on as [|[param_name col_name] depends_on' IH];
    intros data params dep_name ts Hrec.
  - simpl in Hrec. injection Hrec as <-. simpl.
    apply NoDup_singleton.
  - simpl in Hrec. apply bind_Ok in Hrec as (col & Hcol & Hloop).
    destruct (depend_loop_inv _ _ _ _ _ _ _ _ _ _ _ Hloop) as (tss & -> & Hall).
    apply (NoDup_join_prefixed dep_name (np_unique_keys col));
      [apply np_unique_keys_NoDup|].
    eapply Forall2_impl; [exact Hall|]. simpl.
    intros e ts_e (param & nd & params_e & _ & _ & _ & _ & Hrec).
    split; [by eapply IH|].
    pose proof (_get_data_depend_rec_path _ _ _ _ _ _ _ _ Hrec) as Hpath.
    eapply Forall_impl; [exact Hpath|]. simpl.
    intros t (path & Hname & _). exists path. by rewrite Hname, <- app_assoc.
Qed.

Lemma _get_data_depend_rec_bindings (depends_on : list (string * list string)) :
  NoDup depends_on.*1 →
  ∀ data params dep_name ts,
    _get_data_depend_rec str_element self params_include data depends_on
      params dep_name = Ok ts →
    Forall (λ t, ∃ path,
              terminal_dep_name t = dep_name ++ path ∧
              Forall2 (λ dep k, ∃ param nd,
                         od_lookup params_include dep.1 = Some param ∧
                         tier_node self param (str_element k) = Ok nd ∧
                         terminal_params t !! dep.1 = Some nd)
                depends_on path ∧
              ∀ nm, nm ∉ depends_on.*1 →
                    terminal_params t !! nm = params !! nm) ts.
Proof.
  induction depends_on as [|[param_name col_name] depends_on' IH];
    intros Hnd data params dep_name ts Hrec.
  - simpl in Hrec. injection Hrec as <-. constructor; [|constructor].
    exists []. rewrite app_nil_r. repeat split; try done; try constructor.
  - simpl in Hnd. apply NoDup_cons in Hnd as [Hfresh Hnd].
    simpl in Hrec. apply bind_Ok in Hrec as (col & Hcol & Hloop).
    destruct (depend_loop_inv _ _ _ _ _ _ _ _ _ _ _ Hloop) as (tss & -> & Hall).
    apply Forall_forall. intros t Ht.
    apply list_elem_of_join in Ht as (ts_e & Ht & Hts_e).
    apply list_elem_of_lookup in Hts_e as [i Hi].
    destruct (Forall2_lookup_r _ _ _ _ _ Hall Hi)
      as (e & He & param & nd & params_e & Hparam & Hnode & Hbound & Hframe
          & Hrec).
    apply (IH Hnd) in Hrec. rewrite Forall_forall in Hrec.
    destruct (Hrec t Ht) as (path & Hname & Hdeps & Hframe').
    exists (e :: path). split; [by rewrite Hname, <- app_assoc|]. split.
    + constructor; [|done]. exists param, nd. simpl.
      repeat split; try done. by rewrite Hframe'.
    + intros nm Hnm. simpl in Hnm. apply not_elem_of_cons in Hnm as [Hne Hnm].
      rewrite Hframe' by done. by apply Hframe.
Qed.

(** X6.  When the dependency map has no parameter twice, every terminal
    binds each parameter of the map to the node that parameter holds
    under the string of the terminal's path element for it (its subject
    array in a group model when it creates subject nodes, its group node
    otherwise), and binds every other name as the bindings handed in
    did. *)
Theorem terminals_bind_dependent_params (data : recarray)
    (depends_on : list (string * list string)) (params : gmap string pyobj)
    (dep_name : list key) (ts : list terminal) (t : terminal) :
  NoDup depends_on.*1 →
  _get_data_depend_rec str_element self params_include data depends_on
    params dep_name = Ok ts →
  t ∈ ts →
  ∃ path,
    terminal_dep_name t = dep_name ++ path ∧
    Forall2 (λ dep k, ∃ param nd,
               od_lookup params_include dep.1 = Some param ∧
               tier_node self param (str_element k) = Ok nd ∧
               terminal_params t !! dep.1 = Some nd)
      depends_on path ∧
    ∀ nm, nm ∉ depends_on.*1 → terminal_params t !! nm = params !! nm.
Proof.
  intros Hnd Hrec Ht.
  pose proof (_get_data_depend_rec_bindings _ Hnd _ _ _ _ Hrec) as Hall.
  rewrite Forall_forall in Hall. by apply Hall.
Qed.

Lemma independent_params_spec (ps : ordered_params) :
  NoDup ps.*1 →
  ∀ params0 params,
    independent_params self ps params0 = Ok params →
    ∀ nm,
      match od_lookup ps nm with
      | Some param =>
          if bool_decide (nm ∈ (depends_on self).*1) || is_bottom_node param
          then params !! nm = params0 !! nm
          else ∃ nd, tier_node self param "" = Ok nd ∧ params !! nm = Some nd
      | None => params !! nm = params0 !! nm
      end.
Proof.
  induction ps as [|[nm0 param0] ps IH]; intros Hnd params0 params Hind nm.
  - simpl in Hind. by injection Hind as <-.
  - simpl in Hnd. apply NoDup_cons in Hnd as [Hfresh Hnd]. simpl in Hind.
    assert (Hnone : od_lookup ps nm0 = None).
    { clear -Hfresh. induction ps as [|[k v] ps IH]; simpl; [done|].
      simpl in Hfresh. apply not_elem_of_cons in Hfresh as [Hne Hfresh].
      rewrite decide_False by done. by apply IH. }
    simpl. destruct (decide (nm0 = nm)) as [->|Hne].
    + destruct (bool_decide (nm ∈ (depends_on self).*1) || is_bottom_node param0)
        eqn:E.
      * specialize (IH Hnd _ _ Hind nm). by rewrite Hnone in IH.
      * apply bind_Ok in Hind as (nd & Hnode & Hind).
        specialize (IH Hnd _ _ Hind nm). rewrite Hnone in IH.
        exists nd. split; [done|]. by rewrite IH, lookup_insert_eq.
    + destruct (bool_decide (nm0 ∈ (depends_on self).*1) || is_bottom_node param0)
        eqn:E.
      * apply (IH Hnd _ _ Hind nm).
      * apply bind_Ok in Hind as (nd & Hnode & Hind).
        specialize (IH Hnd _ _ Hind nm).
        rewrite lookup_insert_ne in IH by done. exact IH.
Qed.

(** X7.  When [params_include] and the dependency map have no name
    twice, the names every terminal of [_get_data_depend] binds are the
    parameters of the dependency map and the included parameters that
    are not bottom parameters, and nothing else; an included parameter
    that is neither is bound to the node it holds under the empty tag. *)
Theorem terminals_bind_all_parameters (ts : list terminal) (t : terminal) :
  NoDup params_include.*1 →
  NoDup (depends_on self).*1 →
  _get_data_depend str_element self params_include = Ok ts →
  t ∈ ts →
  (∀ nm, is_Some (terminal_params t !! nm) ↔
         nm ∈ (depends_on self).*1 ∨
         ∃ param, od_lookup params_include nm = Some param ∧
                  is_bottom_node param = false) ∧
  (∀ nm param, od_lookup params_include nm = Some param →
     is_bottom_node param = false → nm ∉ (depends_on self).*1 →
     ∃ nd, tier_node self param "" = Ok nd ∧
           terminal_params t !! nm = Some nd).
Proof.
  intros Hps Hdeps Hget Ht. unfold _get_data_depend in Hget.
  apply bind_Ok in Hget as (params & Hind & Hrec).
  pose proof (independent_params_spec _ Hps _ _ Hind) as Hinit.
  pose proof (_get_data_depend_rec_bindings _ Hdeps _ _ _ _ Hrec) as Hall.
  rewrite Forall_forall in Hall.
  destruct (Hall t Ht) as (path & _ & Hbound & Hframe).
  assert (Hindep : ∀ nm param, od_lookup params_include nm = Some param →
            is_bottom_node param = false → nm ∉ (depends_on self).*1 →
            ∃ nd, tier_node self param "" = Ok nd ∧
                  terminal_params t !! nm = Some nd).
  { intros nm param Hparam Hbot Hnm. specialize (Hinit nm).
    rewrite Hparam, Hbot, bool_decide_eq_false_2 in Hinit by done.
    simpl in Hinit. destruct Hinit as (nd & Hnode & Hnd).
    exists nd. split; [done|]. by rewrite Hframe. }
  split; [|exact Hindep].
  intros nm. split.
  - intros Hsome. destruct (decide (nm ∈ (depends_on self).*1)) as [|Hnm];
      [by left|right].
    rewrite Hframe in Hsome by done. specialize (Hinit nm).
    destruct (od_lookup params_include nm) as [param|].
    + exists param. split; [done|].
      rewrite bool_decide_eq_false_2 in Hinit by done. simpl in Hinit.
      destruct (is_bottom_node param); [|done].
      rewrite Hinit, lookup_empty in Hsome. by destruct Hsome.
    + rewrite Hinit, lookup_empty in Hsome. by destruct Hsome.
  - intros [Hnm|(param & Hparam & Hbot)].
    + apply list_elem_of_fmap in Hnm as ([nm' cols] & -> & Hin).
      apply list_elem_of_lookup in Hin as [i Hi].
      destruct (Forall2_lookup_l _ _ _ _ _ Hbound Hi)
        as (k & _ & param & nd & _ & _ & Hnd). simpl in *. eauto.
    + destruct (decide (nm ∈ (depends_on self).*1)) as [Hnm|Hnm].
      * apply list_elem_of_fmap in Hnm as ([nm' cols] & -> & Hin).
        apply list_elem_of_lookup in Hin as [i Hi].
        destruct (Forall2_lookup_l _ _ _ _ _ Hbound Hi)
          as (k & _ & param' & nd & _ & _ & Hnd). simpl in *. eauto.
      * destruct (Hindep nm param Hparam Hbot Hnm) as (nd & _ & Hnd). eauto.
Qed.
End PartitionerTheorems.

(** ** The data the bottom nodes are built on *)

Lemma len_0_rows (data : recarray) : len data = 0%nat → rows data = [].
Proof. unfold len. by destruct (rows data). Qed.

(** Leaving out the subjects without rows loses no row. *)
Lemma subjects_with_rows_join (data : recarray) (subjs : list cell) :
  ∀ i,
    mjoin ((λ js : nat * cell, rows (rows_of_subj data js.2))
             <$> subjects_with_rows data i subjs)
    = mjoin ((λ s, rows (rows_of_subj data s)) <$> subjs).
Proof.
  induction subjs as [|s subjs IH]; intros i; [done|].
  rewrite subjects_with_rows_cons. case_decide as Hz.
  - rewrite IH. rewrite fmap_cons.
    change (mjoin (?x :: ?l)) with (x ++ mjoin l).
    by rewrite (len_0_rows _ Hz).
  - rewrite !fmap_cons.
    change (mjoin (?x :: ?l)) with (x ++ mjoin l). simpl. by rewrite IH.
Qed.

(** When every row belongs to one of the listed subjects, the rows of
    the subjects rearrange the rows of the data. *)
Lemma subject_rows_partition (data : recarray) (subjs : list cell) :
  NoDup subjs →
  (∀ row, row ∈ rows data →
     ∃ s, s ∈ subjs ∧ row_field (dtype_names data) row "subj_idx" = Some s) →
  mjoin ((λ s, rows (rows_of_subj data s)) <$> subjs) ≡ₚ rows data.
Proof.
  intros Hnd Hcover. unfold rows_of_subj, select_rows. simpl.
  apply (join_filter_partition
           (λ s row, bool_decide
              (row_field (dtype_names data) row "subj_idx" = Some s) = true)).
  - done.
  - intros row Hrow. destruct (Hcover row Hrow) as (s & Hs & Hf).
    exists s. split; [done|]. by apply bool_decide_eq_true_2.
  - intros row s1 s2 H1 H2.
    apply bool_decide_eq_true_1 in H1, H2. congruence.
Qed.

Lemma getitem_col_row (data : recarray) (col : string) (c : list cell)
    (row : list cell) :
  getitem_col data col = Ok c →
  row ∈ rows data →
  ∃ s, s ∈ c ∧ row_field (dtype_names data) row col = Some s.
Proof.
  unfold getitem_col.
  destruct (mapM _ (rows data)) as [c'|] eqn:E; [|done].
  intros [= ->] Hrow. apply mapM_Some in E.
  apply list_elem_of_lookup in Hrow as [i Hi].
  destruct (Forall2_lookup_l _ _ _ _ _ E Hi) as (s & Hs & Hf).
  exists s. split; [by eapply list_elem_of_lookup_2|done].
Qed.

Section BottomDataFacts.
Variable str_element : key → string.
Variable str_path : list key → string.
Variable get_bottom_node :
  Param → string → option nat → recarray → gmap string pyobj → result node.

(** X8.  On a model the constructor built, every dependency of which
    lists at least one column, when
    [_set_bottom_nodes(param, init=False)] returns, the data sets handed
    to [get_bottom_node], put one after the other, are a rearrangement
    of the rows of the model's data: every row is observed by exactly
    one bottom node, in a group model as in any other. *)
Theorem bottom_nodes_observe_every_row (data0 : recarray) (igm : option bool)
    (deps : option depends_dict) (inc : list string) (self : Hierarchical)
    (params_include final : ordered_params) (pname : string)
    (calls : list bottom_call) :
  (__init__ data0 igm deps inc).2 = Ok self →
  Forall (λ dep, dep.2 ≠ []) (depends_on self) →
  _set_bottom_nodes str_element str_path get_bottom_node self
    params_include pname false = Ok (final, calls) →
  mjoin ((λ c, rows (call_data c)) <$> calls) ≡ₚ rows (data self).
Proof.
  intros Hself Hcols Hset. unfold _set_bottom_nodes in Hset.
  apply bind_Ok in Hset as (data_dep & Hdep & Hloop).
  destruct (bottom_loop_spec _ _ _ _ _ _ _ _ _ Hloop) as (Hkeys & _).
  unfold _get_data_depend in Hdep.
  apply bind_Ok in Hdep as (params & _ & Hrec).
  pose proof (_get_data_depend_rec_rows _ _ _ _ Hcols _ _ _ _ Hrec) as Hperm.
  pose proof (_get_data_depend_rec_path _ _ _ _ _ _ _ _ Hrec) as Hpath.
  assert (Hcalls : (λ c, rows (call_data c)) <$> calls
                 = (λ k : string * option nat * recarray, rows k.2)
                     <$> (call_key <$> calls)).
  { rewrite <- list_fmap_compose. done. }
  rewrite Hcalls, Hkeys. clear Hcalls Hkeys Hloop.
  rewrite <- Hperm. unfold terminal_rows. clear Hperm Hrec.
  destruct (is_group_model self) eqn:Hgroup.
  - (* a group model: the subjects split every partition *)
    destruct (init_Ok_inv _ _ _ _ _ Hself)
      as (new_data & g & _ & _ & Hdata & Hgm & _ & Hsubjs & _).
    rewrite Hgroup in Hgm. subst g. destruct Hsubjs as (c & Hc & Hsub).
    rewrite <- Hdata in Hc.
    induction Hpath as [|t ts (path & _ & _ & Hnames & Hrows) Hpath IH];
      [done|].
    rewrite bind_cons, fmap_app, join_app, fmap_cons.
    change (mjoin (?x :: ?l)) with (x ++ mjoin l).
    f_equiv; [|exact IH].
    unfold expected_calls. rewrite Hgroup.
    trans (mjoin ((λ js : nat * cell, rows (rows_of_subj (terminal_data t) js.2))
                    <$> subjects_with_rows (terminal_data t) 0 (_subjs self)));
      [by rewrite <- list_fmap_compose|].
    rewrite (subjects_with_rows_join (terminal_data t) (_subjs self) 0).
    apply subject_rows_partition.
    + rewrite Hsub. apply np_unique_NoDup.
    + intros row Hrow. rewrite Hrows in Hrow.
      apply list_elem_of_filter in Hrow as [_ Hrow].
      destruct (getitem_col_row _ _ _ _ Hc Hrow) as (s & Hs & Hf).
      exists s. split; [rewrite Hsub; by apply np_unique_elem|].
      by rewrite Hnames.
  - induction data_dep as [|t ts IH]; [done|].
    apply Forall_cons in Hpath as [_ Hpath].
    rewrite bind_cons, fmap_app, join_app, fmap_cons.
    change (mjoin (?x :: ?l)) with (x ++ mjoin l).
    f_equiv; [|by apply IH].
    unfold expected_calls. rewrite Hgroup. simpl. by rewrite app_nil_r.
Qed.
End BottomDataFacts.

(** ** More on [map] *)

Section MapMoreFacts.
Variable attempt : nat → result (node_table * MAP).

(** X9.  An attempt that raises anything but [ZeroProbability] ends the
    run at once, whatever is left of the retry bound: after [n] failures
    with [ZeroProbability] that the bound allows, the exception of the
    next attempt reaches the caller unchanged and no further attempt is
    made; when the run is the first one of [map], it ends [map]. *)
Theorem map_run_other_exception (max_retry : Z) (n k : nat) (e : exn) :
  fails_zero_probability attempt k n →
  (n < Nat.max 1 (Z.to_nat max_retry))%nat →
  attempt (k + n)%nat = Raise e →
  is_ZeroProbability e = false →
  map_run attempt (Z.to_nat max_retry) k = (Raise e, S (k + n)) ∧
  (k = 0%nat → ∀ runs warn_crit live0,
     (1 ≤ runs)%Z →
     map attempt runs max_retry warn_crit live0 = (Raise e, S n)).
Proof.
  intros Hf Hlt He Hzp.
  assert (Hrun : map_run attempt (Z.to_nat max_retry) k = (Raise e, S (k + n))).
  { rewrite map_run_max, (map_run_skip _ _ k n Hlt Hf).
    by rewrite map_run_eq, He, Hzp. }
  split; [done|].
  intros -> runs warn_crit live0 Hruns. unfold map.
  destruct (Z.to_nat runs) as [|runs'] eqn:E; [lia|].
  by rewrite (map_runs_raise attempt runs' max_retry 0 (S (0 + n)) e live0 []).
Qed.

(** X10.  With [runs] zero or negative no attempt is made and [map]
    raises [IndexError]: there is no fit to select. *)
Theorem map_without_runs (runs max_retry warn_crit : Z)
    (live0 : node_table) :
  (runs ≤ 0)%Z →
  map attempt runs max_retry warn_crit live0
  = (Raise (IndexError "list index out of range"), 0%nat).
Proof.
  intros Hruns. unfold map.
  replace (Z.to_nat runs) with 0%nat by lia. done.
Qed.

Lemma map_run_attempts (M k : nat) :
  (k < (map_run attempt M k).2 ≤ k + Nat.max 1 M)%nat.
Proof.
  rewrite map_run_max.
  assert (H : ∀ m k, (k < (map_run attempt (S m) k).2 ≤ k + S m)%nat).
  { clear. induction m as [|m IH]; intros k; rewrite map_run_eq.
    - destruct (attempt k) as [r|e]; [simpl; lia|].
      destruct (is_ZeroProbability e); simpl; lia.
    - destruct (attempt k) as [r|e]; [simpl; lia|].
      destruct (is_ZeroProbability e); [|simpl; lia].
      specialize (IH (S k)). lia. }
  destruct (Nat.max 1 M) as [|m] eqn:E; [lia|]. apply H.
Qed.

Lemma map_runs_attempts (runs : nat) (max_retry : Z) :
  ∀ k live maps,
    ((map_runs attempt runs max_retry k live maps).2
     ≤ k + runs * Nat.max 1 (Z.to_nat max_retry))%nat ∧
    (∀ r, (map_runs attempt runs max_retry k live maps).1 = Ok r →
          (k + runs ≤ (map_runs attempt runs max_retry k live maps).2)%nat).
Proof.
  induction runs as [|runs IH]; intros k live maps; simpl; [split; [lia|]|].
  { intros _ _. lia. }
  pose proof (map_run_attempts (Z.to_nat max_retry) k) as Hrun.
  destruct (map_run attempt (Z.to_nat max_retry) k) as [[[live' m]|e] k'];
    simpl in *.
  - destruct (IH k' live' (maps ++ [m])) as [Hle Hge]. split; [lia|].
    intros r Hr. specialize (Hge r Hr). lia.
  - split; [lia|done].
Qed.

(** X11.  [map] makes at most [runs * max(1, max_retry)] attempts, and
    at least [runs] when it returns. *)
Theorem map_attempts_bounded (runs max_retry warn_crit : Z)
    (live0 : node_table) :
  ((map attempt runs max_retry warn_crit live0).2
   ≤ Z.to_nat runs * Nat.max 1 (Z.to_nat max_retry))%nat ∧
  (∀ out, (map attempt runs max_retry warn_crit live0).1 = Ok out →
          (Z.to_nat runs ≤ (map attempt runs max_retry warn_crit live0).2)%nat).
Proof.
  unfold map.
  destruct (map_runs_attempts (Z.to_nat runs) max_retry 0 live0 []) as [Hle Hge].
  destruct (map_runs attempt (Z.to_nat runs) max_retry 0 live0 [])
    as [[[live maps]|e] k]; simpl in *.
  - split; [lia|]. intros out _. specialize (Hge _ eq_refl). lia.
  - split; [lia|done].
Qed.
End MapMoreFacts.

Lemma last_insert_by_logp (m : MAP) (s : list MAP) :
  StronglySorted logp_le s →
  last (insert_by_logp m s) =
  match last s with
  | Some b => if (logp m <=? logp b)%Z then Some b else Some m
  | None => Some m
  end.
Proof.
  induction 1 as [|x s Hs IH Hall]; [done|]. simpl insert_by_logp.
  assert (Hlast : ∃ b, last (x :: s) = Some b ∧ (logp x ≤ logp b)%Z).
  { destruct (last (x :: s)) as [b|] eqn:E; [|by apply last_None in E].
    exists b. split; [done|]. destruct s as [|y s'].
    - injection E as <-. lia.
    - rewrite Forall_forall in Hall. apply (Hall b).
      apply last_Some_elem_of. exact E. }
  destruct Hlast as (b & Hb & Hxb). rewrite Hb.
  destruct (logp m <=? logp x)%Z eqn:E.
  - apply Z.leb_le in E.
    change (last (m :: x :: s)) with (last (x :: s)). rewrite Hb.
    by rewrite (proj2 (Z.leb_le (logp m) (logp b))) by lia.
  - apply Z.leb_gt in E.
    assert (Hne : insert_by_logp m s ≠ []).
    { destruct s as [|z s0]; [done|]. cbn [insert_by_logp].
      by destruct (logp m <=? logp z)%Z. }
    destruct (insert_by_logp m s) as [|y s'] eqn:Hins; [done|].
    change (last (x :: y :: s')) with (last (y :: s')). rewrite IH.
    destruct s as [|z s''].
    + simpl in *. injection Hb as <-.
      by rewrite (proj2 (Z.leb_gt (logp m) (logp x))) by lia.
    + change (last (x :: z :: s'')) with (last (z :: s'')) in Hb. by rewrite Hb.
Qed.

(** The fit [sorted(...)[-1]] picks: none is better, and those after it
    in the order of the runs are strictly worse. *)
Lemma last_sorted_by_logp (maps : list MAP) (best : MAP) :
  last (sorted_by_logp maps) = Some best →
  ∃ i, maps !! i = Some best ∧
       (∀ j m, maps !! j = Some m → (logp m ≤ logp best)%Z) ∧
       (∀ j m, (i < j)%nat → maps !! j = Some m → (logp m < logp best)%Z).
Proof.
  revert best. induction maps as [|m maps IH]; intros best; [done|].
  simpl sorted_by_logp.
  rewrite last_insert_by_logp by apply sorted_by_logp_sorted.
  destruct (last (sorted_by_logp maps)) as [b|] eqn:Hb.
  - destruct (IH b eq_refl) as (i & Hi & Hmax & Hlater).
    destruct (logp m <=? logp b)%Z eqn:E; intros [= <-].
    + apply Z.leb_le in E. exists (S i). split; [done|]. split.
      * intros [|j] m' Hm'; simpl in Hm'; [by injection Hm' as <-|eauto].
      * intros [|j] m' Hlt Hm'; [lia|]. simpl in Hm'.
        apply (Hlater j); [lia|done].
    + apply Z.leb_gt in E. exists 0%nat. split; [done|]. split.
      * intros [|j] m' Hm'; simpl in Hm'; [injection Hm' as <-; lia|].
        specialize (Hmax j m' Hm'). lia.
      * intros [|j] m' Hlt Hm'; [lia|]. simpl in Hm'.
        specialize (Hmax j m' Hm'). lia.
  - intros [= <-]. exists 0%nat. split; [done|].
    assert (maps = []) as ->.
    { apply last_None in Hb. apply nil_length_inv.
      by rewrite <- sorted_by_logp_length, Hb. }
    split.
    + intros [|j] m' Hm'; simpl in Hm'; [injection Hm' as <-; lia|done].
    + intros [|j] m' Hlt Hm'; [lia|done].
Qed.

(** X12.  Among fits with the same, highest log-posterior the one of
    the latest run is selected: the selected fit is one of the runs, no
    run is better, and every later run is strictly worse. *)
Theorem map_choose_latest_of_the_best (runs warn_crit : Z) (maps : list MAP)
    (best : MAP) (printed : list Z) :
  map_choose runs warn_crit maps = Ok (best, printed) →
  ∃ i, maps !! i = Some best ∧
       (∀ j m, maps !! j = Some m → (logp m ≤ logp best)%Z) ∧
       (∀ j m, (i < j)%nat → maps !! j = Some m → (logp m < logp best)%Z).
Proof.
  unfold map_choose. intros H.
  apply bind_Ok in H as (b & Hb & H).
  apply bind_Ok in H as (p & _ & H). injection H as <- _.
  apply last_sorted_by_logp. unfold last_item in Hb.
  destruct (last (sorted_by_logp maps)); [|done]. by injection Hb as ->.
Qed.

(** ** More on the copying of values *)

Lemma set_value_same (n : node) : set_value (value n) n = n.
Proof. by destruct n. Qed.

(** X13.  Copying the values adds no entry to the table and removes
    none, and it changes neither the name nor the observed flag of a
    node: only the values of nodes move; an array or [None] in the
    table stays as it is. *)
Theorem set_values_keeps_nodes (items : list (string * pyobj))
    (live live' : node_table) :
  set_values items live = Ok live' →
  ∀ nm,
    match live !! nm with
    | Some (PyNode l) => ∃ v, live' !! nm = Some (PyNode (set_value v l))
    | Some o => live' !! nm = Some o
    | None => live' !! nm = None
    end.
Proof.
  revert live. induction items as [|[nm0 o0] items IH]; intros live Hset nm.
  - simpl in Hset. injection Hset as <-.
    destruct (live !! nm) as [[|l|a]|] eqn:E; try done.
    exists (value l). by rewrite set_value_same.
  - simpl in Hset. apply bind_Ok in Hset as (obs & _ & Hset).
    destruct (negb obs); [|by apply IH].
    apply bind_Ok in Hset as (v & _ & Hset).
    apply bind_Ok in Hset as (l0 & Hl0 & Hset).
    apply bind_Ok in Hset as (l1 & Hl1 & Hset).
    unfold dict_getitem in Hl0.
    destruct (live !! nm0) as [x0|] eqn:E0; [|done]. injection Hl0 as ->.
    destruct l0 as [|l|a]; [done| |done]. injection Hl1 as <-.
    specialize (IH _ Hset nm).
    destruct (decide (nm0 = nm)) as [->|Hne].
    + rewrite lookup_insert_eq in IH. rewrite E0.
      destruct IH as [v' Hv]. by exists v'.
    + by rewrite lookup_insert_ne in IH.
Qed.

(** X14.  The copying returns exactly when every entry of the selected
    fit is a node and every non-observed one has a node of its name in
    the table.  Otherwise it raises: [AttributeError] for an entry
    that is an array or [None], [KeyError] with the name of a
    non-observed node that has no namesake, [AttributeError] when the
    namesake is an array or [None]. *)
Theorem set_values_returns_iff (items : list (string * pyobj))
    (live : node_table) :
  match set_values items live with
  | Ok _ =>
      ∀ nm o, (nm, o) ∈ items →
        ∃ nd, o = PyNode nd ∧
          (observed nd = false → ∃ l, live !! nm = Some (PyNode l))
  | Raise e =>
      ∃ nm o, (nm, o) ∈ items ∧
        match o with
        | PyNode nd =>
            observed nd = false ∧
            match live !! nm with
            | None => e = KeyError nm
            | Some (PyNode _) => False
            | Some _ => e = no_attribute "value"
            end
        | _ => e = no_attribute "observed"
        end
  end.
Proof.
  revert live. induction items as [|[nm0 o0] items IH]; intros live.
  - simpl. intros nm o Hin. by apply elem_of_nil in Hin.
  - destruct o0 as [|nd0|a0].
    { simpl. exists nm0, PyNone. split; [by left|done]. }
    2: { simpl. exists nm0, (PyArray a0). split; [by left|done]. }
    simpl. destruct (observed nd0) eqn:Hobs; simpl.
    + specialize (IH live). destruct (set_values items live) as [live'|e].
      * intros nm o Hin. apply elem_of_cons in Hin as [[= -> ->]|Hin];
          [|by apply IH].
        exists nd0. split; [done|]. congruence.
      * destruct IH as (nm & o & Hin & Ho). exists nm, o.
        split; [by right|done].
    + unfold dict_getitem.
      destruct (live !! nm0) as [[|l0|a0]|] eqn:E0; simpl.
      * exists nm0, (PyNode nd0). split; [by left|]. by rewrite E0.
      * specialize (IH (<[nm0:=PyNode (set_value (value nd0) l0)]> live)).
        destruct (set_values items _) as [live'|e].
        -- intros nm o Hin.
           apply elem_of_cons in Hin as [[= -> ->]|Hin].
           { exists nd0. split; [done|]. eauto. }
           destruct (IH nm o Hin) as (nd & -> & Hl).
           exists nd. split; [done|]. intros Hno.
           destruct (Hl Hno) as [l Hnm].
           destruct (decide (nm0 = nm)) as [->|Hne]; [eauto|].
           rewrite lookup_insert_ne in Hnm by done. eauto.
        -- destruct IH as (nm & o & Hin & Ho).
           exists nm, o. split; [by right|].
           destruct o as [|nd|a]; [done| |done].
           destruct Ho as [Hno Ho]. split; [done|].
           destruct (decide (nm0 = nm)) as [->|Hne].
           ++ by rewrite lookup_insert_eq in Ho.
           ++ by rewrite lookup_insert_ne in Ho.
      * exists nm0, (PyNode nd0). split; [by left|]. by rewrite E0.
      * exists nm0, (PyNode nd0). split; [by left|]. by rewrite E0.
Qed.

Section MapSelfCopy.
Variable attempt : nat → result (node_table * MAP).

Lemma set_values_self (g : node_table) :
  map_Forall (λ _ o, ∃ nd, o = PyNode nd) g →
  set_values (map_to_list g) g = Ok g.
Proof.
  intros Hnodes.
  destruct (set_values_total (map_to_list g) g) as [g' Hset].
  { intros nm o Hin. apply elem_of_map_to_list in Hin.
    destruct (Hnodes nm o Hin) as [nd ->]. exists nd. split; [done|]. eauto. }
  destruct (set_values_spec _ _ _ (NoDup_fst_map_to_list _) Hset)
    as [Hcopy Hkeep].
  rewrite Hset. f_equal. apply map_eq. intros nm.
  destruct (g !! nm) as [o|] eqn:E.
  - destruct (Hnodes nm o E) as [nd ->].
    destruct (observed nd) eqn:Hobs.
    + rewrite Hkeep; [done|]. intros nd' Hin.
      apply elem_of_map_to_list in Hin. congruence.
    + destruct (Hcopy nm (PyNode nd)) as (nd' & [= <-] & Hl).
      { by apply elem_of_map_to_list. }
      destruct (Hl Hobs) as (l & Hg & Hg').
      rewrite Hg'. rewrite E in Hg. injection Hg as <-.
      by rewrite set_value_same.
  - rewrite Hkeep; [done|]. intros nd' Hin.
    apply elem_of_map_to_list in Hin. congruence.
Qed.

(** X15.  When the container of the selected fit is the live table
    itself (the fit of the last run was the best one) and every entry
    of it is a node, the copying changes nothing: [map] returns with
    the table the last run left. *)
Theorem map_last_run_best (runs max_retry warn_crit : Z)
    (live0 live : node_table) (maps : list MAP) (k : nat)
    (best : MAP) (printed : list Z) :
  map_runs attempt (Z.to_nat runs) max_retry 0 live0 [] = (Ok (live, maps), k) →
  map_choose runs warn_crit maps = Ok (best, printed) →
  _dict_container best = live →
  map_Forall (λ _ o, ∃ nd, o = PyNode nd) live →
  map attempt runs max_retry warn_crit live0
  = (Ok {| max_map := best; nodes := live; warnings := printed |}, k).
Proof.
  intros Hruns Hchoose Hsame Hnodes. unfold map, map_select.
  rewrite Hruns, Hchoose. simpl. rewrite Hsame.
  by rewrite set_values_self.
Qed.
End MapSelfCopy.

(** ** More on the statistics cache *)

Section StatsMoreFacts.
Variable stats_obj : Type.
Variable mc_stats : nat → option Z → stats_obj.

(** X16.  Once statistics are cached, no call of [stats] computes
    again or changes the cache, whatever chains are asked for: a request
    for the cached chain returns the cached object, any other returns
    [None]. *)
Theorem stats_cache_never_replaced (st : stats_state stats_obj)
    (nchains c : Z) (s : stats_obj) (chains : list (option Z)) :
  mc_chains _ st = Some nchains →
  _stats_chain _ st = Some c →
  _stats _ st = Some s →
  (stats_calls mc_stats st chains).2 = st ∧
  (stats_calls mc_stats st chains).1 =
    (λ chain, if decide (default nchains chain = c)
              then Ok (Some s) else Ok None) <$> chains.
Proof.
  intros Hmc Hc Hs. induction chains as [|chain chains IH]; [done|].
  simpl. destruct (decide (default nchains chain = c)) as [Heq|Hne].
  - rewrite (stats_same_chain _ mc_stats st chain nchains c s) by done.
    destruct (stats_calls mc_stats st chains) as [rs st2]. simpl in *.
    destruct IH as [-> ->]. done.
  - rewrite (stats_other_chain _ mc_stats st chain nchains c) by done.
    destruct (stats_calls mc_stats st chains) as [rs st2]. simpl in *.
    destruct IH as [-> ->]. done.
Qed.
End StatsMoreFacts.

(** ** Full names *)

Lemma string_app_length (s t : string) :
  String.length (s +:+ t) = (String.length s + String.length t)%nat.
Proof. induction s as [|a s IH]; simpl; [done|]. by rewrite IH. Qed.

Lemma string_app_inv_r (s1 s2 u : string) : s1 +:+ u = s2 +:+ u → s1 = s2.
Proof.
  revert s2. induction s1 as [|a s1 IH]; intros [|b s2] H; simpl in H.
  - done.
  - apply (f_equal String.length) in H.
    rewrite ?string_app_length in H. simpl in H.
    rewrite ?string_app_length in H. lia.
  - apply (f_equal String.length) in H.
    rewrite ?string_app_length in H. simpl in H.
    rewrite ?string_app_length in H. lia.
  - injection H as -> H. f_equal. by apply IH.
Qed.

(** X17.  For one parameter name, full names tell the indices apart
    under one tag and the tags apart under one index: the subject nodes
    built for one tag get pairwise different names. *)
Theorem get_full_name_distinct (name : string) :
  (∀ tag i j,
     get_full_name name tag (Some i) = get_full_name name tag (Some j) →
     i = j) ∧
  (∀ idx t t',
     get_full_name name (Some t) idx = get_full_name name (Some t') idx →
     t = t').
Proof.
  split.
  - intros [t|] i j H; simpl in H.
    + apply (inj (String.app name)) in H. apply (inj (String.app t)) in H.
      by apply (inj pretty) in H.
    + apply (inj (String.app name)) in H. by apply (inj pretty) in H.
  - intros [i|] t t' H; simpl in H.
    + apply (inj (String.app name)) in H. by apply string_app_inv_r in H.
    + by apply (inj (String.app name)) in H.
Qed.

(** ** The tiers [_create()] builds *)

Lemma od_lookup_Some_elem {V : Type} (d : list (string * V)) (k : string) (v : V) :
  od_lookup d k = Some v → (k, v) ∈ d.
Proof.
  induction d as [|[k0 v0] d IH]; simpl; [done|].
  case_decide as Hk; [intros [= <-]; subst; by left|].
  intros H. right. by apply IH.
Qed.

Lemma od_lookup_elem_NoDup {V : Type} (d : list (string * V)) (k : string) (v : V) :
  NoDup d.*1 → (k, v) ∈ d → od_lookup d k = Some v.
Proof.
  induction d as [|[k0 v0] d IH]; simpl; intros Hnd Hin;
    [by apply elem_of_nil in Hin|].
  apply NoDup_cons in Hnd as [Hfresh Hnd].
  apply elem_of_cons in Hin as [[= -> ->]|Hin]; [by rewrite decide_True|].
  rewrite decide_False; [by apply IH|].
  intros ->. apply Hfresh. apply list_elem_of_fmap. by exists (k, v).
Qed.

Section TiersFacts.
Variable str_element : key → string.
Variable get_group_node : Param → string → option recarray → result node.
Variable get_var_node : Param → string → recarray → result node.
Variable get_subj_node :
  Param → pyobj → pyobj → string → nat → recarray → result node.
Variable self : Hierarchical.

(** The loop over the subjects fills the slots from [i] on and leaves
    everything else of the descriptor alone. *)
Lemma subj_nodes_loop_spec (tag : string) (data : recarray) (subjs : list cell) :
  ∀ i param param' a,
    subj_nodes_loop get_subj_node tag data subjs i param = Ok param' →
    subj_nodes param !! tag = Some (PyArray a) →
    name param' = name param ∧
    create_group_node param' = create_group_node param ∧
    create_subj_nodes param' = create_subj_nodes param ∧
    is_bottom_node param' = is_bottom_node param ∧
    optional param' = optional param ∧
    group_nodes param' = group_nodes param ∧
    var_nodes param' = var_nodes param ∧
    (∀ tag', tag' ≠ tag → subj_nodes param' !! tag' = subj_nodes param !! tag') ∧
    ∃ a', subj_nodes param' !! tag = Some (PyArray a') ∧
          length a' = length a ∧
          (∀ j, (j < i)%nat → a' !! j = a !! j) ∧
          (∀ j subj, subjs !! j = Some subj →
             ∃ pj group var nd,
               name pj = name param ∧
               group_nodes param !! tag = Some group ∧
               var_nodes param !! tag = Some var ∧
               get_subj_node pj group var tag (i + j)
                 (rows_of_subj data subj) = Ok nd ∧
               a' !! (i + j)%nat = Some (PyNode nd)).
Proof.
  induction subjs as [|subj subjs IH]; intros i param param' a Hloop Ha.
  - simpl in Hloop. injection Hloop as <-.
    do 8 (split; [done|]).
    exists a. do 3 (split; [done|]).
    intros j subj Hj. by rewrite lookup_nil in Hj.
  - simpl in Hloop.
    apply bind_Ok in Hloop as (col & _ & Hloop).
    apply bind_Ok in Hloop as (group & Hgroup & Hloop).
    apply bind_Ok in Hloop as (var & Hvar & Hloop).
    apply bind_Ok in Hloop as (nd & Hnd & Hloop).
    apply bind_Ok in Hloop as (a0 & Ha0 & Hloop).
    apply bind_Ok in Hloop as (a1 & Ha1 & Hloop).
    unfold dict_getitem in Hgroup, Hvar, Ha0.
    destruct (group_nodes param !! tag) as [g|] eqn:Eg; [|done].
    destruct (var_nodes param !! tag) as [v|] eqn:Ev; [|done].
    injection Hgroup as ->. injection Hvar as ->.
    rewrite Ha in Ha0. injection Ha0 as <-.
    simpl in Ha1. case_decide as Hlt; [|done]. injection Ha1 as <-.
    destruct (IH (S i) _ param' (<[i:=PyNode nd]> a) Hloop)
      as (Hn & Hcg & Hcs & Hb & Hopt & Hg & Hv & Hother & a' & Ha' & Hlen
          & Hbefore & Hnew).
    { simpl. by rewrite lookup_insert_eq. }
    simpl in Hn, Hcg, Hcs, Hb, Hopt, Hg, Hv, Hother.
    do 7 (split; [done|]).
    split.
    { intros tag' Hne. rewrite Hother by done. by rewrite lookup_insert_ne. }
    exists a'. split; [done|]. split; [by rewrite Hlen, length_insert|].
    split.
    + intros j Hj. rewrite Hbefore by lia.
      by rewrite list_lookup_insert_ne by lia.
    + intros [|j] subj' Hsubj'; simpl in Hsubj'.
      * injection Hsubj' as <-. exists param, group, var, nd.
        rewrite Nat.add_0_r. do 4 (split; [done|]).
        rewrite Hbefore by lia. apply list_lookup_insert_eq. lia.
      * destruct (Hnew j subj' Hsubj')
          as (pj & g' & v' & nd' & Hpj & Hg' & Hv' & Hnd' & Hslot).
        simpl in Hpj, Hg', Hv'. rewrite Eg in Hg'. rewrite Ev in Hv'.
        injection Hg' as <-. injection Hv' as <-.
        exists pj, group, var, nd'.
        replace (i + S j)%nat with (S i + j)%nat by lia.
        by do 4 (split; [done|]).
Qed.

Lemma _set_subj_nodes_spec (param param' : Param) (tag : string)
    (data : recarray) :
  _set_subj_nodes get_var_node get_subj_node self param tag data = Ok param' →
  same_descriptor param param' ∧
  ∃ var a,
    get_var_node param ("var" +:+ tag) data = Ok var ∧
    var_nodes param' = <[tag := PyNode var]> (var_nodes param) ∧
    group_nodes param' = group_nodes param ∧
    subj_nodes param' !! tag = Some (PyArray a) ∧
    length a = _num_subjs self ∧
    (∀ tag', tag' ≠ tag → subj_nodes param' !! tag' = subj_nodes param !! tag') ∧
    (∀ j subj, _subjs self !! j = Some subj →
       ∃ pj group nd,
         name pj = name param ∧
         group_nodes param !! tag = Some group ∧
         get_subj_node pj group (PyNode var) tag j (rows_of_subj data subj)
           = Ok nd ∧
         a !! j = Some (PyNode nd)).
Proof.
  unfold _set_subj_nodes. intros H.
  apply bind_Ok in H as (var & Hvar & Hloop).
  destruct (subj_nodes_loop_spec _ _ _ _ _ _
              (replicate (_num_subjs self) PyNone) Hloop)
    as (Hn & Hcg & Hcs & Hb & Hopt & Hg & Hv & Hother & a & Ha & Hlen & _ & Hnew).
  { simpl. by rewrite lookup_insert_eq. }
  simpl in *. split; [by repeat split|].
  exists var, a. repeat split; try done.
  - by rewrite Hlen, length_replicate.
  - intros tag' Hne. rewrite Hother by done. by rewrite lookup_insert_ne.
  - intros j subj Hsubj.
    destruct (Hnew j subj Hsubj) as (pj & group & var' & nd & ? & ? & Hv' & ? & ?).
    rewrite lookup_insert_eq in Hv'. injection Hv' as <-.
    exists pj, group, nd. by repeat split.
Qed.

(** X18.  When [_set_subj_nodes(param, tag, data)] returns, the
    descriptor holds under [tag] a variability node and an array with
    one slot per subject, and every slot holds the node the backend
    returned for that subject's rows of [data], also for a subject that
    has no row there; the group node under [tag] was set before the
    call, and the entries under the other tags are as they were. *)
Theorem _set_subj_nodes_fills_every_slot (param param' : Param)
    (tag : string) (data : recarray) :
  _set_subj_nodes get_var_node get_subj_node self param tag data = Ok param' →
  ∃ var a,
    get_var_node param ("var" +:+ tag) data = Ok var ∧
    var_nodes param' = <[tag := PyNode var]> (var_nodes param) ∧
    group_nodes param' = group_nodes param ∧
    subj_nodes param' !! tag = Some (PyArray a) ∧
    length a = _num_subjs self ∧
    (∀ tag', tag' ≠ tag → subj_nodes param' !! tag' = subj_nodes param !! tag') ∧
    (∀ j subj, _subjs self !! j = Some subj →
       ∃ pj group nd,
         name pj = name param ∧
         group_nodes param !! tag = Some group ∧
         get_subj_node pj group (PyNode var) tag j (rows_of_subj data subj)
           = Ok nd ∧
         a !! j = Some (PyNode nd)).
Proof. intros H. by apply _set_subj_nodes_spec in H as [_ H]. Qed.

Lemma _set_subj_nodes_tier (param param' : Param) (tag : string)
    (data : recarray) :
  _set_subj_nodes get_var_node get_subj_node self param tag data = Ok param' →
  subj_tier self param' tag.
Proof.
  intros H. apply _set_subj_nodes_spec in H
    as (_ & var & a & _ & Hv & _ & Ha & Hlen & _ & Hslots).
  exists var, a. split; [by rewrite Hv, lookup_insert_eq|].
  split; [done|]. split; [done|].
  apply Forall_lookup. intros j o Ho.
  destruct (lookup_lt_is_Some_2 (_subjs self) j) as [subj Hsubj].
  { apply lookup_lt_Some in Ho. unfold _num_subjs in Hlen. lia. }
  destruct (Hslots j subj Hsubj) as (_ & _ & nd & _ & _ & _ & Hj).
  rewrite Ho in Hj. injection Hj as ->. by exists nd.
Qed.

Lemma same_descriptor_refl (param : Param) : same_descriptor param param.
Proof. by repeat split. Qed.

Lemma same_descriptor_trans (p1 p2 p3 : Param) :
  same_descriptor p1 p2 → same_descriptor p2 p3 → same_descriptor p1 p3.
Proof.
  intros (?&?&?&?&?) (?&?&?&?&?). repeat split; congruence.
Qed.

Lemma dependent_tier_ext (p p' : Param) (tag : string) :
  same_descriptor p p' →
  group_nodes p' !! tag = group_nodes p !! tag →
  var_nodes p' !! tag = var_nodes p !! tag →
  subj_nodes p' !! tag = subj_nodes p !! tag →
  dependent_tier self p tag → dependent_tier self p' tag.
Proof.
  intros (_ & Hcg & Hcs & _) Hg Hv Hs [Hgroup Hsubj].
  split.
  - rewrite Hg, Hcg. done.
  - rewrite Hcs. intros Hc. destruct (Hsubj Hc) as (var & a & ? & ? & ? & ?).
    exists var, a. rewrite Hv, Hs. done.
Qed.

(** One turn of the loop of [_set_dependent_param]. *)
Lemma dependent_step_spec (param param1 param2 : Param) (tag : string)
    (data_dep_select : recarray) :
  (if create_group_node param then
     nd ← get_group_node param tag (Some data_dep_select);
     Ok (set_group_nodes (<[tag := PyNode nd]>) param)
   else Ok (set_group_nodes (<[tag := PyNone]>) param)) = Ok param1 →
  (if is_group_model self && create_subj_nodes param1
   then _set_subj_nodes get_var_node get_subj_node self param1 tag
          data_dep_select
   else Ok param1) = Ok param2 →
  same_descriptor param param2 ∧
  dependent_tier self param2 tag ∧
  (∀ tag', dependent_tier self param tag' → dependent_tier self param2 tag').
Proof.
  intros H1 H2.
  assert (same_descriptor param param1 ∧
          (∃ g, group_nodes param1 = <[tag := g]> (group_nodes param) ∧
                if create_group_node param then ∃ nd, g = PyNode nd
                else g = PyNone) ∧
          var_nodes param1 = var_nodes param ∧
          subj_nodes param1 = subj_nodes param) as (Hsame1 & (g & Hg1 & Hshape) & Hv1 & Hs1).
  { destruct (create_group_node param) eqn:Ecg.
    - apply bind_Ok in H1 as (nd & _ & H1). injection H1 as <-.
      split; [by repeat split|]. split; [|done].
      exists (PyNode nd). split; [done|]. by exists nd.
    - injection H1 as <-. split; [by repeat split|]. split; [|done].
      by exists PyNone. }
  assert (same_descriptor param1 param2 ∧
          group_nodes param2 = group_nodes param1 ∧
          (is_group_model self && create_subj_nodes param1 = true →
           subj_tier self param2 tag) ∧
          (∀ tag', tag' ≠ tag →
             var_nodes param2 !! tag' = var_nodes param1 !! tag' ∧
             subj_nodes param2 !! tag' = subj_nodes param1 !! tag'))
    as (Hsame2 & Hg2 & Htier & Hother).
  { destruct (is_group_model self && create_subj_nodes param1) eqn:Ec.
    - pose proof (_set_subj_nodes_tier _ _ _ _ H2) as Ht.
      apply _set_subj_nodes_spec in H2
        as (Hsame & var & a & _ & Hv & Hg & _ & _ & Hoth & _).
      split; [done|]. split; [done|]. split; [done|].
      intros tag' Hne. split; [|by apply Hoth].
      by rewrite Hv, lookup_insert_ne.
    - injection H2 as <-. split; [apply same_descriptor_refl|].
      split; [done|]. split; [done|]. done. }
  pose proof (same_descriptor_trans _ _ _ Hsame1 Hsame2) as Hsame.
  assert (dependent_tier self param2 tag) as Hnew.
  { split.
    - exists g. rewrite Hg2, Hg1, lookup_insert_eq. split; [done|].
      destruct Hsame as (_ & -> & _). done.
    - destruct Hsame2 as (_ & _ & -> & _). done. }
  split; [done|]. split; [done|].
  intros tag' Hold. destruct (decide (tag' = tag)) as [->|Hne]; [done|].
  destruct (Hother tag' Hne) as [Hv2 Hs2].
  apply (dependent_tier_ext param); [done| | | |done].
  - by rewrite Hg2, Hg1, lookup_insert_ne.
  - by rewrite Hv2, Hv1.
  - by rewrite Hs2, Hs1.
Qed.

Lemma dependent_loop_spec (cols : list string) (uniq_data_dep : list key) :
  ∀ param param',
    dependent_loop str_element get_group_node get_var_node get_subj_node self
      cols uniq_data_dep param = Ok param' →
    same_descriptor param param' ∧
    (∀ tag, dependent_tier self param tag → dependent_tier self param' tag) ∧
    (∀ k, k ∈ uniq_data_dep → dependent_tier self param' (str_element k)).
Proof.
  induction uniq_data_dep as [|e es IH]; intros param param' Hloop.
  - simpl in Hloop. injection Hloop as <-.
    split; [apply same_descriptor_refl|]. split; [done|].
    intros k Hk. by apply elem_of_nil in Hk.
  - simpl in Hloop.
    apply bind_Ok in Hloop as (param1 & H1 & Hloop).
    apply bind_Ok in Hloop as (param2 & H2 & Hloop).
    destruct (dependent_step_spec _ _ _ _ _ H1 H2) as (Hsame & Hnew & Hkeep).
    destruct (IH _ _ Hloop) as (Hsame' & Hkeep' & Hrest).
    split; [by eapply same_descriptor_trans|].
    split; [intros tag Ht; by apply Hkeep', Hkeep|].
    intros k Hk. apply elem_of_cons in Hk as [->|Hk]; [|by apply Hrest].
    by apply Hkeep'.
Qed.

(** X19.  When [_set_dependent_param(param)] returns, the descriptor
    holds, under the tag of every element that occurs in the columns
    the parameter depends on, a group node (or [None], when the
    descriptor asks for no group node) and, in a group model when the
    descriptor asks for subject nodes, a variability node and a full
    array of subject nodes; two elements with one tag share the
    entry. *)
Theorem _set_dependent_param_covers_every_element (param param' : Param) :
  _set_dependent_param str_element get_group_node get_var_node get_subj_node
    self param = Ok param' →
  ∃ cols col,
    od_lookup (depends_on self) (name param) = Some cols ∧
    getitem_cols (data self) cols = Ok col ∧
    same_descriptor param param' ∧
    ∀ k, k ∈ col → dependent_tier self param' (str_element k).
Proof.
  unfold _set_dependent_param. intros H.
  apply bind_Ok in H as (cols & Hcols & H).
  apply bind_Ok in H as (col & Hcol & Hloop).
  unfold od_getitem in Hcols.
  destruct (od_lookup (depends_on self) (name param)) as [cols'|] eqn:E;
    [|done].
  injection Hcols as ->.
  apply dependent_loop_spec in Hloop as (Hsame & _ & Hall).
  exists cols, col. do 3 (split; [done|]).
  intros k Hk. apply Hall. by apply np_unique_keys_elem.
Qed.
End TiersFacts.

(** ** The tiers and the partitioner together *)

Lemma od_lookup_Forall2 {V : Type} (R : string * V → string * V → Prop)
    (ps ps' : list (string * V)) (nm : string) (p : V) :
  Forall2 (λ kv kv', kv'.1 = kv.1 ∧ R kv kv') ps ps' →
  od_lookup ps nm = Some p →
  ∃ p', od_lookup ps' nm = Some p' ∧ R (nm, p) (nm, p').
Proof.
  induction 1 as [|[k v] [k' v'] ps ps' [Hk HR] _ IH]; simpl; [done|].
  simpl in Hk. subst k'.
  case_decide as Hnm; [|done].
  intros [= ->]. subst k. by exists v'.
Qed.

(** A part of the table reads the columns the whole table reads, and
    finds no element the whole table has not. *)
Lemma getitem_cols_sub (data0 data : recarray) (cols : list string)
    (col0 : list key) :
  getitem_cols data0 cols = Ok col0 →
  dtype_names data = dtype_names data0 →
  rows data ⊆ rows data0 →
  ∃ col, getitem_cols data cols = Ok col ∧ col ⊆ col0.
Proof.
  unfold getitem_cols. intros H0 Hnames Hsub.
  destruct cols as [|col1 cols]; [injection H0 as <-; by exists []|].
  set (cols0 := col1 :: cols) in *.
  destruct (mapM (row_key (dtype_names data0) cols0) (rows data0))
    as [c0|] eqn:E0; [|done].
  injection H0 as ->. apply mapM_Some in E0.
  rewrite Hnames.
  destruct (mapM_is_Some_2 (row_key (dtype_names data0) cols0) (rows data))
    as [col Hcol].
  { apply Forall_forall. intros row Hrow. apply Hsub in Hrow.
    apply list_elem_of_lookup in Hrow as [i Hi].
    destruct (Forall2_lookup_l _ _ _ _ _ E0 Hi) as (k & _ & Hk).
    unfold compose. rewrite Hk. eauto. }
  rewrite Hcol. exists col. split; [done|].
  apply mapM_Some in Hcol. intros k Hk.
  apply list_elem_of_lookup in Hk as [i Hi].
  destruct (Forall2_lookup_r _ _ _ _ _ Hcol Hi) as (row & Hrow & Hkey).
  apply list_elem_of_lookup_2 in Hrow. apply Hsub in Hrow.
  apply list_elem_of_lookup in Hrow as [i0 Hi0].
  destruct (Forall2_lookup_l _ _ _ _ _ E0 Hi0) as (k0 & Hk0 & Hkey0).
  rewrite Hkey in Hkey0. injection Hkey0 as ->.
  by eapply list_elem_of_lookup_2.
Qed.

Section TiersCompose.
Variable str_element : key → string.
Variable get_group_node : Param → string → option recarray → result node.
Variable get_var_node : Param → string → recarray → result node.
Variable get_subj_node :
  Param → pyobj → pyobj → string → nat → recarray → result node.
Variable self : Hierarchical.

Lemma tier_node_dependent (p : Param) (tag : string) :
  dependent_tier self p tag → ∃ nd, tier_node self p tag = Ok nd.
Proof.
  intros [(g & Hg & _) Hsubj]. unfold tier_node, dict_getitem.
  destruct (is_group_model self && create_subj_nodes p) eqn:Ec.
  - destruct (Hsubj eq_refl) as (var & a & _ & -> & _). eauto.
  - rewrite Hg. eauto.
Qed.

Lemma _set_independet_param_spec (param param' : Param) :
  _set_independet_param get_group_node get_var_node get_subj_node self param
    = Ok param' →
  same_descriptor param param' ∧
  (∃ nd, group_nodes param' !! "" = Some (PyNode nd)) ∧
  (is_group_model self && create_subj_nodes param = true →
   subj_tier self param' "").
Proof.
  unfold _set_independet_param. intros H.
  apply bind_Ok in H as (nd & _ & H). simpl in H.
  destruct (is_group_model self && create_subj_nodes param) eqn:Ec.
  - pose proof (_set_subj_nodes_tier _ _ _ _ _ _ _ H) as Ht.
    apply _set_subj_nodes_spec in H
      as ((Hn & Hcg & Hcs & Hb & Hopt) & _ & _ & _ & _ & Hg & _).
    simpl in *. split; [by repeat split|]. split; [|done].
    exists nd. by rewrite Hg, lookup_insert_eq.
  - injection H as <-. simpl. split; [by repeat split|].
    split; [|done]. exists nd. by rewrite lookup_insert_eq.
Qed.

Lemma tier_node_independent (param param' : Param) :
  _set_independet_param get_group_node get_var_node get_subj_node self param
    = Ok param' →
  ∃ nd, tier_node self param' "" = Ok nd.
Proof.
  intros H. apply _set_independet_param_spec in H
    as ((_ & _ & Hcs & _) & (nd & Hg) & Hsubj).
  unfold tier_node, dict_getitem. rewrite Hcs.
  destruct (is_group_model self && create_subj_nodes param) eqn:Ec.
  - destruct (Hsubj eq_refl) as (var & a & _ & -> & _). eauto.
  - rewrite Hg. eauto.
Qed.

Lemma create_tiers_Forall2 (ps : ordered_params) :
  ∀ ps',
    create_tiers str_element get_group_node get_var_node get_subj_node self ps
      = Ok ps' →
    Forall2 (λ kv kv', kv'.1 = kv.1 ∧
       (if is_bottom_node kv.2 then Ok kv.2
        else if bool_decide (kv.1 ∈ (depends_on self).*1)
             then _set_dependent_param str_element get_group_node get_var_node
                    get_subj_node self kv.2
             else _set_independet_param get_group_node get_var_node
                    get_subj_node self kv.2) = Ok kv'.2) ps ps'.
Proof.
  induction ps as [|[nm param] ps IH]; intros ps' H.
  - simpl in H. injection H as <-. constructor.
  - simpl in H.
    apply bind_Ok in H as (param' & Hstep & H).
    apply bind_Ok in H as (rest & Hrest & H).
    injection H as <-. constructor; [by split|by apply IH].
Qed.

Lemma independent_params_total (ps ps' : ordered_params) :
  create_tiers str_element get_group_node get_var_node get_subj_node self ps
    = Ok ps' →
  ∀ params, ∃ params', independent_params self ps' params = Ok params'.
Proof.
  intros H. apply create_tiers_Forall2 in H.
  induction H as [|[nm p] [nm' p'] ps ps' [Hk Hstep] _ IH]; intros params.
  - by exists params.
  - simpl in Hk, Hstep. subst nm'. simpl.
    destruct (is_bottom_node p) eqn:Eb.
    { injection Hstep as <-. rewrite Eb, orb_true_r. apply IH. }
    destruct (bool_decide (nm ∈ (depends_on self).*1)) eqn:Ed.
    { simpl. apply IH. }
    pose proof (tier_node_independent _ _ Hstep) as [nd Hnd].
    apply _set_independet_param_spec in Hstep as ((_ & _ & _ & Hb & _) & _).
    rewrite Hb, Eb. simpl. rewrite Hnd. simpl. apply IH.
Qed.

Lemma depend_loop_total (ps' : ordered_params) (data : recarray)
    (param_name : string) (col_name : list string) (dep_name : list key)
    (recurse : recarray → gmap string pyobj → list key → result (list terminal))
    (p' : Param) :
  od_lookup ps' param_name = Some p' →
  (∀ e params n, ∃ ts, recurse (rows_equal data col_name e) params n = Ok ts) →
  ∀ depend_elements params,
    (∀ e, e ∈ depend_elements →
       ∃ nd, tier_node self p' (str_element e) = Ok nd) →
    ∃ ts, depend_loop str_element self ps' data param_name col_name dep_name
            recurse depend_elements params = Ok ts.
Proof.
  intros Hp Hrec depend_elements.
  induction depend_elements as [|e es IH]; intros params Hall.
  - by exists [].
  - simpl. unfold od_getitem. rewrite Hp. simpl.
    destruct (Hall e) as [nd Hnd]; [by left|]. rewrite Hnd. simpl.
    destruct (Hrec e (<[param_name:=nd]> params) (dep_name ++ [e]))
      as [ts1 ->]. simpl.
    destruct (IH (<[param_name:=nd]> params)) as [ts2 ->].
    { intros e' He'. apply Hall. by right. }
    simpl. eauto.
Qed.

Lemma _get_data_depend_rec_total (ps' : ordered_params)
    (depends_on : list (string * list string)) :
  (∀ pn cols, (pn, cols) ∈ depends_on →
     ∃ p' col, od_lookup ps' pn = Some p' ∧
               getitem_cols (data self) cols = Ok col ∧
               ∀ k, k ∈ col → ∃ nd, tier_node self p' (str_element k) = Ok nd) →
  ∀ part params dep_name,
    dtype_names part = dtype_names (data self) →
    rows part ⊆ rows (data self) →
    ∃ ts, _get_data_depend_rec str_element self ps' part depends_on params
            dep_name = Ok ts.
Proof.
  induction depends_on as [|[pn cols] deps IH]; intros Hdeps part params
    dep_name Hnames Hsub.
  - simpl. eauto.
  - simpl.
    destruct (Hdeps pn cols) as (p' & col0 & Hp' & Hcol0 & Htiers); [by left|].
    destruct (getitem_cols_sub _ _ _ _ Hcol0 Hnames Hsub) as (col & -> & Hcol).
    simpl. apply (depend_loop_total _ _ _ _ _ _ p'); [done| |].
    + intros e params' n. apply IH.
      * intros pn' cols' Hin. apply Hdeps. by right.
      * done.
      * simpl. trans (rows part); [apply list_subseteq_filter|done].
    + intros e He. apply Htiers, Hcol. by apply np_unique_keys_elem.
Qed.

(** X20.  Once [_create()] has run through the included descriptors,
    [_get_data_depend()] finds every node it binds and returns: no
    lookup of a tag misses.  The dictionary of dependencies has one
    entry per name, each dependency names an included descriptor that
    is no bottom node, and every descriptor is stored under its own
    name. *)
Theorem partitioner_total_after_create (ps ps' : ordered_params) :
  keyed_by_name ps →
  dependencies_included self ps →
  NoDup (depends_on self).*1 →
  create_tiers str_element get_group_node get_var_node get_subj_node self ps
    = Ok ps' →
  ∃ ts, _get_data_depend str_element self ps' = Ok ts.
Proof.
  intros Hkeys Hincl Hnd Hcreate. unfold _get_data_depend.
  destruct (independent_params_total _ _ Hcreate ∅) as [params ->]. simpl.
  apply _get_data_depend_rec_total; [|done|done].
  intros pn cols Hin.
  destruct (Hincl pn) as (p & Hp & Hb).
  { apply list_elem_of_fmap. by exists (pn, cols). }
  pose proof (create_tiers_Forall2 _ _ Hcreate) as HF.
  destruct (od_lookup_Forall2 _ _ _ _ _ HF Hp) as (p' & Hp' & Hstep).
  simpl in Hstep. rewrite Hb in Hstep.
  rewrite bool_decide_eq_true_2 in Hstep
    by (apply list_elem_of_fmap; by exists (pn, cols)).
  unfold _set_dependent_param in Hstep.
  apply bind_Ok in Hstep as (cols' & Hcols' & Hstep).
  apply bind_Ok in Hstep as (col & Hcol & Hloop).
  apply dependent_loop_spec in Hloop as (_ & _ & Htiers).
  unfold od_getitem in Hcols'.
  assert (name p = pn) as Hname.
  { apply od_lookup_Some_elem in Hp.
    unfold keyed_by_name in Hkeys. rewrite Forall_forall in Hkeys.
    by apply (Hkeys (pn, p)). }
  rewrite Hname in Hcols'.
  rewrite (od_lookup_elem_NoDup _ _ _ Hnd Hin) in Hcols'. injection Hcols' as <-.
  exists p', col. split; [done|]. split; [done|].
  intros k Hk. apply tier_node_dependent, Htiers.
  by apply np_unique_keys_elem.
Qed.
End TiersCompose.

(** ** The included descriptors and the retry of [create_nodes] *)

Lemma od_lookup_insert {V : Type} (d : list (string * V)) (k k' : string)
    (v : V) :
  od_lookup (od_insert d k v) k' =
  if decide (k = k') then Some v else od_lookup d k'.
Proof.
  induction d as [|[k0 v0] d IH]; simpl.
  - done.
  - repeat (case_decide; simpl); simplify_eq; try done;
      try (by rewrite IH, decide_False).
Qed.

Lemma od_insert_keys {V : Type} (d : list (string * V)) (k k' : string)
    (v : V) :
  k' ∈ (od_insert d k v).*1 ↔ k' = k ∨ k' ∈ d.*1.
Proof.
  induction d as [|[k0 v0] d IH]; simpl.
  - rewrite list_elem_of_singleton, elem_of_nil. tauto.
  - case_decide as Hk; simpl.
    + subst k0. rewrite !elem_of_cons. tauto.
    + rewrite !elem_of_cons, IH. tauto.
Qed.

Lemma od_insert_NoDup {V : Type} (d : list (string * V)) (k : string) (v : V) :
  NoDup d.*1 → NoDup (od_insert d k v).*1.
Proof.
  induction d as [|[k0 v0] d IH]; simpl; intros Hnd.
  - apply NoDup_singleton.
  - apply NoDup_cons in Hnd as [Hfresh Hnd].
    case_decide as Hk; simpl.
    + subst k0. by apply NoDup_cons.
    + apply NoDup_cons. split; [|by apply IH].
      rewrite od_insert_keys. intros [->|Hin]; done.
Qed.

Lemma od_insert_Forall {V : Type} (P : string * V → Prop)
    (d : list (string * V)) (k : string) (v : V) :
  Forall P d → P (k, v) → Forall P (od_insert d k v).
Proof.
  induction 1 as [|[k0 v0] d H0 Hd IH]; simpl; intros Hkv.
  - by constructor.
  - case_decide; constructor; auto.
Qed.

Lemma select_params_include_fold (include : list string) (params : list Param) :
  ∀ acc,
    let ps := foldl (λ acc param,
                if bool_decide (name param ∈ include) || negb (optional param)
                then od_insert acc (name param) param else acc) acc params in
    (NoDup acc.*1 → NoDup ps.*1) ∧
    (keyed_by_name acc → keyed_by_name ps) ∧
    ∀ nm, od_lookup ps nm =
          match last (filter (λ p, name p = nm ∧ is_included include p = true)
                        params) with
          | Some p => Some p
          | None => od_lookup acc nm
          end.
Proof.
  induction params as [|p params IH]; intros acc; simpl.
  - done.
  - destruct (IH (if bool_decide (name p ∈ include) || negb (optional p)
                  then od_insert acc (name p) p else acc))
      as (Hnd & Hkeys & Hlook).
    split; [|split].
    + intros H. apply Hnd. case_match; [by apply od_insert_NoDup|done].
    + intros H. apply Hkeys. case_match; [|done].
      by apply od_insert_Forall.
    + intros nm. rewrite Hlook. rewrite filter_cons.
      destruct (decide (name p = nm ∧ is_included include p = true))
        as [[Hnm Hinc]|Hp].
      * unfold is_included in Hinc. rewrite Hinc, last_cons.
        destruct (last (filter _ params)); [done|].
        by rewrite od_lookup_insert, decide_True.
      * destruct (bool_decide (name p ∈ include) || negb (optional p))
          eqn:Einc; [|done].
        destruct (last (filter _ params)); [done|].
        rewrite od_lookup_insert, decide_False; [done|].
        intros Hnm. by apply Hp.
Qed.

(** X21.  The included descriptors, as [create_nodes] collects them: no
    name occurs twice, every descriptor is stored under its own name,
    and the descriptor stored under a name is the last declared one of
    that name that is named in [include] or is not optional; a name no
    such descriptor carries is absent. *)
Theorem select_params_include_last_declared (include : list string)
    (params : list Param) :
  NoDup (select_params_include include params).*1 ∧
  keyed_by_name (select_params_include include params) ∧
  ∀ nm, od_lookup (select_params_include include params) nm =
        last (filter (λ p, name p = nm ∧ is_included include p = true) params).
Proof.
  destruct (select_params_include_fold include params [])
    as (Hnd & Hkeys & Hlook).
  split; [apply Hnd, NoDup_nil_2|]. split; [apply Hkeys, Forall_nil_2|].
  intros nm. unfold select_params_include. rewrite Hlook.
  by destruct (last _).
Qed.

Section CreateNodesMoreFacts.
Variable str_element : key → string.
Variable str_path : list key → string.
Variable get_bottom_node :
  Param → string → option nat → recarray → gmap string pyobj → result node.
Variable _create : nat → ordered_params → result ordered_params.
Variable self : Hierarchical.

(** X22.  An exception of [_create()] that is neither
    [ZeroProbability] nor [ValueError] is not retried and not wrapped:
    after [n] caught failures that the bound allows, it reaches the
    caller of [create_nodes] as it was raised, and [_create()] has run
    [n + 1] times. *)
Theorem create_nodes_other_exception (retry : Z) (params : list Param)
    (k n : nat) (e : exn) :
  (n ≤ Z.to_nat retry)%nat →
  fails_caught _create k n (select_params_include (include self) params) →
  _create (k + n)%nat (select_params_include (include self) params) = Raise e →
  caught_by_create_nodes e = false →
  create_nodes str_element str_path get_bottom_node _create self retry params k
  = (Raise e, S (k + n)).
Proof.
  intros Hle Hf He Hc. unfold create_nodes.
  rewrite (create_retry_skip _ _ k n _ Hle Hf).
  destruct (Z.to_nat retry - n)%nat; simpl; by rewrite He, Hc.
Qed.
End CreateNodesMoreFacts.

(** ** The two passes over the bottom parameters *)

Section BottomPasses.
Variable str_element : key → string.
Variable str_path : list key → string.
Variable get_bottom_node :
  Param → string → option nat → recarray → gmap string pyobj → result node.
Variable self : Hierarchical.

Lemma bottom_loop_init_spec (pname : string) (data_dep : list terminal) :
  ∀ i ps ps' calls,
    bottom_loop str_path get_bottom_node self pname true data_dep i ps
      = Ok (ps', calls) →
    calls = [] ∧
    (data_dep ≠ [] → is_Some (od_lookup ps pname)) ∧
    (∀ nm, nm ≠ pname → od_lookup ps' nm = od_lookup ps nm) ∧
    (∀ param, od_lookup ps pname = Some param →
       ∃ param', od_lookup ps' pname = Some param' ∧
         same_descriptor param param' ∧
         group_nodes param' = group_nodes param ∧
         var_nodes param' = var_nodes param ∧
         (∀ tag, tag ∉ terminal_tag str_path <$> data_dep →
                 subj_nodes param' !! tag = subj_nodes param !! tag) ∧
         (∀ tag, tag ∈ terminal_tag str_path <$> data_dep →
                 subj_nodes param' !! tag = Some (placeholder self param))).
Proof.
  induction data_dep as [|[[data params_dep] dep_name] data_dep IH];
    intros i ps ps' calls Hloop.
  - simpl in Hloop. injection Hloop as <- <-.
    split; [done|]. split; [done|]. split; [done|].
    intros param Hp. exists param. split; [done|].
    split; [by repeat split|]. split; [done|]. split; [done|].
    split; [done|]. intros tag Htag. by apply elem_of_nil in Htag.
  - simpl in Hloop.
    apply bind_Ok in Hloop as ([ps1 calls0] & Hinit & Hloop).
    apply bind_Ok in Hloop as ([final calls1] & Hrec & Hloop).
    injection Hloop as <- <-.
    apply bind_Ok in Hinit as (param0 & Hparam0 & Hinit).
    injection Hinit as <- <-.
    unfold od_getitem in Hparam0.
    destruct (od_lookup ps pname) as [p|] eqn:Hp; [|done].
    injection Hparam0 as <-.
    destruct (IH _ _ _ _ Hrec) as (-> & _ & Hother & Hsame).
    split; [done|]. split; [eauto|]. split.
    { intros nm Hne. rewrite Hother by done.
      by rewrite od_lookup_update, decide_False. }
    intros param [= <-].
    destruct (Hsame (set_subj_nodes
                (<[str_path dep_name := placeholder self p]>) p))
      as (param' & Hp' & Hdesc & Hg & Hv & Hframe & Hnew).
    { by rewrite od_lookup_update, decide_True, Hp. }
    exists param'. split; [done|]. split; [done|].
    split; [done|]. split; [done|]. rewrite fmap_cons. split.
    + intros tag Htag. apply not_elem_of_cons in Htag as [Hne Htag].
      rewrite Hframe by done. simpl. by rewrite lookup_insert_ne.
    + intros tag Htag.
      destruct (decide (tag ∈ terminal_tag str_path <$> data_dep))
        as [Hin|Hnotin].
      * by rewrite Hnew.
      * apply elem_of_cons in Htag as [->|Htag]; [|done].
        rewrite Hframe by done. simpl. unfold terminal_tag. simpl.
        by rewrite lookup_insert_eq.
Qed.

(** X23.  The initialising pass [_set_bottom_nodes(param, init=True)]
    calls no backend function and touches nothing but the subject
    entries of the bottom descriptor: under the tag of every partition
    it leaves the placeholder (an array of [_num_subjs] empty slots in
    a group model when the descriptor asks for subject nodes, [None]
    otherwise), and the entries under all other tags are as they
    were. *)
Theorem init_pass_leaves_placeholders (ps ps' : ordered_params)
    (pname : string) (param : Param) (calls : list bottom_call) :
  od_lookup ps pname = Some param →
  _set_bottom_nodes str_element str_path get_bottom_node self ps pname true
    = Ok (ps', calls) →
  calls = [] ∧
  (∀ nm, nm ≠ pname → od_lookup ps' nm = od_lookup ps nm) ∧
  ∃ ts param',
    _get_data_depend str_element self ps = Ok ts ∧
    od_lookup ps' pname = Some param' ∧
    same_descriptor param param' ∧
    group_nodes param' = group_nodes param ∧
    var_nodes param' = var_nodes param ∧
    (∀ t, t ∈ ts →
       subj_nodes param' !! terminal_tag str_path t
       = Some (placeholder self param)) ∧
    (∀ tag, tag ∉ terminal_tag str_path <$> ts →
       subj_nodes param' !! tag = subj_nodes param !! tag).
Proof.
  unfold _set_bottom_nodes. intros Hp H.
  apply bind_Ok in H as (ts & Hts & Hloop).
  destruct (bottom_loop_init_spec _ _ _ _ _ _ Hloop)
    as (Hcalls & _ & Hother & Hsame).
  destruct (Hsame param Hp) as (param' & Hp' & Hdesc & Hg & Hv & Hframe & Hnew).
  split; [done|]. split; [done|].
  exists ts, param'. do 5 (split; [done|]). split; [|done].
  intros t Ht. apply Hnew. apply list_elem_of_fmap. by exists t.
Qed.

Lemma subjects_with_rows_elem (data : recarray) (i j : nat) (subj : cell)
    (subjs : list cell) :
  (j, subj) ∈ subjects_with_rows data i subjs →
  len (rows_of_subj data subj) ≠ 0%nat ∧
  ∃ j', j = (i + j')%nat ∧ subjs !! j' = Some subj.
Proof.
  unfold subjects_with_rows, enumerate. intros H.
  apply list_elem_of_filter in H as [Hlen H]. split; [done|].
  apply list_elem_of_lookup in H as [n Hn].
  apply lookup_zip_Some in Hn as [Hseq Hsubj].
  apply lookup_seq in Hseq as [-> _]. by exists n.
Qed.

Lemma bottom_loop_untouched (pname : string) (data_dep : list terminal) :
  is_group_model self = true →
  ∀ i ps ps' calls,
    bottom_loop str_path get_bottom_node self pname false data_dep i ps
      = Ok (ps', calls) →
    NoDup (terminal_tag str_path <$> data_dep) →
    ∀ t j subj,
      t ∈ data_dep → _subjs self !! j = Some subj →
      len (rows_of_subj (terminal_data t) subj) = 0%nat →
      bottom_slot ps' pname (terminal_tag str_path t) j
      = bottom_slot ps pname (terminal_tag str_path t) j.
Proof.
  intros Hgroup.
  induction data_dep as [|[[data params_dep] dep_name] data_dep IH];
    intros i ps ps' calls Hloop Hnd t j subj Ht Hsubj Hlen.
  - by apply elem_of_nil in Ht.
  - simpl in Hloop.
    apply bind_Ok in Hloop as ([ps1 calls0] & Hcreate & Hloop).
    apply bind_Ok in Hloop as ([final calls1] & Hrec & Hloop).
    injection Hloop as <- <-.
    rewrite fmap_cons in Hnd. apply NoDup_cons in Hnd as [Hfresh Hnd].
    unfold _create_bottom_node in Hcreate. rewrite Hgroup in Hcreate.
    apply subj_loop_spec in Hcreate as (Hkeys & _ & Hskip & Hframe).
    pose proof Hrec as Hrec'.
    apply bottom_loop_spec in Hrec' as (_ & _ & Hframe1 & _).
    apply elem_of_cons in Ht as [->|Ht].
    + unfold bottom_slot at 1. rewrite Hframe1 by done.
      fold (bottom_slot ps1 pname
              (terminal_tag str_path (data, params_dep, dep_name)) j).
      apply Hskip. intros c Hc Hidx.
      assert (call_key c ∈ call_key <$> calls0) as Hkey
        by (apply list_elem_of_fmap; by exists c).
      rewrite Hkeys in Hkey.
      apply list_elem_of_fmap in Hkey as ([j' subj'] & Heq & Hin).
      unfold call_key in Heq. simpl in Heq.
      injection Heq as _ Hj' _. rewrite Hidx in Hj'. injection Hj' as ->.
      apply subjects_with_rows_elem in Hin as (Hne & n & -> & Hn).
      simpl in Hsubj. rewrite Hsubj in Hn. injection Hn as ->.
      by apply Hne.
    + assert (terminal_tag str_path t
              ≠ terminal_tag str_path (data, params_dep, dep_name)) as Hne.
      { intros Heq. apply Hfresh. rewrite <- Heq.
        apply list_elem_of_fmap. by exists t. }
      rewrite (IH _ _ _ _ Hrec Hnd t j subj Ht Hsubj Hlen).
      unfold bottom_slot. by rewrite (Hframe _ Hne).
Qed.

(** X24.  In a group model the creating pass leaves alone the slot of
    a subject that has no row in a partition: what the bottom
    descriptor held there before [_set_bottom_nodes(param, init=False)]
    (the empty slot of the initialising pass) it still holds when the
    pass returns.  The tags of the partitions are distinct. *)
Theorem untested_subject_keeps_slot (ps final : ordered_params)
    (pname : string) (calls : list bottom_call) (ts : list terminal)
    (t : terminal) (j : nat) (subj : cell) :
  is_group_model self = true →
  _get_data_depend str_element self ps = Ok ts →
  NoDup (terminal_tag str_path <$> ts) →
  _set_bottom_nodes str_element str_path get_bottom_node self ps pname false
    = Ok (final, calls) →
  t ∈ ts →
  _subjs self !! j = Some subj →
  len (rows_of_subj (terminal_data t) subj) = 0%nat →
  bottom_slot final pname (terminal_tag str_path t) j
  = bottom_slot ps pname (terminal_tag str_path t) j.
Proof.
  unfold _set_bottom_nodes. intros Hgroup Hts Hnd H Ht Hsubj Hlen.
  rewrite Hts in H. simpl in H.
  by apply (bottom_loop_untouched _ _ Hgroup _ _ _ _ H Hnd t j subj).
Qed.
End BottomPasses.

(** ** The binding chosen for an included parameter, on the tiers
       [_create()] builds *)

Section BindingFacts.
Variable str_element : key → string.
Variable str_path : list key → string.
Variable get_group_node : Param → string → option recarray → result node.
Variable get_var_node : Param → string → recarray → result node.
Variable get_subj_node :
  Param → pyobj → pyobj → string → nat → recarray → result node.
Variable self : Hierarchical.





End BindingFacts.

(** ** The passes over the bottom parameters change bottom descriptors
       only *)

Lemma same_tiers_refl (ps : ordered_params) : same_tiers ps ps.
Proof. apply Forall2_same_length_lookup. split; [done|].
  intros j kv1 kv2 H1 H2. rewrite H1 in H2. injection H2 as <-. done.
Qed.

Lemma same_tiers_trans (ps1 ps2 ps3 : ordered_params) :
  same_tiers ps1 ps2 → same_tiers ps2 ps3 → same_tiers ps1 ps3.
Proof.
  intros H12 H23. eapply Forall2_trans; [|exact H12|exact H23].
  intros kv1 kv2 kv3 (Hk & Hb & Heq) (Hk' & Hb' & Heq'). simpl in *.
  split; [congruence|]. split; [congruence|].
  intros Hf. rewrite Heq' by congruence. by apply Heq.
Qed.

Lemma same_tiers_bottom (ps ps' : ordered_params) (pname : string) :
  same_tiers ps ps' →
  (∃ q, od_lookup ps pname = Some q ∧ is_bottom_node q = true) →
  ∃ q', od_lookup ps' pname = Some q' ∧ is_bottom_node q' = true.
Proof.
  intros Hsame (q & Hq & Hb).
  destruct (od_lookup_Forall2 _ _ _ _ _ Hsame Hq) as (q' & Hq' & Hflag & _).
  simpl in Hflag. exists q'. split; [done|]. congruence.
Qed.

Lemma od_update_same_tiers (ps : ordered_params) (pname : string)
    (g : gmap string pyobj → gmap string pyobj) :
  (∃ q, od_lookup ps pname = Some q ∧ is_bottom_node q = true) →
  same_tiers ps (od_update ps pname (set_subj_nodes g)).
Proof.
  intros (q & Hq & Hb). induction ps as [|[k0 v0] ps IH]; simpl; [done|].
  simpl in Hq. case_decide as Hk.
  - injection Hq as ->. apply Forall2_cons. split; [|apply same_tiers_refl].
    simpl. split; [done|]. split; [done|]. congruence.
  - apply Forall2_cons. split; [done|]. by apply IH.
Qed.

Section BottomPassesTiers.
Variable str_element : key → string.
Variable str_path : list key → string.
Variable get_bottom_node :
  Param → string → option nat → recarray → gmap string pyobj → result node.
Variable self : Hierarchical.

Lemma subj_loop_same_tiers (pname : string) (data : recarray)
    (params : gmap string pyobj) (dep_name : string) (subjs : list cell) :
  ∀ i ps ps' calls,
    subj_loop get_bottom_node pname data params dep_name subjs i ps
      = Ok (ps', calls) →
    (∃ q, od_lookup ps pname = Some q ∧ is_bottom_node q = true) →
    same_tiers ps ps'.
Proof.
  induction subjs as [|subj subjs IH]; intros i ps ps' calls Hloop Hb.
  - simpl in Hloop. injection Hloop as <- <-. apply same_tiers_refl.
  - simpl in Hloop. apply bind_Ok in Hloop as (col & _ & Hloop).
    destruct (decide (len (rows_of_subj data subj) = 0%nat));
      [by apply (IH _ _ _ _ Hloop)|].
    apply bind_Ok in Hloop as (selected & _ & Hloop).
    apply bind_Ok in Hloop as (param & _ & Hloop).
    apply bind_Ok in Hloop as (nd & _ & Hloop).
    apply bind_Ok in Hloop as (ps1 & Hstore & Hloop).
    apply bind_Ok in Hloop as ([final calls'] & Hrec & Hloop).
    injection Hloop as <- <-.
    assert (Hstep : same_tiers ps ps1).
    { unfold store_subj_node in Hstore.
      apply bind_Ok in Hstore as (q0 & _ & Hstore).
      apply bind_Ok in Hstore as (a & _ & Hstore).
      apply bind_Ok in Hstore as (a' & _ & Hstore).
      injection Hstore as <-. by apply od_update_same_tiers. }
    apply (same_tiers_trans _ ps1); [done|].
    apply (IH _ _ _ _ Hrec). by apply (same_tiers_bottom ps).
Qed.

Lemma bottom_loop_same_tiers (pname : string) (init : bool)
    (data_dep : list terminal) :
  ∀ i ps ps' calls,
    bottom_loop str_path get_bottom_node self pname init data_dep i ps
      = Ok (ps', calls) →
    (∃ q, od_lookup ps pname = Some q ∧ is_bottom_node q = true) →
    same_tiers ps ps'.
Proof.
  induction data_dep as [|[[data params_dep] dep_name] data_dep IH];
    intros i ps ps' calls Hloop Hb.
  - simpl in Hloop. injection Hloop as <- <-. apply same_tiers_refl.
  - simpl in Hloop.
    apply bind_Ok in Hloop as ([ps1 calls0] & Hstep & Hloop).
    apply bind_Ok in Hloop as ([final calls1] & Hrec & Hloop).
    injection Hloop as <- <-.
    assert (Hsame : same_tiers ps ps1).
    { destruct init.
      - apply bind_Ok in Hstep as (param & _ & Hstep).
        injection Hstep as <- _. by apply od_update_same_tiers.
      - unfold _create_bottom_node in Hstep.
        destruct (is_group_model self).
        + by apply (subj_loop_same_tiers _ _ _ _ _ _ _ _ _ Hstep).
        + apply bind_Ok in Hstep as (param & _ & Hstep).
          apply bind_Ok in Hstep as (nd & _ & Hstep).
          injection Hstep as <- _. by apply od_update_same_tiers. }
    apply (same_tiers_trans _ ps1); [done|].
    apply (IH _ _ _ _ Hrec). by apply (same_tiers_bottom ps).
Qed.

(** Whatever a pass over the bottom parameters does, every descriptor
    that is no bottom descriptor is as it was. *)
Lemma bottom_pass_same_tiers (init : bool) (names : list string) :
  ∀ ps ps' calls,
    bottom_pass str_element str_path get_bottom_node self init names ps
      = Ok (ps', calls) →
    same_tiers ps ps'.
Proof.
  induction names as [|nm names IH]; intros ps ps' calls Hpass.
  - simpl in Hpass. injection Hpass as <- <-. apply same_tiers_refl.
  - simpl in Hpass. apply bind_Ok in Hpass as (param & Hparam & Hpass).
    destruct (is_bottom_node param) eqn:Hb; simpl in Hpass;
      [|by apply (IH _ _ _ Hpass)].
    apply bind_Ok in Hpass as ([ps1 calls0] & Hset & Hpass).
    apply bind_Ok in Hpass as ([final calls1] & Hrec & Hpass).
    injection Hpass as <- <-.
    apply (same_tiers_trans _ ps1); [|by apply (IH _ _ _ Hrec)].
    unfold _set_bottom_nodes in Hset.
    apply bind_Ok in Hset as (data_dep & _ & Hloop).
    apply (bottom_loop_same_tiers _ _ _ _ _ _ _ Hloop).
    unfold od_getitem in Hparam.
    destruct (od_lookup ps nm) as [q|] eqn:Hq; [|done].
    injection Hparam as ->. eauto.
Qed.
End BottomPassesTiers.

(** * The further properties on the experiment *)

Lemma demo_self_built :
  (__init__ demo_table None (Some [("v", DepStr "cond")]) []).2 = Ok demo_self.
Proof. by vm_compute. Qed.

Lemma init_checks_columns_witness :
  Forall (λ kv : string * list string,
            Forall (λ c, c ∈ dtype_names (data demo_self)) kv.2)
    (depends_on demo_self).
Proof.
  assert (Hd : [("v", DepStr "cond")] ≠ ([] : depends_dict)) by done.
  pose proof (init_checks_columns demo_table None [("v", DepStr "cond")] []
                demo_table_fresh Hd) as H.
  cbv zeta in H. destruct H as [_ Hok].
  by destruct (Hok demo_self demo_self_built) as (_ & _ & H).
Defined.

Lemma init_group_model_witness :
  is_group_model demo_self = true ∧
  NoDup (_subjs demo_self) ∧ Sorted cell_le (_subjs demo_self).
Proof.
  destruct (init_group_model demo_table None (Some [("v", DepStr "cond")]) []
              demo_self demo_self_built) as [_ Hsubjs].
  split; [reflexivity|].
  destruct (Hsubjs eq_refl) as (_ & c & _ & Hnd & Hsorted & _).
  by split.
Defined.

Lemma terminals_hold_rows_on_path_witness :
  ∃ ts t,
    _get_data_depend_rec demo_str_element demo_self demo_params_include
      (data demo_self) (depends_on demo_self) ∅ [] = Ok ts ∧
    ts !! 1%nat = Some t ∧
    rows (terminal_data t) = [[CInt 12; CInt 0; CInt 0; CStr "b"; CInt 1]].
Proof.
  destruct (_get_data_depend_rec demo_str_element demo_self demo_params_include
              (data demo_self) (depends_on demo_self) ∅ [])
    as [ts|e] eqn:E; [|vm_compute in E; discriminate E].
  destruct (ts !! 1%nat) as [t|] eqn:Et;
    [|vm_compute in E; injection E as <-; discriminate Et].
  exists ts, t. split; [reflexivity|]. split; [exact Et|].
  destruct (terminals_hold_rows_on_path _ _ _ _ _ _ _ _ t E
              (list_elem_of_lookup_2 _ _ _ Et))
    as (path & Hpath & _ & _ & Hrows).
  rewrite Hrows. vm_compute in E. injection E as <-.
  injection Et as <-. simpl in Hpath. subst path. by vm_compute.
Defined.

Lemma no_empty_partition_witness :
  ∃ ts,
    _get_data_depend_rec demo_str_element demo_self demo_params_include
      (data demo_self) (depends_on demo_self) ∅ [] = Ok ts ∧
    ∀ t, t ∈ ts → rows (terminal_data t) ≠ [].
Proof.
  destruct (_get_data_depend_rec demo_str_element demo_self demo_params_include
              (data demo_self) (depends_on demo_self) ∅ [])
    as [ts|e] eqn:E; [|vm_compute in E; discriminate E].
  exists ts. split; [reflexivity|].
  assert (Hdeps : depends_on demo_self ≠ []) by done.
  by destruct (no_empty_partition _ _ _ _ _ _ _ _ E Hdeps) as [H _].
Defined.

Lemma terminal_paths_distinct_witness :
  ∃ ts,
    _get_data_depend_rec demo_str_element demo_self demo_params_include
      (data demo_self) (depends_on demo_self) ∅ [] = Ok ts ∧
    NoDup (terminal_dep_name <$> ts).
Proof.
  destruct (_get_data_depend_rec demo_str_element demo_self demo_params_include
              (data demo_self) (depends_on demo_self) ∅ [])
    as [ts|e] eqn:E; [|vm_compute in E; discriminate E].
  exists ts. split; [reflexivity|].
  exact (terminal_paths_distinct _ _ _ _ _ _ _ _ E).
Defined.

Lemma terminals_bind_dependent_params_witness :
  ∃ ts t,
    _get_data_depend_rec demo_str_element demo_self demo_params_include
      (data demo_self) (depends_on demo_self) ∅ [] = Ok ts ∧
    ts !! 1%nat = Some t ∧
    terminal_params t !! "v"
    = Some (PyArray [demo_node "v('b',)0" 5; demo_node "v('b',)1" 6]) ∧
    terminal_params t !! "a" = None.
Proof.
  destruct (_get_data_depend_rec demo_str_element demo_self demo_params_include
              (data demo_self) (depends_on demo_self) ∅ [])
    as [ts|e] eqn:E; [|vm_compute in E; discriminate E].
  destruct (ts !! 1%nat) as [t|] eqn:Et;
    [|vm_compute in E; injection E as <-; discriminate Et].
  exists ts, t. split; [reflexivity|]. split; [exact Et|].
  assert (Hnd : NoDup (depends_on demo_self).*1) by apply NoDup_singleton.
  destruct (terminals_bind_dependent_params _ _ _ _ _ _ _ _ t Hnd E
              (list_elem_of_lookup_2 _ _ _ Et))
    as (path & Hpath & Hbound & Hother).
  split.
  - vm_compute in E. injection E as <-. injection Et as <-.
    simpl in Hpath. subst path.
    apply Forall2_cons_1 in Hbound as [(param & nd & Hp & Hnode & Ht) _].
    simpl in Hp. injection Hp as <-. trans (Some nd); [exact Ht|].
    f_equal. vm_compute in Hnode. by injection Hnode as <-.
  - rewrite Hother; [done|]. simpl. by rewrite list_elem_of_singleton.
Defined.

Lemma demo_params_include_NoDup : NoDup demo_params_include.*1.
Proof. refine (bool_decide_unpack _ _). vm_compute. exact I. Qed.

Lemma terminals_bind_all_parameters_witness :
  ∃ ts t,
    _get_data_depend demo_str_element demo_self demo_params_include = Ok ts ∧
    ts !! 0%nat = Some t ∧
    is_Some (terminal_params t !! "a") ∧
    ¬ is_Some (terminal_params t !! "wfpt").
Proof.
  destruct (_get_data_depend demo_str_element demo_self demo_params_include)
    as [ts|e] eqn:E; [|vm_compute in E; discriminate E].
  destruct (ts !! 0%nat) as [t|] eqn:Et;
    [|vm_compute in E; injection E as <-; discriminate Et].
  exists ts, t. split; [reflexivity|]. split; [exact Et|].
  assert (Hnd : NoDup (depends_on demo_self).*1) by apply NoDup_singleton.
  destruct (terminals_bind_all_parameters _ _ _ _ t
              demo_params_include_NoDup Hnd E
              (list_elem_of_lookup_2 _ _ _ Et)) as [Hdom _].
  split.
  - apply Hdom. right. eexists. split; reflexivity.
  - rewrite Hdom. intros [Hin|(param & Hp & Hb)].
    + simpl in Hin. by apply list_elem_of_singleton in Hin.
    + simpl in Hp. injection Hp as <-. discriminate Hb.
Defined.

Lemma bottom_nodes_observe_every_row_witness :
  ∃ ps1 final calls,
    _set_bottom_nodes demo_str_element demo_str_path demo_get_bottom_node
      demo_self demo_params_include "wfpt" true = Ok (ps1, []) ∧
    _set_bottom_nodes demo_str_element demo_str_path demo_get_bottom_node
      demo_self ps1 "wfpt" false = Ok (final, calls) ∧
    mjoin ((λ c, rows (call_data c)) <$> calls) ≡ₚ rows (data demo_self).
Proof.
  destruct (_set_bottom_nodes demo_str_element demo_str_path
              demo_get_bottom_node demo_self demo_params_include "wfpt" true)
    as [[ps1 calls0]|e] eqn:E0; [|vm_compute in E0; discriminate E0].
  destruct (_set_bottom_nodes demo_str_element demo_str_path
              demo_get_bottom_node demo_self ps1 "wfpt" false)
    as [[final calls]|e] eqn:E1;
    [|vm_compute in E0; injection E0 as <- <-;
      vm_compute in E1; discriminate E1].
  exists ps1, final, calls.
  assert (calls0 = []) as ->
    by (vm_compute in E0; by injection E0 as _ <-).
  split; [reflexivity|]. split; [exact E1|].
  assert (Hcols : Forall (λ dep : string * list string, dep.2 ≠ [])
                    (depends_on demo_self)) by (by repeat constructor).
  exact (bottom_nodes_observe_every_row _ _ _ _ _ _ _ _ _ _ _ _
           demo_self_built Hcols E1).
Defined.

Lemma demo_attempt_broken_fails (n : nat) :
  fails_zero_probability (demo_attempt_broken n) 0 n.
Proof.
  intros j Hj. exists (ZeroProbability (ArgMsg "bad starting value")).
  split; [|done]. unfold demo_attempt_broken. simpl.
  by rewrite (proj2 (Nat.ltb_lt j n)).
Qed.

Lemma map_run_other_exception_witness :
  map_run (demo_attempt_broken 1) (Z.to_nat 4) 0
  = (Raise (KeyError "v_group"), 2%nat) ∧
  map (demo_attempt_broken 1) 3 4 5 ∅ = (Raise (KeyError "v_group"), 2%nat).
Proof.
  assert (Hlt : (1 < Nat.max 1 (Z.to_nat 4))%nat) by (vm_compute; lia).
  destruct (map_run_other_exception (demo_attempt_broken 1) 4 1 0
              (KeyError "v_group") (demo_attempt_broken_fails 1) Hlt
              eq_refl eq_refl) as [Hrun Hmap].
  split; [exact Hrun|]. apply (Hmap eq_refl). lia.
Defined.

Lemma map_without_runs_witness :
  map (demo_attempt 0 [10]%Z) 0 4 5 ∅
  = (Raise (IndexError "list index out of range"), 0%nat).
Proof. apply map_without_runs. lia. Defined.

Lemma map_choose_latest_of_the_best_witness :
  ∃ best printed i,
    map_choose 3 5
      [ {| logp := 12; _dict_container := demo_graph 50 |};
        {| logp := 12; _dict_container := demo_graph 51 |};
        {| logp := 7; _dict_container := demo_graph 52 |} ]
    = Ok (best, printed) ∧
    [ {| logp := 12; _dict_container := demo_graph 50 |};
      {| logp := 12; _dict_container := demo_graph 51 |};
      {| logp := 7; _dict_container := demo_graph 52 |} ] !! i = Some best ∧
    _dict_container best = demo_graph 51.
Proof.
  destruct (map_choose 3 5
      [ {| logp := 12; _dict_container := demo_graph 50 |};
        {| logp := 12; _dict_container := demo_graph 51 |};
        {| logp := 7; _dict_container := demo_graph 52 |} ])
    as [[best printed]|e] eqn:E; [|vm_compute in E; discriminate E].
  destruct (map_choose_latest_of_the_best _ _ _ _ _ E) as (i & Hi & _ & _).
  exists best, printed, i. split; [reflexivity|]. split; [exact Hi|].
  vm_compute in E. by injection E as <- _.
Defined.

Lemma set_values_keeps_nodes_witness :
  ∃ live',
    set_values
      [("v_group",
        PyNode {| __name__ := "v"; value := 50; observed := false |})]
      (demo_graph 52) = Ok live' ∧
    match demo_graph 52 !! "wfpt_subj" with
    | Some (PyNode l) =>
        ∃ v, live' !! "wfpt_subj" = Some (PyNode (set_value v l))
    | Some o => live' !! "wfpt_subj" = Some o
    | None => live' !! "wfpt_subj" = None
    end.
Proof.
  destruct (set_values
      [("v_group",
        PyNode {| __name__ := "v"; value := 50; observed := false |})]
      (demo_graph 52)) as [live'|e] eqn:E; [|vm_compute in E; discriminate E].
  exists live'. split; [reflexivity|].
  exact (set_values_keeps_nodes _ _ _ E "wfpt_subj").
Defined.

Lemma map_last_run_best_witness :
  ∃ out,
    map (demo_attempt 0 [7; 12]%Z) 2 4 5 ∅ = (Ok out, 2%nat) ∧
    nodes out = demo_graph 51.
Proof.
  eexists. split.
  - apply (map_last_run_best (demo_attempt 0 [7; 12]%Z) 2 4 5 ∅ (demo_graph 51)
             [ {| logp := 7; _dict_container := demo_graph 50 |};
               {| logp := 12; _dict_container := demo_graph 51 |} ]
             2 {| logp := 12; _dict_container := demo_graph 51 |} []).
    + by vm_compute.
    + by vm_compute.
    + reflexivity.
    + intros nm o Ho. unfold demo_graph in Ho.
      destruct (decide (nm = "v_group")) as [->|Hne].
      * rewrite lookup_insert_eq in Ho. injection Ho as <-. eauto.
      * rewrite lookup_insert_ne in Ho by done.
        apply lookup_singleton_Some in Ho as [_ <-]. eauto.
  - reflexivity.
Defined.

Lemma stats_cache_never_replaced_witness :
  (stats_calls (λ _ _, 7%Z) demo_stats_state [Some 0%Z; Some 1%Z; None]).1
  = [Ok (Some 7%Z); Ok None; Ok None] ∧
  (stats_calls (λ _ _, 7%Z) demo_stats_state [Some 0%Z; Some 1%Z; None]).2
  = demo_stats_state.
Proof.
  destruct (stats_cache_never_replaced Z (λ _ _, 7%Z) demo_stats_state 2 0 7
              [Some 0%Z; Some 1%Z; None] eq_refl eq_refl eq_refl)
    as [Hst Hres].
  split; [|exact Hst]. by rewrite Hres.
Defined.

Lemma _set_subj_nodes_fills_every_slot_witness :
  ∃ param' a,
    _set_subj_nodes demo_get_var_node demo_get_subj_node demo_self
      (set_group_nodes (<["" := demo_node "a" 7]>) (demo_fresh "a" false))
      "" (data demo_self) = Ok param' ∧
    subj_nodes param' !! "" = Some (PyArray a) ∧
    length a = 2%nat.
Proof.
  destruct (_set_subj_nodes demo_get_var_node demo_get_subj_node demo_self
      (set_group_nodes (<["" := demo_node "a" 7]>) (demo_fresh "a" false))
      "" (data demo_self)) as [param'|e] eqn:E;
    [|vm_compute in E; discriminate E].
  destruct (_set_subj_nodes_fills_every_slot _ _ _ _ _ _ _ E)
    as (var & a & _ & _ & _ & Ha & Hlen & _).
  exists param', a. split; [reflexivity|]. by split.
Defined.

Lemma _set_dependent_param_covers_every_element_witness :
  ∃ param',
    _set_dependent_param demo_str_element demo_get_group_node
      demo_get_var_node demo_get_subj_node demo_self (demo_fresh "v" false)
    = Ok param' ∧
    dependent_tier demo_self param' "('b',)".
Proof.
  destruct (_set_dependent_param demo_str_element demo_get_group_node
      demo_get_var_node demo_get_subj_node demo_self (demo_fresh "v" false))
    as [param'|e] eqn:E; [|vm_compute in E; discriminate E].
  exists param'. split; [reflexivity|].
  destruct (_set_dependent_param_covers_every_element _ _ _ _ _ _ _ E)
    as (cols & col & Hcols & Hcol & _ & Htiers).
  vm_compute in Hcols. injection Hcols as <-.
  vm_compute in Hcol. injection Hcol as <-.
  apply (Htiers [CStr "b"]). right. left.
Defined.

Lemma partitioner_total_after_create_witness :
  ∃ ps' ts,
    create_tiers demo_str_element demo_get_group_node demo_get_var_node
      demo_get_subj_node demo_self demo_declared = Ok ps' ∧
    _get_data_depend demo_str_element demo_self ps' = Ok ts.
Proof.
  destruct (create_tiers demo_str_element demo_get_group_node
              demo_get_var_node demo_get_subj_node demo_self demo_declared)
    as [ps'|e] eqn:E; [|vm_compute in E; discriminate E].
  exists ps'.
  assert (Hkeys : keyed_by_name demo_declared) by (by repeat constructor).
  assert (Hincl : dependencies_included demo_self demo_declared).
  { intros nm Hnm. simpl in Hnm. apply list_elem_of_singleton in Hnm as ->.
    exists (demo_fresh "v" false). by split. }
  assert (Hnd : NoDup (depends_on demo_self).*1) by apply NoDup_singleton.
  destruct (partitioner_total_after_create _ _ _ _ _ _ _ Hkeys Hincl Hnd E)
    as [ts Hts].
  exists ts. by split.
Defined.

Lemma demo_create_broken_fails (n : nat) (ps : ordered_params) :
  fails_caught (demo_create_broken n) 0 n ps.
Proof.
  intros j Hj. exists (ValueError "bad starting value"). split; [|done].
  unfold demo_create_broken. simpl. by rewrite (proj2 (Nat.ltb_lt j n)).
Qed.

Lemma create_nodes_other_exception_witness :
  create_nodes demo_str_element demo_str_path demo_get_bottom_node
    (demo_create_broken 2) demo_self default_retry demo_params 0
  = (Raise (KeyError "v"), 3%nat).
Proof.
  assert (Hle : (2 ≤ Z.to_nat default_retry)%nat) by (vm_compute; lia).
  exact (create_nodes_other_exception demo_str_element demo_str_path
           demo_get_bottom_node (demo_create_broken 2) demo_self default_retry
           demo_params 0 2 (KeyError "v") Hle (demo_create_broken_fails 2 _)
           eq_refl eq_refl).
Defined.

Lemma init_pass_leaves_placeholders_witness :
  ∃ ps1 param',
    _set_bottom_nodes demo_str_element demo_str_path demo_get_bottom_node
      demo_self demo_params_include "wfpt" true = Ok (ps1, []) ∧
    od_lookup ps1 "wfpt" = Some param' ∧
    subj_nodes param' !! "[('b',)]" = Some (PyArray [PyNone; PyNone]).
Proof.
  destruct (_set_bottom_nodes demo_str_element demo_str_path
              demo_get_bottom_node demo_self demo_params_include "wfpt" true)
    as [[ps1 calls0]|e] eqn:E0; [|vm_compute in E0; discriminate E0].
  destruct (init_pass_leaves_placeholders demo_str_element demo_str_path
              demo_get_bottom_node demo_self demo_params_include ps1 "wfpt"
              (demo_fresh "wfpt" true) calls0 eq_refl E0)
    as (-> & _ & ts & param' & Hts & Hp' & _ & _ & _ & Hnew & _).
  exists ps1, param'. split; [reflexivity|]. split; [exact Hp'|].
  destruct (ts !! 1%nat) as [t|] eqn:Et;
    [|vm_compute in Hts; injection Hts as <-; discriminate Et].
  pose proof (Hnew t (list_elem_of_lookup_2 _ _ _ Et)) as Ht.
  vm_compute in Hts. injection Hts as <-. injection Et as <-.
  exact Ht.
Defined.

Lemma untested_subject_keeps_slot_witness :
  ∃ ps1 final calls,
    _set_bottom_nodes demo_str_element demo_str_path demo_get_bottom_node
      demo_self demo_params_include "wfpt" true = Ok (ps1, []) ∧
    _set_bottom_nodes demo_str_element demo_str_path demo_get_bottom_node
      demo_self ps1 "wfpt" false = Ok (final, calls) ∧
    bottom_slot final "wfpt" "[('b',)]" 1 = Some PyNone.
Proof.
  destruct (_set_bottom_nodes demo_str_element demo_str_path
              demo_get_bottom_node demo_self demo_params_include "wfpt" true)
    as [[ps1 calls0]|e] eqn:E0; [|vm_compute in E0; discriminate E0].
  destruct (_set_bottom_nodes demo_str_element demo_str_path
              demo_get_bottom_node demo_self ps1 "wfpt" false)
    as [[final calls]|e] eqn:E1;
    [|vm_compute in E0; injection E0 as <- <-;
      vm_compute in E1; discriminate E1].
  exists ps1, final, calls.
  assert (calls0 = []) as ->
    by (vm_compute in E0; by injection E0 as _ <-).
  split; [reflexivity|]. split; [exact E1|].
  destruct (_get_data_depend demo_str_element demo_self ps1)
    as [ts|e] eqn:Ets;
    [|vm_compute in E0; injection E0 as <-;
      vm_compute in Ets; discriminate Ets].
  destruct (ts !! 1%nat) as [t|] eqn:Et;
    [|vm_compute in E0; injection E0 as <-;
      vm_compute in Ets; injection Ets as <-; discriminate Et].
  assert (Hnd : NoDup (terminal_tag demo_str_path <$> ts)).
  { vm_compute in E0. injection E0 as <-.
    vm_compute in Ets. injection Ets as <-.
    refine (bool_decide_unpack _ _). vm_compute. exact I. }
  assert (Hlen : len (rows_of_subj (terminal_data t) (CInt 1)) = 0%nat).
  { vm_compute in E0. injection E0 as <-.
    vm_compute in Ets. injection Ets as <-. by injection Et as <-. }
  pose proof (untested_subject_keeps_slot demo_str_element demo_str_path
                demo_get_bottom_node demo_self ps1 final "wfpt" calls ts t
                1%nat (CInt 1) eq_refl Ets Hnd E1
                (list_elem_of_lookup_2 _ _ _ Et) eq_refl Hlen) as Hslot.
  vm_compute in E0. injection E0 as <-.
  vm_compute in Ets. injection Ets as <-. injection Et as <-.
  etrans; [exact Hslot|]. by vm_compute.
Defined.


